(** * License compliance engine of esbuild-license-compliance-plugin

    A shallow embedding of [src/lib.ts]: the ignore-pattern matcher
    [isIgnored], the license-expression parser [parseLicenseExpression],
    the policy evaluator [isLicenseAllowed] and the aggregator
    [checkLicenseCompliance], together with the properties the
    specification states about them.

    Strings.  A JavaScript string is a sequence of UTF-16 code units.  The
    embedding works on the code units below 256 (the Latin-1 range), held in
    Rocq's [string]; on that range the host functions used by the source
    ([trim], [toLowerCase], [includes], [join], the white-space class of
    regular expressions) are modelled exactly.

    Regular expressions.  [parseLicenseExpression] uses one fixed regular
    expression, which is embedded as a matcher of its own.  [isIgnored]
    builds a regular expression from each ignore pattern at run time; the
    constructor [RegExp] is embedded for a fragment of the pattern syntax
    (characters, [.], [^], [$], the quantifiers [*] and [+]).  On a source
    outside of that fragment the constructor is whatever the host makes of
    it: an [Engine] gives, for each such source, the exception thrown or
    the test function of the regular expression built, and every property
    is proved for every engine.

    Values.  The manifests are the result of [JSON.parse]; the fields
    [extractLicense] reads are held as JSON values, since the code reads
    them without looking at their types. *)

From Stdlib Require Import Bool Arith NArith Lia List Ascii String Permutation.
Import ListNotations.

Open Scope list_scope.
Open Scope string_scope.

(* ================================================================== *)
(** * Host strings *)

Module Js.

(** White space as [String.prototype.trim] and the class [\s] know it
    (WhiteSpace and LineTerminator code points), below 256: TAB, LF, VT,
    FF, CR, SP and NBSP. *)
Definition isWhiteSpace (c : ascii) : bool :=
  (c =? "009")%char || (c =? "010")%char || (c =? "011")%char
  || (c =? "012")%char || (c =? "013")%char || (c =? " ")%char
  || (c =? "160")%char.

(** Line terminators, the code units the regular expression atom [.]
    refuses: LF and CR. *)
Definition isLineTerminator (c : ascii) : bool :=
  (c =? "010")%char || (c =? "013")%char.

(** [String.prototype.toLowerCase] on one code unit below 256: the letters
    A-Z and the Latin-1 capitals U+00C0..U+00DE other than the
    multiplication sign U+00D7 move up by 32. *)
Definition toLowerChar (c : ascii) : ascii :=
  let n := N_of_ascii c in
  if ((65 <=? n) && (n <=? 90))%N
     || ((192 <=? n) && (n <=? 222) && negb (n =? 215))%N
  then ascii_of_N (n + 32) else c.

Fixpoint toLowerCase (s : string) : string :=
  match s with
  | "" => ""
  | String c s' => String (toLowerChar c) (toLowerCase s')
  end.

(** [s.startsWith(x)] at position 0. *)
Fixpoint startsWith (s x : string) : bool :=
  match x, s with
  | "", _ => true
  | String _ _, "" => false
  | String a x', String b s' => (a =? b)%char && startsWith s' x'
  end.

(** [s.includes(x)]: [x] occurs in [s] at some position. *)
Fixpoint includes (s x : string) : bool :=
  startsWith s x
  || match s with
     | "" => false
     | String _ s' => includes s' x
     end.

(** [Array.prototype.join]. *)
Fixpoint join (sep : string) (xs : list string) : string :=
  match xs with
  | [] => ""
  | [x] => x
  | x :: rest => x ++ sep ++ join sep rest
  end.

Definition isEmpty (s : string) : bool :=
  match s with "" => true | _ => false end.

Fixpoint trimStart (s : string) : string :=
  match s with
  | "" => ""
  | String c s' => if isWhiteSpace c then trimStart s' else s
  end.

(** The code unit [c] survives at the front of [trimEnd (String c s')]
    unless it is white space and nothing survives behind it. *)
Fixpoint trimEnd (s : string) : string :=
  match s with
  | "" => ""
  | String c s' =>
      let t := trimEnd s' in
      if isWhiteSpace c && isEmpty t then "" else String c t
  end.

Definition trim (s : string) : string := trimEnd (trimStart s).

(** [s.replace(/c/g, by)] for a regular expression that matches exactly the
    one code unit [c]. *)
Fixpoint replaceChar (c : ascii) (by_ : string) (s : string) : string :=
  match s with
  | "" => ""
  | String d s' =>
      if (d =? c)%char then by_ ++ replaceChar c by_ s'
      else String d (replaceChar c by_ s')
  end.

End Js.

(* ================================================================== *)
(** * The separator of license expressions: [/\s+(?:OR)\s+/i] *)

Module Separator.

(** Under the flag [i] (without [u]) a pattern character matches the code
    units with the same canonical (upper-case) form; for [O] and [R] these
    are the two ASCII letters. *)
Definition isO (c : ascii) : bool := (c =? "O")%char || (c =? "o")%char.
Definition isR (c : ascii) : bool := (c =? "R")%char || (c =? "r")%char.

(** Greedy [\s+] with backtracking, followed by the continuation [k]: one
    white-space code unit, then as many more as possible, giving code units
    back while the continuation fails. *)
Fixpoint whiteSpacePlus {A} (k : string -> option A) (s : string) : option A :=
  match s with
  | "" => None
  | String c s' =>
      if Js.isWhiteSpace c then
        match whiteSpacePlus k s' with
        | Some r => Some r
        | None => k s'
        end
      else None
  end.

(** The whole expression matched at the front of [s] (a sticky match, as
    [split] runs it); the result is what follows the match. *)
Definition matchAt (s : string) : option string :=
  whiteSpacePlus
    (fun s1 =>
       match s1 with
       | String o (String r s2) =>
           if isO o && isR r then whiteSpacePlus (fun s3 => Some s3) s2
           else None
       | _ => None
       end) s.

(** [s.split(/\s+(?:OR)\s+/i)], the loop of [RegExp.prototype[@@split]]:
    [cur] holds the code units between the end of the last match (p) and
    the position under test (q), [s] what lies from q on.  A match at q
    closes the segment and moves p and q behind the match; otherwise q
    moves by one.  The expression matches no empty string, so a match
    always ends behind p.  [fuel] bounds the iterations of the loop. *)
Fixpoint splitLoop (fuel : nat) (cur s : string) : list string :=
  match fuel with
  | O => [cur ++ s]
  | S fuel' =>
      match s with
      | "" => [cur]
      | String c s' =>
          match matchAt s with
          | Some rest => cur :: splitLoop fuel' "" rest
          | None => splitLoop fuel' (cur ++ String c "") s'
          end
      end
  end.

(** The loop runs at most once per code unit of the input. *)
Definition split (s : string) : list string :=
  splitLoop (S (String.length s)) "" s.

End Separator.

(* ================================================================== *)
(** * Outcomes of host calls *)

(** The values [JSON.parse] returns, and [undefined] for a property an
    object does not have.  A number is held by its string conversion, which
    with its truthiness is all the code can see of it; an object by its
    members in the order of the JSON text. *)
#[warnings="-register-all"] Inductive JsValue : Type :=
| JUndefined
| JNull
| JBool (b : bool)
| JNumber (text : string)
| JString (s : string)
| JArray (items : list JsValue)
| JObject (members : list (string * JsValue)).

(** What a [TypeError] of the code of lib.ts is about: the read of a
    property of [null] or [undefined], the call of a property that is no
    function, or the conversion to a string of an object that has none. *)
Inductive Fault : Type :=
| ReadOf (nullish : JsValue) (key : string)
| CallOf (method : string)
| ToPrimitive.

(** The exceptions the host raises in the code of lib.ts: the constructor
    [RegExp] a [SyntaxError] on the source it refuses, the language a
    [TypeError]. *)
Inductive JsError : Type :=
| SyntaxError (source : string)
| TypeError (fault : Fault).

(** A call returns or throws. *)
Inductive Completion (A : Type) : Type :=
| Normal (a : A)
| Throw (e : JsError).

Arguments Normal {A} a.
Arguments Throw {A} e.

Definition bind {A B} (c : Completion A) (k : A -> Completion B) : Completion B :=
  match c with
  | Normal a => k a
  | Throw e => Throw e
  end.

Notation "x <- c ;; k" := (bind c (fun x => k))
  (at level 61, c at next level, right associativity).

(** [Array.prototype.some] with a callback that may throw: the callback runs
    on the elements in order, up to the first one it accepts. *)
Fixpoint some {A} (f : A -> Completion bool) (xs : list A) : Completion bool :=
  match xs with
  | [] => Normal false
  | x :: rest =>
      b <- f x ;;
      if b then Normal true else some f rest
  end.

(** [Array.prototype.map] with a callback that may throw: the callback runs
    on the elements in order, and its first exception ends the call. *)
Fixpoint mapM {A B} (f : A -> Completion B) (xs : list A) : Completion (list B) :=
  match xs with
  | [] => Normal []
  | x :: rest =>
      y <- f x ;;
      ys <- mapM f rest ;;
      Normal (y :: ys)
  end.

(* ================================================================== *)
(** * Regular expressions built at run time *)

(** The host's constructor on the sources outside the fragment embedded
    below: for each source the exception [new RegExp(source)] throws, or the
    function [input => regex.test(input)] of the regular expression it
    returns (the expression is neither global nor sticky, so [test] depends
    on the input alone). *)
Record Engine : Type := {
  outside : string -> Completion (string -> bool)
}.

Module RegExp.

Inductive Atom : Type :=
| AChar (c : ascii)
| ADot.

Inductive Quantifier : Type :=
| QOne
| QStar
| QPlus.

Inductive Term : Type :=
| TBegin
| TEnd
| TAtom (a : Atom) (q : Quantifier).

Definition Pattern : Type := list Term.

(** What reading a source gives: the terms of a pattern of the fragment, the
    early error of a quantifier with nothing to repeat, or the finding that
    the source lies outside the fragment. *)
Inductive Parsed : Type :=
| Accepted (p : Pattern)
| NothingToRepeat
| Outside.

Definition withTerm (t : Term) (rest : Parsed) : Parsed :=
  match rest with
  | Accepted ts => Accepted (t :: ts)
  | NothingToRepeat => NothingToRepeat
  | Outside => Outside
  end.

(** The syntax characters whose constructs are outside the fragment: groups,
    classes, braces, alternation, escapes and the quantifier [?]. *)
Definition isOutsideSyntax (c : ascii) : bool :=
  (c =? "(")%char || (c =? ")")%char || (c =? "[")%char || (c =? "]")%char
  || (c =? "{")%char || (c =? "}")%char || (c =? "|")%char
  || (c =? "\")%char || (c =? "?")%char.

Definition isQuantifier (c : ascii) : bool :=
  (c =? "*")%char || (c =? "+")%char.

Definition atomOf (c : ascii) : Atom :=
  if (c =? ".")%char then ADot else AChar c.

(** The source of a regular expression without flags, read from left to
    right: an assertion [^] or [$], or an atom with the quantifier that
    follows it.  A quantifier with no atom before it (at the start, behind
    an assertion, behind another quantifier) is the early error "nothing to
    repeat"; the first character that decides the reading decides the
    result. *)
Fixpoint parse (source : string) : Parsed :=
  match source with
  | "" => Accepted []
  | String c rest =>
      if (c =? "^")%char then withTerm TBegin (parse rest)
      else if (c =? "$")%char then withTerm TEnd (parse rest)
      else if isQuantifier c then NothingToRepeat
      else if isOutsideSyntax c then Outside
      else
        match rest with
        | String q rest' =>
            if (q =? "*")%char then withTerm (TAtom (atomOf c) QStar) (parse rest')
            else if (q =? "+")%char then withTerm (TAtom (atomOf c) QPlus) (parse rest')
            else withTerm (TAtom (atomOf c) QOne) (parse rest)
        | "" => Accepted [TAtom (atomOf c) QOne]
        end
  end.

Definition atomMatches (a : Atom) (c : ascii) : bool :=
  match a with
  | AChar d => (d =? c)%char
  | ADot => negb (Js.isLineTerminator c)
  end.

(** Greedy [a*] followed by the continuation [k]: take one more code unit
    first, fall back to the continuation.  [atStart] tells whether the
    position is the start of the input. *)
Fixpoint star (a : Atom) (k : bool -> string -> bool)
         (atStart : bool) (s : string) : bool :=
  match s with
  | String c s' => atomMatches a c && star a k false s'
  | "" => false
  end
  || k atStart s.

(** The backtracking matcher at one position of the input. *)
Fixpoint matchHere (p : Pattern) : bool -> string -> bool :=
  match p with
  | [] => fun _ _ => true
  | TBegin :: p' => fun atStart s => atStart && matchHere p' atStart s
  | TEnd :: p' => fun atStart s => Js.isEmpty s && matchHere p' atStart s
  | TAtom a QOne :: p' =>
      fun _ s =>
        match s with
        | String c s' => atomMatches a c && matchHere p' false s'
        | "" => false
        end
  | TAtom a QStar :: p' => star a (matchHere p')
  | TAtom a QPlus :: p' =>
      fun _ s =>
        match s with
        | String c s' => atomMatches a c && star a (matchHere p') false s'
        | "" => false
        end
  end.

(** The search of [RegExp.prototype.exec] for a regular expression that is
    neither global nor sticky: the positions 0, 1, ... up to the end of the
    input are tried in turn. *)
Fixpoint search (p : Pattern) (atStart : bool) (s : string) : bool :=
  matchHere p atStart s
  || match s with
     | String _ s' => search p false s'
     | "" => false
     end.

(** [regex.test(input)]. *)
Definition test (p : Pattern) (input : string) : bool := search p true input.

(** [new RegExp(source)], by its test function. *)
Definition construct (e : Engine) (source : string)
  : Completion (string -> bool) :=
  match parse source with
  | Accepted p => Normal (test p)
  | NothingToRepeat => Throw (SyntaxError source)
  | Outside => outside e source
  end.

End RegExp.

(* ================================================================== *)
(** * lib.ts: data *)

(** The members of the union type [SPDXLicenseId], lib.ts:4-26.  The type is
    erased at run time; the functions below take the identifiers as the
    strings they are. *)
Definition SPDXLicenseId : list string :=
  [ "AGPL-3.0-only"; "Apache-2.0"; "BSD-2-Clause"; "BSD-3-Clause"; "BSL-1.0";
    "CC0-1.0"; "CDDL-1.0"; "CDDL-1.1"; "EPL-1.0"; "EPL-2.0"; "GPL-2.0-only";
    "GPL-3.0-only"; "ISC"; "LGPL-2.0-only"; "LGPL-2.1-only";
    "LGPL-2.1-or-later"; "LGPL-3.0-only"; "LGPL-3.0-or-later"; "MIT";
    "MPL-2.0"; "MS-PL"; "UNLICENSED" ].

Definition isSPDXLicenseId (s : string) : bool :=
  existsb (String.eqb s) SPDXLicenseId.

(** [LicenseComplianceOptions], lib.ts:31-51: every field is optional. *)
Record LicenseComplianceOptions : Type := {
  allowed : option (list string);
  disallowed : option (list string);
  ignores : option (list string)
}.

Module Json.

(** A value in a condition: [undefined], [null], [false], zero and the empty
    string are falsy ([JSON.parse] returns no NaN), arrays and objects are
    truthy. *)
Definition truthy (v : JsValue) : bool :=
  match v with
  | JUndefined | JNull => false
  | JBool b => b
  | JNumber text => negb (text =? "0")
  | JString s => negb (Js.isEmpty s)
  | JArray _ | JObject _ => true
  end.

(** The member of the name [key] that [JSON.parse] keeps: the last one of
    the text. *)
Fixpoint member (key : string) (members : list (string * JsValue)) : JsValue :=
  match members with
  | [] => JUndefined
  | (k, v) :: rest =>
      match member key rest with
      | JUndefined => if (k =? key) then v else JUndefined
      | later => later
      end
  end.

(** [value.key] for a name [key] that no prototype defines (the code reads
    [type]): the member of an object, [undefined] on the other values that
    have properties, a [TypeError] on [null] and [undefined]. *)
Definition get (value : JsValue) (key : string) : Completion JsValue :=
  match value with
  | JUndefined | JNull => Throw (TypeError (ReadOf value key))
  | JObject members => Normal (member key members)
  | _ => Normal JUndefined
  end.

(** An object has a member of the name [key]. *)
Definition hasOwn (key : string) (members : list (string * JsValue)) : bool :=
  existsb (fun m => fst m =? key) members.

(** [String(value)] as [Array.prototype.join] applies it.  An array is
    joined with commas, [undefined] and [null] written as nothing.  An
    object is converted by the [toString] it inherits, unless it has a
    member of that name: [JSON.parse] returns no function, the member is not
    callable, [valueOf] gives no primitive, and the conversion throws. *)
Fixpoint toString (value : JsValue) : Completion string :=
  match value with
  | JUndefined => Normal "undefined"
  | JNull => Normal "null"
  | JBool true => Normal "true"
  | JBool false => Normal "false"
  | JNumber text => Normal text
  | JString s => Normal s
  | JArray items =>
      texts <- (fix each (items : list JsValue) : Completion (list string) :=
                  match items with
                  | [] => Normal []
                  | item :: rest =>
                      t <- match item with
                           | JUndefined | JNull => Normal ""
                           | _ => toString item
                           end ;;
                      ts <- each rest ;;
                      Normal (t :: ts)
                  end) items ;;
      Normal (Js.join "," texts)
  | JObject members =>
      if hasOwn "toString" members then Throw (TypeError ToPrimitive)
      else Normal "[object Object]"
  end.

(** The text [Array.prototype.join] writes for one element: nothing for
    [undefined] and [null]. *)
Definition joined (item : JsValue) : Completion string :=
  match item with
  | JUndefined | JNull => Normal ""
  | _ => toString item
  end.

End Json.

(** [PackageInfo], lib.ts:53-58.  The interface gives the field [license]
    the type [string]; [scanDirectPackage] fills it with what
    [extractLicense] returns, which the cast of lib.ts:68 lets be any value.
    The record is therefore taken over the type of that field. *)
Record PackageInfoOf (License : Type) : Type := {
  name : string;
  version : string;
  license : License;
  path : string
}.

Arguments name {License} _.
Arguments version {License} _.
Arguments license {License} _.
Arguments path {License} _.

(** The record as the interface declares it. *)
Definition PackageInfo : Type := PackageInfoOf string.

(** The record as [scanDirectPackage] builds it. *)
Definition ScannedPackage : Type := PackageInfoOf JsValue.

(** [LicenseViolation], lib.ts:60-64. *)
Record LicenseViolation : Type := {
  package : string;
  violationLicense : string;
  reason : string
}.

(** The two properties of the manifest object that [extractLicense] reads,
    [pkg.license] and [pkg.licenses], each [undefined] when the manifest
    does not have it. *)
Record Manifest : Type := {
  manifestLicense : JsValue;
  manifestLicenses : JsValue
}.

(** [extractLicense], lib.ts:66-78.  The value of [pkg.license] is returned
    as it is when it is truthy, string or not.  Otherwise a non-empty array
    [pkg.licenses] gives the join of what [l.type] is for its elements: the
    reads come first and throw on an element [null], then [join] converts
    what was read.  [Array.isArray] holds of arrays only. *)
Definition extractLicense (pkg : Manifest) : Completion JsValue :=
  if Json.truthy (manifestLicense pkg) then Normal (manifestLicense pkg)
  else
    match manifestLicenses pkg with
    | JArray (l :: ls) =>
        types <- mapM (fun l => Json.get l "type") (l :: ls) ;;
        texts <- mapM Json.joined types ;;
        Normal (JString (Js.join " OR " texts))
    | _ => Normal (JString "UNKNOWN")
    end.

(* ================================================================== *)
(** * lib.ts: the ignore-pattern matcher *)

(** The match of [/\[([^\]]+)\]/] behind an opening bracket: the greedy run
    of code units other than the closing bracket, then the closing bracket.
    The result is the captured group and what follows the match. *)
Fixpoint bracketGroup (s : string) : option (string * string) :=
  match s with
  | "" => None
  | String c s' =>
      if (c =? "]")%char then None
      else
        match bracketGroup s' with
        | Some (group, rest) => Some (String c group, rest)
        | None =>
            match s' with
            | String d rest =>
                if (d =? "]")%char then Some (String c "", rest) else None
            | "" => None
            end
        end
  end.

(** [.replace(/\[([^\]]+)\]/g, "[$1]")], lib.ts:86. *)
Fixpoint replaceBracketGroups (fuel : nat) (s : string) : string :=
  match fuel with
  | O => s
  | S fuel' =>
      match s with
      | "" => ""
      | String c s' =>
          match (if (c =? "[")%char then bracketGroup s' else None) with
          | Some (group, rest) =>
              "[" ++ group ++ "]" ++ replaceBracketGroups fuel' rest
          | None => String c (replaceBracketGroups fuel' s')
          end
      end
  end.

(** The conversion of a glob pattern, lib.ts:83-86. *)
Definition regexPattern (pattern : string) : string :=
  let s1 := Js.replaceChar "*" ".*" pattern in
  let s2 := Js.replaceChar "?" "." s1 in
  replaceBracketGroups (String.length s2) s2.

(** The callback of [ignores.some], lib.ts:81-90. *)
Definition matchesPattern (e : Engine) (packageName pattern : string)
  : Completion bool :=
  regex <- RegExp.construct e ("^" ++ regexPattern pattern ++ "$") ;;
  Normal (regex packageName).

(** [isIgnored], lib.ts:80-91. *)
Definition isIgnored (e : Engine) (packageName : string) (ignores : list string)
  : Completion bool :=
  some (matchesPattern e packageName) ignores.

(* ================================================================== *)
(** * lib.ts: the license expression parser *)

(** [parseLicenseExpression], lib.ts:93-100. *)
Definition parseLicenseExpression (licenseExpression : string) : list string :=
  filter (fun license => Nat.ltb 0 (String.length license))
         (map (fun license => Js.trim license)
              (Separator.split licenseExpression)).

(* ================================================================== *)
(** * lib.ts: the policy evaluator *)

(** The result of [isLicenseAllowed]: [{ allowed: boolean; reason?: string }]. *)
Record LicenseCheck : Type := {
  checkAllowed : bool;
  checkReason : option string
}.

(** [lowerLicense.includes(x.toLowerCase())], the test of lib.ts:118 and
    lib.ts:130 for a candidate [license] and a list entry [x]. *)
Definition lowerIncludes (license x : string) : bool :=
  Js.includes (Js.toLowerCase license) (Js.toLowerCase x).

(** The loop of lib.ts:116-124: the first candidate that includes a
    disallowed entry, if there is one. *)
Fixpoint firstDisallowed (licenses disallowed : list string) : option string :=
  match licenses with
  | [] => None
  | license :: rest =>
      if existsb (fun d => lowerIncludes license d) disallowed
      then Some license
      else firstDisallowed rest disallowed
  end.

(** The body of [isLicenseAllowed] behind the parse, lib.ts:116-141, on the
    candidate list [licenses]. *)
Definition evaluateLicenses (licenses allowed disallowed : list string)
  : LicenseCheck :=
  match firstDisallowed licenses disallowed with
  | Some license =>
      {| checkAllowed := false;
         checkReason := Some ("License '" ++ license ++ "' is not allowed") |}
  | None =>
      if Nat.ltb 0 (List.length allowed) then
        let hasAllowedLicense :=
          existsb (fun license =>
                     existsb (fun a => lowerIncludes license a) allowed)
                  licenses in
        if negb hasAllowedLicense then
          {| checkAllowed := false;
             checkReason :=
               Some ("None of the licenses '" ++ Js.join ", " licenses
                     ++ "' are in the allowed list") |}
        else {| checkAllowed := true; checkReason := None |}
      else {| checkAllowed := true; checkReason := None |}
  end.

(** [isLicenseAllowed], lib.ts:102-142. *)
Definition isLicenseAllowed (license : string) (allowed disallowed : list string)
  : LicenseCheck :=
  evaluateLicenses (parseLicenseExpression license) allowed disallowed.

(* ================================================================== *)
(** * lib.ts: the aggregator *)

(** What a run of [checkLicenseCompliance] has produced so far: the array
    [violations], the lines written by [console.warn], and the license
    strings handed to [isLicenseAllowed], each in order of occurrence. *)
Record Run : Type := {
  violations : list LicenseViolation;
  warnings : list string;
  evaluated : list string
}.

Definition emptyRun : Run :=
  {| violations := []; warnings := []; evaluated := [] |}.

(** A [string | undefined] in a condition: [undefined] and the empty string
    are falsy. *)
Definition truthy (r : option string) : bool :=
  match r with
  | Some (String _ _) => true
  | _ => false
  end.

Definition reasonText (r : option string) : string :=
  match r with
  | Some s => s
  | None => ""
  end.

(** One iteration of the loop of lib.ts:152-175. *)
Definition checkPackage (e : Engine) (allowed disallowed ignores : list string)
           (pkg : PackageInfo) (run : Run) : Completion Run :=
  ignored <- isIgnored e (name pkg) ignores ;;
  if ignored then Normal run
  else if (license pkg =? "UNKNOWN") then
    Normal {| violations := violations run;
              warnings := warnings run
                          ++ [name pkg ++ ": No license information found"];
              evaluated := evaluated run |}
  else
    let licenseCheck := isLicenseAllowed (license pkg) allowed disallowed in
    let run' := {| violations := violations run;
                   warnings := warnings run;
                   evaluated := evaluated run ++ [license pkg] |} in
    if negb (checkAllowed licenseCheck) && truthy (checkReason licenseCheck)
    then
      Normal {| violations :=
                  violations run'
                  ++ [ {| package := name pkg;
                          violationLicense := license pkg;
                          reason := reasonText (checkReason licenseCheck) |} ];
                warnings := warnings run';
                evaluated := evaluated run' |}
    else Normal run'.

(** The loop [for (const pkg of packages)]. *)
Fixpoint forPackages (e : Engine) (allowed disallowed ignores : list string)
         (packages : list PackageInfo) (run : Run) : Completion Run :=
  match packages with
  | [] => Normal run
  | pkg :: rest =>
      run' <- checkPackage e allowed disallowed ignores pkg run ;;
      forPackages e allowed disallowed ignores rest run'
  end.

(** The destructuring of lib.ts:148: a missing field stands for the empty
    array. *)
Definition orEmpty (field : option (list string)) : list string :=
  match field with
  | Some xs => xs
  | None => []
  end.

(** A whole call of [checkLicenseCompliance], lib.ts:144-178, with its
    console output and its calls of the evaluator. *)
Definition checkLicenseComplianceRun (e : Engine) (packages : list PackageInfo)
           (options : LicenseComplianceOptions) : Completion Run :=
  forPackages e (orEmpty (allowed options)) (orEmpty (disallowed options))
              (orEmpty (ignores options)) packages emptyRun.

(** [checkLicenseCompliance]: the value returned. *)
Definition checkLicenseCompliance (e : Engine) (packages : list PackageInfo)
           (options : LicenseComplianceOptions)
  : Completion (list LicenseViolation) :=
  run <- checkLicenseComplianceRun e packages options ;;
  Normal (violations run).

(** ** The check on the records of the scanner *)

(** The record of the scanner with the string [l] for its license. *)
Definition withLicense (pkg : ScannedPackage) (l : string) : PackageInfo :=
  {| name := name pkg; version := version pkg; license := l; path := path pkg |}.

(** [licenseExpression.split(...)], lib.ts:95, on a value that is no
    string: the read of the property throws on [null] and [undefined]; on
    the other values the property is missing or, a member of an object that
    [JSON.parse] returned, no function, and the call throws. *)
Definition splitFault (licenseExpression : JsValue) : JsError :=
  match licenseExpression with
  | JUndefined | JNull => TypeError (ReadOf licenseExpression "split")
  | _ => TypeError (CallOf "split")
  end.

(** One iteration of the loop on a record as the scanner builds it.  With a
    license that is a string the record is what the interface declares.
    Otherwise, once the name is found not to be ignored, the comparison
    [pkg.license === "UNKNOWN"] is false and the parser of
    [isLicenseAllowed] throws. *)
Definition checkScannedPackage (e : Engine)
           (allowed disallowed ignores : list string)
           (pkg : ScannedPackage) (run : Run) : Completion Run :=
  match license pkg with
  | JString l => checkPackage e allowed disallowed ignores (withLicense pkg l) run
  | _ =>
      ignored <- isIgnored e (name pkg) ignores ;;
      if ignored then Normal run else Throw (splitFault (license pkg))
  end.

Fixpoint forScanned (e : Engine) (allowed disallowed ignores : list string)
         (packages : list ScannedPackage) (run : Run) : Completion Run :=
  match packages with
  | [] => Normal run
  | pkg :: rest =>
      run' <- checkScannedPackage e allowed disallowed ignores pkg run ;;
      forScanned e allowed disallowed ignores rest run'
  end.

(** [checkLicenseCompliance] as the plugin calls it, on the result of
    [scanPackages]. *)
Definition checkScanned (e : Engine) (packages : list ScannedPackage)
           (options : LicenseComplianceOptions)
  : Completion (list LicenseViolation) :=
  run <- forScanned e (orEmpty (allowed options)) (orEmpty (disallowed options))
                    (orEmpty (ignores options)) packages emptyRun ;;
  Normal (violations run).

(** The records of the scanner whose license is a string, as records of the
    declared type. *)
Fixpoint typedRecords (packages : list ScannedPackage) : list PackageInfo :=
  match packages with
  | [] => []
  | pkg :: rest =>
      match license pkg with
      | JString l => withLicense pkg l :: typedRecords rest
      | _ => typedRecords rest
      end
  end.

(** A record of the declared type, as the scanner would have built it. *)
Definition scannedOf (pkg : PackageInfo) : ScannedPackage :=
  {| name := name pkg; version := version pkg;
     license := JString (license pkg); path := path pkg |}.

Definition pkgOf (n l : string) : PackageInfo :=
  {| name := n; version := "1.0.0"; license := l; path := "" |}.

Definition policy (a d i : list string) : LicenseComplianceOptions :=
  {| allowed := Some a; disallowed := Some d; ignores := Some i |}.

(* ================================================================== *)
(** * The specification's vocabulary *)

(** White space, separators and trimming are written out here on their
    own, without the functions of the embedding; the theorems join the
    two. *)

(** White space, code unit by code unit: TAB, LF, VT, FF, CR, SP and NBSP. *)
Definition isWhite (c : ascii) : bool :=
  existsb (Ascii.eqb c) ["009"; "010"; "011"; "012"; "013"; " "; "160"]%char.

(** A string of white space only (the empty string included). *)
Fixpoint blank (s : string) : bool :=
  match s with
  | "" => true
  | String c s' => isWhite c && blank s'
  end.

(** A string that is empty or starts with a code unit that is not white
    space. *)
Definition startsBlack (s : string) : Prop :=
  match s with
  | "" => True
  | String c _ => isWhite c = false
  end.

(** A string that is empty or ends with a code unit that is not white
    space. *)
Definition endsBlack (s : string) : Prop :=
  forall front c, s = front ++ String c "" -> isWhite c = false.

(** [t] is [s] without the white space at its two ends. *)
Definition TrimOf (s t : string) : Prop :=
  exists w1 w2,
    s = w1 ++ t ++ w2
    /\ blank w1 = true /\ blank w2 = true
    /\ startsBlack t /\ endsBlack t.

(** An occurrence of the token OR, in any casing, surrounded by white space
    on both sides (specification, section 4.2). *)
Definition IsSeparator (sep : string) : Prop :=
  exists w1 o r w2,
    sep = w1 ++ String o (String r w2)
    /\ w1 <> "" /\ blank w1 = true
    /\ w2 <> "" /\ blank w2 = true
    /\ (o = "O" \/ o = "o")%char /\ (r = "R" \/ r = "r")%char.

(** [x] occurs in [s] as a run of consecutive code units. *)
Definition Substring (x s : string) : Prop :=
  exists pre post, s = pre ++ x ++ post.

Definition SeparatorFree (s : string) : Prop :=
  forall sep, IsSeparator sep -> ~ Substring sep s.

(** The invariant of the split loop: no match of the expression starts
    inside [cur], the segment under construction, when [s] is what follows
    it. *)
Definition noMatchInside (cur s : string) : Prop :=
  forall pre post, cur = pre ++ post -> post <> "" ->
                   Separator.matchAt (post ++ s) = None.

(** The search for a match of the separator expression at any position. *)
Fixpoint containsSeparator (s : string) : bool :=
  match Separator.matchAt s with
  | Some _ => true
  | None =>
      match s with
      | "" => false
      | String _ s' => containsSeparator s'
      end
  end.

(** A separator starts at one of the code units of [seg] when [behind]
    follows it. *)
Definition SeparatorStartsIn (seg behind : string) : Prop :=
  exists front back sep tail,
    seg = front ++ back /\ back <> ""
    /\ IsSeparator sep /\ back ++ behind = sep ++ tail.

(** The segments of a string: the string is read from the left; the first
    separator that starts in it ends the first segment, takes all the white
    space behind its token, and what follows is read in the same way.  A
    string in which no separator starts is its own single segment. *)
Inductive SplitsInto : string -> list string -> Prop :=
| splits_whole : forall s,
    ~ SeparatorStartsIn s "" -> SplitsInto s [s]
| splits_first : forall seg sep rest segs,
    ~ SeparatorStartsIn seg (sep ++ rest) ->
    IsSeparator sep ->
    startsBlack rest ->
    SplitsInto rest segs ->
    SplitsInto (seg ++ sep ++ rest) (seg :: segs).

(** The candidates of a list of segments: each segment trimmed, the
    segments of white space only left out, the order kept. *)
Inductive Kept : list string -> list string -> Prop :=
| kept_nil : Kept [] []
| kept_drop : forall seg segs cs,
    blank seg = true -> Kept segs cs -> Kept (seg :: segs) cs
| kept_keep : forall seg t segs cs,
    TrimOf seg t -> t <> "" -> Kept segs cs -> Kept (seg :: segs) (t :: cs).

(** The sentence of section 4.2 read token by token: the string is cut at
    every token OR, in any casing, that has a white-space code unit
    directly before it and directly behind it.  [afterWhite] tells
    whether the code unit before [s] is white space, [cur] holds the
    segment read so far. *)
Fixpoint cutAtEveryToken (afterWhite : bool) (cur s : string) : list string :=
  match s with
  | "" => [cur]
  | String c s' =>
      match s' with
      | String r ((String w _) as behind) =>
          if afterWhite
             && ((c =? "O")%char || (c =? "o")%char)
             && ((r =? "R")%char || (r =? "r")%char)
             && isWhite w
          then cur :: cutAtEveryToken false "" behind
          else cutAtEveryToken (isWhite c) (cur ++ String c "") s'
      | _ => cutAtEveryToken (isWhite c) (cur ++ String c "") s'
      end
  end.

(** The parser as the sentence of section 4.2 words it: cut at every such
    token, trim each segment, drop the empty ones. *)
Definition specParse (raw : string) : list string :=
  filter (fun segment => Nat.ltb 0 (String.length segment))
         (map (fun segment => Js.trim segment)
              (cutAtEveryToken false "" raw)).

(** A first segment followed by separators and the segments behind them. *)
Fixpoint weave (first : string) (more : list (string * string)) : string :=
  match more with
  | [] => first
  | (sep, seg) :: more' => first ++ sep ++ weave seg more'
  end.

Definition nonEmpty (s : string) : bool := Nat.ltb 0 (String.length s).

(** The candidate identifiers of the specification's policy evaluator
    (section 4.3, step 1): the parsed identifiers, and the whole raw string
    when there are none. *)
Definition specCandidates (license : string) : list string :=
  match parseLicenseExpression license with
  | [] => [license]
  | candidates => candidates
  end.

(** The evaluator as section 4.3 words it: steps 2 to 4 on the candidates of
    step 1. *)
Definition specEvaluate (license : string) (allowed disallowed : list string)
  : LicenseCheck :=
  evaluateLicenses (specCandidates license) allowed disallowed.

(** Glob matching as section 4.1 words it: [*] stands for zero or more code
    units, [?] for exactly one, any other code unit for itself; the whole
    name has to match. *)
Fixpoint globStar (k : string -> bool) (name : string) : bool :=
  k name
  || match name with
     | String _ name' => globStar k name'
     | "" => false
     end.

Fixpoint globMatch (pattern : string) : string -> bool :=
  match pattern with
  | "" => Js.isEmpty
  | String c pattern' =>
      if (c =? "*")%char then globStar (globMatch pattern')
      else if (c =? "?")%char then
        fun name =>
          match name with
          | String _ name' => globMatch pattern' name'
          | "" => false
          end
      else
        fun name =>
          match name with
          | String d name' => (c =? d)%char && globMatch pattern' name'
          | "" => false
          end
  end.

Definition specIsIgnored (name : string) (patterns : list string) : bool :=
  existsb (fun pattern => globMatch pattern name) patterns.

(** The syntax characters of regular expressions other than the two glob
    wildcards. *)
Definition isRegExpSyntax (c : ascii) : bool :=
  (c =? "^")%char || (c =? "$")%char || (c =? "\")%char || (c =? ".")%char
  || (c =? "+")%char || (c =? "(")%char || (c =? ")")%char
  || (c =? "[")%char || (c =? "]")%char || (c =? "{")%char
  || (c =? "}")%char || (c =? "|")%char.

(** A glob pattern made of wildcards and of code units that mean themselves
    in a regular expression. *)
Fixpoint plainGlob (pattern : string) : bool :=
  match pattern with
  | "" => true
  | String c pattern' => negb (isRegExpSyntax c) && plainGlob pattern'
  end.

(** A name without line terminators. *)
Fixpoint singleLine (name : string) : bool :=
  match name with
  | "" => true
  | String c name' => negb (Js.isLineTerminator c) && singleLine name'
  end.

(** A pattern without wildcards. *)
Fixpoint noWildcard (pattern : string) : bool :=
  match pattern with
  | "" => true
  | String c pattern' =>
      negb (c =? "*")%char && negb (c =? "?")%char && noWildcard pattern'
  end.

(** The first two replacements of the conversion, lib.ts:84-85. *)
Definition wildcardsToRegExp (pattern : string) : string :=
  Js.replaceChar "?" "." (Js.replaceChar "*" ".*" pattern).

(** The terms a glob pattern stands for, wildcard by wildcard. *)
Definition globTerm (c : ascii) : RegExp.Term :=
  if (c =? "*")%char then RegExp.TAtom RegExp.ADot RegExp.QStar
  else if (c =? "?")%char then RegExp.TAtom RegExp.ADot RegExp.QOne
  else RegExp.TAtom (RegExp.AChar c) RegExp.QOne.

Fixpoint globTerms (pattern : string) : RegExp.Pattern :=
  match pattern with
  | "" => []
  | String c pattern' => globTerm c :: globTerms pattern'
  end.

(** An ignore pattern whose regular expression the constructor accepts. *)
Definition compiles (e : Engine) (pattern : string) : Prop :=
  exists regex,
    RegExp.construct e ("^" ++ regexPattern pattern ++ "$") = Normal regex.

(** [xs] is [ys] with some elements left out, the order kept. *)
Inductive Subsequence {A : Type} : list A -> list A -> Prop :=
| sub_nil : Subsequence [] []
| sub_skip : forall x xs ys, Subsequence xs ys -> Subsequence xs (x :: ys)
| sub_take : forall x xs ys, Subsequence xs ys -> Subsequence (x :: xs) (x :: ys).

(** A package on which the policy evaluator is run: its name is not
    ignored and its license is not the sentinel. *)
Definition reachesEvaluator (e : Engine) (ignores : list string)
           (pkg : PackageInfo) : Prop :=
  isIgnored e (name pkg) ignores = Normal false /\ license pkg <> "UNKNOWN".

Definition violationOf (allowed disallowed : list string) (pkg : PackageInfo)
  : LicenseViolation :=
  {| package := name pkg;
     violationLicense := license pkg;
     reason := reasonText
                 (checkReason (isLicenseAllowed (license pkg) allowed disallowed)) |}.

(** Some candidate includes, in lower case, some entry of the deny list. *)
Definition denied (licenses disallowed : list string) : bool :=
  existsb (fun license => existsb (fun d => lowerIncludes license d) disallowed)
          licenses.

(** Some candidate includes, in lower case, some entry of the allow list. *)
Definition permitted (licenses allowed : list string) : bool :=
  existsb (fun license => existsb (fun a => lowerIncludes license a) allowed)
          licenses.

(** The three ways a package leaves the loop body, as functions of the
    package: ignored, skipped for want of a license, handed to the
    evaluator. *)
Definition ignoredB (e : Engine) (ignores : list string) (pkg : PackageInfo)
  : bool :=
  match isIgnored e (name pkg) ignores with
  | Normal true => true
  | _ => false
  end.

Definition unknownB (e : Engine) (ignores : list string) (pkg : PackageInfo)
  : bool :=
  negb (ignoredB e ignores pkg) && (license pkg =? "UNKNOWN").

Definition evaluatedB (e : Engine) (ignores : list string) (pkg : PackageInfo)
  : bool :=
  negb (ignoredB e ignores pkg) && negb (license pkg =? "UNKNOWN").

Definition violatingB (e : Engine) (allowed disallowed ignores : list string)
           (pkg : PackageInfo) : bool :=
  evaluatedB e ignores pkg
  && negb (checkAllowed (isLicenseAllowed (license pkg) allowed disallowed)).

Definition warningOf (pkg : PackageInfo) : string :=
  name pkg ++ ": No license information found".

(** The run [run] extended by what the packages [packages] add to it. *)
Definition extendRun (e : Engine) (allowed disallowed ignores : list string)
           (packages : list PackageInfo) (run : Run) : Run :=
  {| violations :=
       (violations run
        ++ map (violationOf allowed disallowed)
               (filter (violatingB e allowed disallowed ignores) packages))%list;
     warnings :=
       (warnings run ++ map warningOf (filter (unknownB e ignores) packages))%list;
     evaluated :=
       (evaluated run ++ map license (filter (evaluatedB e ignores) packages))%list |}.

(** Every package of the list gets an answer from [isIgnored]. *)
Definition answered (e : Engine) (ignores : list string)
           (packages : list PackageInfo) : Prop :=
  Forall (fun pkg => exists b, isIgnored e (name pkg) ignores = Normal b) packages.

(** The field of an options object, a missing one standing for the empty
    array. *)
Definition given (field : option (list string)) : list string :=
  match field with
  | Some entries => entries
  | None => []
  end.

(* ================================================================== *)
(** * Further vocabulary *)

(** A string without white space. *)
Fixpoint noWhiteSpace (s : string) : bool :=
  match s with
  | "" => true
  | String c s' => negb (Js.isWhiteSpace c) && noWhiteSpace s'
  end.

(** A license identifier as the manifests spell it: not empty, no white
    space. *)
Definition isIdentifier (s : string) : bool := nonEmpty s && noWhiteSpace s.

(** What [join(" OR ")] puts behind the first element. *)
Fixpoint orTail (ts : list string) : string :=
  match ts with
  | [] => ""
  | t :: ts' => " OR " ++ t ++ orTail ts'
  end.

(** The verdict in closed form: no candidate denied, and some candidate
    permitted unless the allow list is empty. *)
Definition compliantB (licenses allowed disallowed : list string) : bool :=
  negb (denied licenses disallowed)
  && match allowed with
     | [] => true
     | _ :: _ => permitted licenses allowed
     end.

(** Every entry of [entries] includes, in lower case, some entry of
    [shorter]: whatever includes an entry of the first list includes one of
    the second. *)
Definition subsumes (shorter entries : list string) : bool :=
  forallb (fun x => existsb (fun y => lowerIncludes x y) shorter) entries.

(* ================================================================== *)
(** * The host of the scanner: paths, files, manifests *)

(** An exception as the code looks at it: whether it is an [Error], its
    [message], and the text [String(error)]. *)
Record Exception : Type := {
  isError : bool;
  errorMessage : string;
  errorText : string
}.

(** [new Error(message)] for a message that is not empty. *)
Definition newError (message : string) : Exception :=
  {| isError := true;
     errorMessage := message;
     errorText := "Error: " ++ message |}.

Inductive Result (A : Type) : Type :=
| Returned (a : A)
| Raised (e : Exception).

Arguments Returned {A} a.
Arguments Raised {A} e.

(** A parsed [package.json], seen through the fields the code reads.  The
    two license fields are the JSON values they are: what [extractLicense]
    makes of them goes into the check, where its type matters.  The version,
    which is stored and never looked at, and the dependency groups have the
    types the code takes them to have; a dependency group is given by its
    own keys in the order the host enumerates them. *)
Record PackageJson : Type := {
  manifestVersion : option string;
  manifestLicensing : Manifest;
  dependencies : option (list string);
  devDependencies : option (list string);
  optionalDependencies : option (list string);
  peerDependencies : option (list string)
}.

(** What the code asks of Node: [process.cwd()], [path.join],
    [path.dirname], [fs.existsSync], [JSON.parse(fs.readFileSync(p,
    "utf8"))] with the exception either call may raise, the constructor
    [RegExp], and the exception objects of the language's own errors.  The
    file system is taken not to change during a scan. *)
Record Host : Type := {
  processCwd : string;
  pathJoin : list string -> string;
  pathDirname : string -> string;
  fsExistsSync : string -> bool;
  readManifest : string -> Result PackageJson;
  regExp : Engine;
  thrown : JsError -> Exception
}.

(** ** Own keys of an object *)

Definition isDigit (c : ascii) : bool :=
  ((48 <=? N_of_ascii c) && (N_of_ascii c <=? 57))%N.

Fixpoint digitsValue (acc : N) (s : string) : option N :=
  match s with
  | "" => Some acc
  | String c s' =>
      if isDigit c then digitsValue (acc * 10 + (N_of_ascii c - 48))%N s'
      else None
  end.

(** An array index: the canonical decimal spelling of a number below
    2^32 - 1. *)
Definition arrayIndex (key : string) : option N :=
  match key with
  | "" => None
  | String c rest =>
      if (c =? "0")%char && negb (Js.isEmpty rest) then None
      else
        match digitsValue 0 key with
        | Some n => if (n <? 4294967295)%N then Some n else None
        | None => None
        end
  end.

Fixpoint insertIndex (n : N) (key : string) (sorted : list (N * string))
  : list (N * string) :=
  match sorted with
  | [] => [(n, key)]
  | (m, k) :: rest =>
      if (n <=? m)%N then (n, key) :: sorted
      else (m, k) :: insertIndex n key rest
  end.

Fixpoint indexKeys (keys : list string) : list (N * string) :=
  match keys with
  | [] => []
  | key :: rest =>
      match arrayIndex key with
      | Some n => insertIndex n key (indexKeys rest)
      | None => indexKeys rest
      end
  end.

Definition isNamedKey (key : string) : bool :=
  match arrayIndex key with
  | Some _ => false
  | None => true
  end.

(** [Object.keys(o)] for an object whose properties were created in the
    order [created]: the array indices in ascending order, then the other
    keys in order of creation. *)
Definition ownKeys (created : list string) : list string :=
  (map snd (indexKeys created) ++ filter isNamedKey created)%list.

(** [{...target, ...source}] on the keys: a key the target has keeps its
    place, a new key goes to the end; a missing source adds nothing. *)
Definition addKey (created : list string) (key : string) : list string :=
  if existsb (String.eqb key) created then created else (created ++ [key])%list.

Definition spread (created : list string) (source : option (list string))
  : list string :=
  fold_left addKey (orEmpty source) created.

(** The keys of [allDependencies], lib.ts:244-254. *)
Definition allDependencies (packageJson : PackageJson) : list string :=
  ownKeys
    (spread (spread (spread (spread [] (dependencies packageJson))
                            (devDependencies packageJson))
                    (optionalDependencies packageJson))
            (peerDependencies packageJson)).

(* ================================================================== *)
(** * lib.ts: the scanner *)

(** [resolvePackagePath], lib.ts:180-191. *)
Definition resolvePackagePath (h : Host) (packageName basePath : string)
  : Result string :=
  let candidates :=
    [ pathJoin h [basePath; "node_modules"; packageName];
      pathJoin h [processCwd h; "node_modules"; packageName] ] in
  match find (fsExistsSync h) candidates with
  | Some candidate => Returned candidate
  | None => Raised (newError ("Package " ++ packageName ++ " not found"))
  end.

Inductive Search : Type :=
| Found (candidate : string)
| NotFound
| Exhausted.

(** The loop of [findPackageJson], lib.ts:196-202; [fuel] bounds its
    iterations. *)
Fixpoint findPackageJsonFrom (h : Host) (fuel : nat) (currentPath : string)
  : Search :=
  match fuel with
  | O => Exhausted
  | S fuel' =>
      if (currentPath =? pathDirname h currentPath) then NotFound
      else
        let candidate := pathJoin h [currentPath; "package.json"] in
        if fsExistsSync h candidate then Found candidate
        else findPackageJsonFrom h fuel' (pathDirname h currentPath)
  end.

(** [findPackageJson()], lib.ts:193-203, with its default argument. *)
Definition findPackageJson (h : Host) (fuel : nat) : Search :=
  findPackageJsonFrom h fuel (processCwd h).

(** [packageJson.version || "unknown"]. *)
Definition versionOrUnknown (v : option string) : string :=
  match v with
  | Some (String c s) => String c s
  | _ => "unknown"
  end.

(** The [try] block of [scanDirectPackage], lib.ts:210-225: the record, or
    [null] with the warning written, or the exception raised. *)
Definition tryScan (h : Host) (packageName basePath : string)
  : Result (option ScannedPackage * list string) :=
  match resolvePackagePath h packageName basePath with
  | Raised e => Raised e
  | Returned packagePath =>
      let packageJsonPath := pathJoin h [packagePath; "package.json"] in
      if negb (fsExistsSync h packageJsonPath) then
        Returned (None, ["No package.json found for " ++ packageName])
      else
        match readManifest h packageJsonPath with
        | Raised e => Raised e
        | Returned packageJson =>
            match extractLicense (manifestLicensing packageJson) with
            | Throw e => Raised (thrown h e)
            | Normal l =>
                Returned
                  (Some {| name := packageName;
                           version :=
                             versionOrUnknown (manifestVersion packageJson);
                           license := l;
                           path := packagePath |},
                   [])
            end
        end
  end.

(** [error instanceof Error ? error.message : String(error)]. *)
Definition messageOf (e : Exception) : string :=
  if isError e then errorMessage e else errorText e.

(** [scanDirectPackage], lib.ts:205-237: what the promise resolves to, and
    the lines written by [console.warn]. *)
Definition scanDirectPackage (h : Host) (packageName basePath : string)
  : option ScannedPackage * list string :=
  match tryScan h packageName basePath with
  | Returned result => result
  | Raised error =>
      let msg := messageOf error in
      if Js.includes msg "not found" then
        (None,
         ["Skipping " ++ packageName
          ++ ": not found (possibly a peer dependency)"])
      else (None, ["Failed to scan " ++ packageName ++ ": " ++ msg])
  end.

Inductive Scan : Type :=
| Scanned (console : list string) (outcome : Result (list ScannedPackage))
| ScanExhausted.

(** [results.filter(Boolean)]. *)
Fixpoint present {A} (results : list (option A)) : list A :=
  match results with
  | [] => []
  | Some a :: rest => a :: present rest
  | None :: rest => present rest
  end.

(** [scanPackages], lib.ts:239-256.  The test [!packageJsonPath] holds for
    [null] and for the empty string.  The body of [scanDirectPackage] holds
    no [await]: the calls run one after the other, in the order of the
    keys. *)
Definition scanPackages (h : Host) (fuel : nat) : Scan :=
  match findPackageJson h fuel with
  | Exhausted => ScanExhausted
  | NotFound => Scanned [] (Raised (newError "package.json not found"))
  | Found packageJsonPath =>
      if Js.isEmpty packageJsonPath then
        Scanned [] (Raised (newError "package.json not found"))
      else
        match readManifest h packageJsonPath with
        | Raised e => Scanned [] (Raised e)
        | Returned packageJson =>
            let basePath := pathDirname h packageJsonPath in
            let results :=
              map (fun pkg => scanDirectPackage h pkg basePath)
                  (allDependencies packageJson) in
            Scanned (List.concat (map snd results))
                    (Returned (present (map fst results)))
        end
  end.

(** The directory [k] levels above [start]. *)
Fixpoint ancestor (h : Host) (k : nat) (start : string) : string :=
  match k with
  | O => start
  | S k' => ancestor h k' (pathDirname h start)
  end.

(** The manifest the search looks for at level [k]. *)
Definition manifestAt (h : Host) (k : nat) (start : string) : string :=
  pathJoin h [ancestor h k start; "package.json"].

(** A directory that is its own parent. *)
Definition isRoot (h : Host) (dir : string) : Prop :=
  pathDirname h dir = dir.



(* ================================================================== *)
(** * index.ts: the plugin *)

Inductive Hook : Type :=
| HookReturns (errors : option (list string))
| HookExhausted.

(** The text of the error for a non-empty list of violations,
    index.ts:24-30. *)
Definition violationsText (vs : list LicenseViolation) : string :=
  "License violations found: "
  ++ Js.join ", "
       (map (fun v => package v ++ " (" ++ violationLicense v ++ ")") vs).

(** The callback given to [build.onStart], index.ts:18-43: [None] for a
    return without value, [Some errors] for [{ errors }], each error by its
    text (its location is always [null]). *)
Definition onStart (h : Host) (fuel : nat)
           (options : option LicenseComplianceOptions) : Hook :=
  match scanPackages h fuel with
  | ScanExhausted => HookExhausted
  | Scanned _ (Raised e) =>
      HookReturns (Some ["License check failed: " ++ errorText e])
  | Scanned _ (Returned packages) =>
      let options' :=
        match options with
        | Some o => o
        | None => {| allowed := None; disallowed := None; ignores := None |}
        end in
      match checkScanned (regExp h) packages options' with
      | Throw e =>
          HookReturns (Some ["License check failed: " ++ errorText (thrown h e)])
      | Normal [] => HookReturns None
      | Normal (v :: vs) => HookReturns (Some [violationsText (v :: vs)])
      end
  end.

(** ** An engine and a host for examples *)

(** An engine that knows the sources of a table and refuses every other
    source outside the fragment. *)
Definition tableEngine (table : list (string * (string -> bool))) : Engine :=
  {| outside :=
       fun source =>
         match find (fun entry => fst entry =? source) table with
         | Some entry => Normal (snd entry)
         | None => Throw (SyntaxError source)
         end |}.

Fixpoint afterPrefix (prefix input : string) : option string :=
  match prefix, input with
  | "", _ => Some input
  | String a prefix', String b input' =>
      if (a =? b)%char then afterPrefix prefix' input' else None
  | String _ _, "" => None
  end.

(** The test function of [^@scope/[a-z].*$]: the prefix, one of the letters
    a to z, then code units that are no line terminators. *)
Definition scopedLower (input : string) : bool :=
  match afterPrefix "@scope/" input with
  | Some (String c rest) =>
      ((97 <=? N_of_ascii c) && (N_of_ascii c <=? 122))%N && singleLine rest
  | _ => false
  end.

(** The test function of [^a[bc]$]. *)
Definition aThenBorC (input : string) : bool :=
  (input =? "ab") || (input =? "ac").

Definition sampleEngine : Engine :=
  tableEngine [ ("^@scope/[a-z].*$", scopedLower); ("^a[bc]$", aThenBorC) ].

(** An error object of the class [className] with the message [message]. *)
Definition errorOf (className message : string) : Exception :=
  {| isError := true;
     errorMessage := message;
     errorText := className ++ ": " ++ message |}.

(** The exceptions with the messages V8 gives them; the reason behind a
    refused source is given where the fragment knows it. *)
Definition sampleThrown (e : JsError) : Exception :=
  match e with
  | SyntaxError source =>
      errorOf "SyntaxError"
              ("Invalid regular expression: /" ++ source ++ "/"
               ++ match RegExp.parse source with
                  | RegExp.NothingToRepeat => ": Nothing to repeat"
                  | _ => ""
                  end)
  | TypeError (ReadOf JNull key) =>
      errorOf "TypeError"
              ("Cannot read properties of null (reading '" ++ key ++ "')")
  | TypeError (ReadOf _ key) =>
      errorOf "TypeError"
              ("Cannot read properties of undefined (reading '" ++ key ++ "')")
  | TypeError (CallOf method) =>
      errorOf "TypeError" ("licenseExpression." ++ method ++ " is not a function")
  | TypeError ToPrimitive =>
      errorOf "TypeError" "Cannot convert object to primitive value"
  end.

(** The part of a path before its last slash. *)
Fixpoint beforeLastSlash (s : string) : option string :=
  match s with
  | "" => None
  | String c s' =>
      match beforeLastSlash s' with
      | Some p => Some (String c p)
      | None => if (c =? "/")%char then Some "" else None
      end
  end.

Definition sampleDirname (s : string) : string :=
  match beforeLastSlash s with
  | Some "" => "/"
  | Some p => p
  | None => "."
  end.

Fixpoint lookupManifest (files : list (string * PackageJson)) (p : string)
  : Result PackageJson :=
  match files with
  | [] => Raised (newError ("ENOENT: no such file or directory, open '"
                            ++ p ++ "'"))
  | (q, m) :: rest => if (p =? q) then Returned m else lookupManifest rest p
  end.

(** A host over a list of manifest files, with paths joined by slashes; a
    directory exists when a file lies below it. *)
Definition sampleHost (cwd : string) (files : list (string * PackageJson))
  : Host :=
  {| processCwd := cwd;
     pathJoin := String.concat "/";
     pathDirname := sampleDirname;
     fsExistsSync :=
       fun p => existsb (fun f => (p =? fst f)
                                  || Js.startsWith (fst f) (p ++ "/")) files;
     readManifest := lookupManifest files;
     regExp := sampleEngine;
     thrown := sampleThrown |}.

Definition manifestOf (v : option string) (l : JsValue)
           (deps dev : option (list string)) : PackageJson :=
  {| manifestVersion := v;
     manifestLicensing :=
       {| manifestLicense := l; manifestLicenses := JUndefined |};
     dependencies := deps;
     devDependencies := dev;
     optionalDependencies := None;
     peerDependencies := None |}.

(** A project in /home/app/src with its manifest one directory up and four
    declared dependencies, one of them not installed. *)
Definition sampleProject : Host :=
  sampleHost "/home/app/src"
    [ ("/home/app/package.json",
       manifestOf (Some "1.0.0") (JString "MIT")
                  (Some ["lodash"; "10"; "left-pad"; "2"])
                  (Some ["lodash"; "typescript"]));
      ("/home/app/node_modules/lodash/package.json",
       manifestOf (Some "4.17.21") (JString "MIT") None None);
      ("/home/app/node_modules/2/package.json",
       manifestOf None JUndefined None None);
      ("/home/app/node_modules/10/package.json",
       manifestOf (Some "0.1.0") (JString "GPL-3.0-only") None None);
      ("/home/app/node_modules/typescript/package.json",
       manifestOf (Some "5.0.0") (JString "Apache-2.0") None None) ].


(** A manifest whose license is given by the [licenses] array alone. *)
Definition legacyManifest (licenses : JsValue) : PackageJson :=
  {| manifestVersion := None;
     manifestLicensing :=
       {| manifestLicense := JUndefined; manifestLicenses := licenses |};
     dependencies := None;
     devDependencies := None;
     optionalDependencies := None;
     peerDependencies := None |}.

(** A project whose dependencies come from all four groups, with manifests
    in the legacy form that the scanner cannot read a license from, or reads
    an odd one from. *)
Definition oddProject : Host :=
  sampleHost "/srv/odd"
    [ ("/srv/odd/package.json",
       {| manifestVersion := None;
          manifestLicensing :=
            {| manifestLicense := JUndefined; manifestLicenses := JUndefined |};
          dependencies := Some ["nulls"];
          devDependencies := Some ["arrays"];
          optionalDependencies := Some ["objects"; "nulls"];
          peerDependencies := Some ["7"] |});
      ("/srv/odd/node_modules/nulls/package.json",
       legacyManifest (JArray [JObject [("type", JString "MIT")]; JNull]));
      ("/srv/odd/node_modules/arrays/package.json",
       legacyManifest
         (JArray [ JObject [("type", JArray [JString "MIT"; JNull; JNumber "2"])];
                   JObject [("type", JObject [])];
                   JObject [("type", JBool true); ("type", JString "ISC")];
                   JString "BSD" ]));
      ("/srv/odd/node_modules/objects/package.json",
       legacyManifest
         (JArray [JObject [("type", JObject [("toString", JString "MIT")])]]));
      ("/srv/odd/node_modules/7/package.json",
       manifestOf (Some "") (JNumber "1") None None) ].

(* ================================================================== *)
(** * Strings: basic facts *)

(** A fact about every code unit, by cases on its eight bits. *)
Ltac each_code_unit c :=
  destruct c as [b0 b1 b2 b3 b4 b5 b6 b7];
  destruct b0, b1, b2, b3, b4, b5, b6, b7; reflexivity.

Section StringFacts.

Lemma append_nil_r (s : string) : s ++ "" = s.
Proof. induction s as [|c s IH]; simpl; [reflexivity | now rewrite IH]. Qed.

Lemma append_assoc (a b c : string) : (a ++ b) ++ c = a ++ (b ++ c).
Proof. induction a as [|x a IH]; simpl; [reflexivity | now rewrite IH]. Qed.

Lemma length_append (a b : string) :
  String.length (a ++ b) = String.length a + String.length b.
Proof. induction a as [|x a IH]; simpl; [reflexivity | now rewrite IH]. Qed.

Lemma append_snoc_cons (a : string) (c : ascii) (b : string) :
  (a ++ String c "") ++ b = a ++ String c b.
Proof. now rewrite append_assoc. Qed.

Lemma append_eq_nil (a b : string) : a ++ b = "" -> a = "" /\ b = "".
Proof. destruct a; simpl; [auto | discriminate]. Qed.

Lemma isEmpty_true (s : string) : Js.isEmpty s = true <-> s = "".
Proof. destruct s; simpl; split; congruence. Qed.

Lemma nonEmpty_true (s : string) : nonEmpty s = true <-> s <> "".
Proof.
  unfold nonEmpty, Nat.ltb. destruct s; simpl; split; congruence.
Qed.

(** A non-empty tail of [cur ++ String c ""] is a tail of [cur] followed by
    [c]. *)
Lemma snoc_split (cur : string) (c : ascii) (pre post : string) :
  cur ++ String c "" = pre ++ post -> post <> "" ->
  exists post0, post = post0 ++ String c "" /\ cur = pre ++ post0.
Proof.
  revert pre. induction cur as [|x cur IH]; intros pre E Hne.
  - destruct pre as [|y pre]; simpl in E.
    + exists "". split; [now rewrite <- E | reflexivity].
    + injection E as _ E. destruct pre; simpl in E; [|discriminate].
      now subst post.
  - destruct pre as [|y pre]; simpl in E.
    + exists (String x cur). split; [now rewrite <- E | reflexivity].
    + injection E as -> E. destruct (IH _ E Hne) as (post0 & -> & ->).
      now exists post0.
Qed.

Lemma Substring_refl (s : string) : Substring s s.
Proof. exists "", "". simpl. now rewrite append_nil_r. Qed.

Lemma Substring_trans (a b c : string) :
  Substring a b -> Substring b c -> Substring a c.
Proof.
  intros (p1 & q1 & ->) (p2 & q2 & ->).
  exists (p2 ++ p1), (q1 ++ q2). now rewrite !append_assoc.
Qed.

Lemma Substring_weave_first (first : string) (more : list (string * string)) :
  Substring first (weave first more).
Proof.
  destruct more as [|[sep seg] more]; simpl.
  - apply Substring_refl.
  - exists "", (sep ++ weave seg more). reflexivity.
Qed.

Lemma Substring_weave (first : string) (more : list (string * string)) (x : string) :
  In x (first :: map snd more) -> Substring x (weave first more).
Proof.
  revert first. induction more as [|[sep seg] more IH]; intros first [<-|H].
  - apply Substring_refl.
  - destruct H.
  - apply Substring_weave_first.
  - simpl. apply Substring_trans with (weave seg more).
    + apply IH, H.
    + exists (first ++ sep), "". now rewrite append_nil_r, append_assoc.
Qed.

End StringFacts.

(* ================================================================== *)
(** * White space and trimming *)

Section Trimming.

(** The white space of the vocabulary is the white space of the host. *)
Lemma isWhiteSpace_isWhite (c : ascii) : Js.isWhiteSpace c = isWhite c.
Proof. each_code_unit c. Qed.

Lemma blank_append (a b : string) : blank (a ++ b) = blank a && blank b.
Proof.
  induction a as [|c a IH]; simpl; [reflexivity|].
  now rewrite IH, andb_assoc.
Qed.

Lemma trimStart_blank (s : string) : blank s = true -> Js.trimStart s = "".
Proof.
  induction s as [|c s IH]; simpl; [reflexivity|].
  intros [Hc Hs]%andb_prop. rewrite isWhiteSpace_isWhite, Hc. auto.
Qed.

Lemma trim_blank (s : string) : blank s = true -> Js.trim s = "".
Proof. intros H. unfold Js.trim. now rewrite trimStart_blank. Qed.

Lemma trimEnd_idempotent (s : string) : Js.trimEnd (Js.trimEnd s) = Js.trimEnd s.
Proof.
  induction s as [|c s IH]; simpl; [reflexivity|].
  destruct (Js.isWhiteSpace c && Js.isEmpty (Js.trimEnd s)) eqn:E;
    [reflexivity|].
  simpl. now rewrite IH, E.
Qed.

Lemma trimStart_startsBlack (s : string) : startsBlack (Js.trimStart s).
Proof.
  induction s as [|c s IH]; simpl; [exact I|].
  destruct (Js.isWhiteSpace c) eqn:E; [exact IH|].
  simpl. now rewrite <- isWhiteSpace_isWhite.
Qed.

Lemma trimStart_fixed (s : string) : startsBlack s -> Js.trimStart s = s.
Proof.
  destruct s as [|c s]; simpl; [reflexivity|].
  rewrite isWhiteSpace_isWhite. now intros ->.
Qed.

Lemma trimEnd_startsBlack (s : string) : startsBlack s -> startsBlack (Js.trimEnd s).
Proof.
  destruct s as [|c s]; simpl; [auto|].
  intros H. rewrite isWhiteSpace_isWhite, H. simpl. exact H.
Qed.

Lemma trim_idempotent (s : string) : Js.trim (Js.trim s) = Js.trim s.
Proof.
  unfold Js.trim.
  rewrite (trimStart_fixed (Js.trimEnd _)).
  - apply trimEnd_idempotent.
  - apply trimEnd_startsBlack, trimStart_startsBlack.
Qed.

Lemma trimStart_suffix (s : string) :
  exists pre, s = pre ++ Js.trimStart s /\ blank pre = true.
Proof.
  induction s as [|c s (pre & IH & Hb)]; simpl; [now exists ""|].
  destruct (Js.isWhiteSpace c) eqn:E.
  - exists (String c pre). simpl.
    rewrite <- isWhiteSpace_isWhite, E, Hb. now rewrite <- IH.
  - now exists "".
Qed.

Lemma trimEnd_empty (s : string) : Js.trimEnd s = "" -> blank s = true.
Proof.
  induction s as [|c s IH]; simpl; [reflexivity|].
  destruct (Js.isWhiteSpace c && Js.isEmpty (Js.trimEnd s)) eqn:E;
    [|discriminate].
  intros _. apply andb_prop in E as [Hc He].
  rewrite <- isWhiteSpace_isWhite, Hc. apply IH. now apply isEmpty_true.
Qed.

Lemma trimEnd_prefix (s : string) :
  exists post, s = Js.trimEnd s ++ post /\ blank post = true.
Proof.
  induction s as [|c s (post & IH & Hb)]; simpl; [now exists ""|].
  destruct (Js.isWhiteSpace c && Js.isEmpty (Js.trimEnd s)) eqn:E.
  - exists (String c s). split; [reflexivity|].
    apply andb_prop in E as [Hc He]. simpl.
    rewrite <- isWhiteSpace_isWhite, Hc. apply trimEnd_empty.
    now apply isEmpty_true.
  - exists post. simpl. now rewrite <- IH.
Qed.

Lemma trim_Substring (s : string) : Substring (Js.trim s) s.
Proof.
  unfold Js.trim. destruct (trimStart_suffix s) as (pre & E & _).
  destruct (trimEnd_prefix (Js.trimStart s)) as (post & E' & _).
  exists pre, post. now rewrite <- E', <- E.
Qed.

Lemma endsBlack_nil : endsBlack "".
Proof. intros front c E. destruct front; discriminate. Qed.

Lemma endsBlack_tail (c : ascii) (s : string) :
  endsBlack (String c s) -> endsBlack s.
Proof. intros H front x ->. now apply (H (String c front) x). Qed.

Lemma endsBlack_cons (c : ascii) (s : string) :
  (s = "" -> isWhite c = false) -> endsBlack s -> endsBlack (String c s).
Proof.
  intros Hc Hs front x E. destruct front as [|y front]; simpl in E.
  - injection E as -> ->. now apply Hc.
  - injection E as _ E. now apply (Hs front x).
Qed.

Lemma trimEnd_endsBlack (s : string) : endsBlack (Js.trimEnd s).
Proof.
  induction s as [|c s IH]; simpl; [apply endsBlack_nil|].
  destruct (Js.isWhiteSpace c && Js.isEmpty (Js.trimEnd s)) eqn:E;
    [apply endsBlack_nil|].
  apply endsBlack_cons; [|exact IH].
  intros He. rewrite He, isWhiteSpace_isWhite in E. simpl in E.
  now rewrite andb_true_r in E.
Qed.

Lemma trimEnd_blank (s : string) : blank s = true -> Js.trimEnd s = "".
Proof.
  induction s as [|c s IH]; simpl; [reflexivity|].
  intros [Hc Hs]%andb_prop. now rewrite (IH Hs), isWhiteSpace_isWhite, Hc.
Qed.

Lemma trimEnd_append_blank (t w : string) :
  endsBlack t -> blank w = true -> Js.trimEnd (t ++ w) = t.
Proof.
  intros Ht Hw. induction t as [|c t IH]; simpl.
  - now apply trimEnd_blank.
  - rewrite (IH (endsBlack_tail _ _ Ht)).
    destruct t as [|d t]; simpl.
    + rewrite isWhiteSpace_isWhite, (Ht "" c eq_refl). reflexivity.
    + now rewrite andb_false_r.
Qed.

Lemma trimStart_append_blank (w s : string) :
  blank w = true -> Js.trimStart (w ++ s) = Js.trimStart s.
Proof.
  induction w as [|c w IH]; simpl; [reflexivity|].
  intros [Hc Hw]%andb_prop. rewrite isWhiteSpace_isWhite, Hc. auto.
Qed.

(** Trimming, as the host does it, takes the white space off both ends and
    nothing else. *)
Lemma trim_TrimOf (s : string) : TrimOf s (Js.trim s).
Proof.
  unfold Js.trim. destruct (trimStart_suffix s) as (pre & E & Hpre).
  destruct (trimEnd_prefix (Js.trimStart s)) as (post & E' & Hpost).
  exists pre, post. repeat split; trivial.
  - now rewrite <- E', <- E.
  - apply trimEnd_startsBlack, trimStart_startsBlack.
  - apply trimEnd_endsBlack.
Qed.

Lemma TrimOf_trim (s t : string) : TrimOf s t -> Js.trim s = t.
Proof.
  intros (w1 & w2 & -> & H1 & H2 & Hs & He). unfold Js.trim.
  rewrite (trimStart_append_blank _ _ H1).
  destruct t as [|c t].
  - simpl. now rewrite (trimStart_blank _ H2).
  - rewrite (trimStart_fixed (String c t ++ w2)) by exact Hs.
    now apply trimEnd_append_blank.
Qed.

Lemma trim_empty (s : string) : Js.trim s = "" -> blank s = true.
Proof.
  unfold Js.trim. intros H%trimEnd_empty.
  destruct (trimStart_suffix s) as (pre & E & Hpre).
  rewrite E, blank_append, Hpre. exact H.
Qed.

(** The candidates of a list of segments are what trimming and filtering
    leave of it. *)
Lemma Kept_filter (segments : list string) :
  Kept segments (filter nonEmpty (map Js.trim segments)).
Proof.
  induction segments as [|seg segments IH]; simpl; [constructor|].
  destruct (nonEmpty (Js.trim seg)) eqn:E.
  - apply kept_keep; [apply trim_TrimOf | now apply nonEmpty_true | exact IH].
  - apply kept_drop; [|exact IH]. apply trim_empty.
    destruct (Js.trim seg); [reflexivity | discriminate].
Qed.

Lemma Kept_unique (segments candidates : list string) :
  Kept segments candidates ->
  filter nonEmpty (map Js.trim segments) = candidates.
Proof.
  induction 1 as [|seg segs cs Hb _ IH|seg t segs cs Ht Hne _ IH]; simpl.
  - reflexivity.
  - now rewrite (trim_blank _ Hb).
  - rewrite (TrimOf_trim _ _ Ht).
    apply nonEmpty_true in Hne. now rewrite Hne, IH.
Qed.

End Trimming.

(* ================================================================== *)
(** * The separator matcher and the split loop *)

Section Splitting.

Lemma isO_spec (c : ascii) :
  Separator.isO c = true <-> (c = "O" \/ c = "o")%char.
Proof.
  unfold Separator.isO. rewrite orb_true_iff, !Ascii.eqb_eq. reflexivity.
Qed.

Lemma isR_spec (c : ascii) :
  Separator.isR c = true <-> (c = "R" \/ c = "r")%char.
Proof.
  unfold Separator.isR. rewrite orb_true_iff, !Ascii.eqb_eq. reflexivity.
Qed.

Lemma letter_o_not_white (c : ascii) :
  (c = "O" \/ c = "o")%char -> isWhite c = false.
Proof. intros [->| ->]; reflexivity. Qed.

(** What [\s+] followed by [k] accepts: a non-empty run of white space and
    then something [k] accepts. *)
Lemma whiteSpacePlus_sound {A} (k : string -> option A) (s : string) (r : A) :
  Separator.whiteSpacePlus k s = Some r ->
  exists w t, s = w ++ t /\ w <> "" /\ blank w = true /\ k t = Some r.
Proof.
  induction s as [|c s IH]; simpl; [discriminate|].
  rewrite isWhiteSpace_isWhite.
  destruct (isWhite c) eqn:Hc; [|discriminate].
  destruct (Separator.whiteSpacePlus k s) as [r'|] eqn:E.
  - intros [= <-]. destruct (IH eq_refl) as (w & t & -> & _ & Hw & Hk).
    exists (String c w), t. simpl. rewrite Hc, Hw. repeat split; congruence.
  - intros Hk. exists (String c ""), s. simpl. rewrite Hc.
    repeat split; congruence.
Qed.

Lemma whiteSpacePlus_complete {A} (k : string -> option A) (w t : string) :
  w <> "" -> blank w = true -> k t <> None ->
  Separator.whiteSpacePlus k (w ++ t) <> None.
Proof.
  induction w as [|c w IH]; [congruence|].
  intros _ [Hc Hw]%andb_prop Hk. simpl. rewrite isWhiteSpace_isWhite, Hc.
  destruct w as [|d w].
  - simpl. destruct (Separator.whiteSpacePlus k t); congruence.
  - specialize (IH ltac:(discriminate) Hw Hk).
    destruct (Separator.whiteSpacePlus k (String d w ++ t)); congruence.
Qed.

Lemma whiteSpacePlus_black {A} (k : string -> option A) (t : string) :
  startsBlack t -> Separator.whiteSpacePlus k t = None.
Proof.
  destruct t as [|c t]; simpl; [reflexivity|].
  rewrite isWhiteSpace_isWhite. now intros ->.
Qed.

(** The run is greedy: when the white space ends where [k] succeeds, that is
    the match. *)
Lemma whiteSpacePlus_exact {A} (k : string -> option A) (w t : string) (r : A) :
  w <> "" -> blank w = true -> startsBlack t -> k t = Some r ->
  Separator.whiteSpacePlus k (w ++ t) = Some r.
Proof.
  intros Hne Hw Ht Hk. induction w as [|c w IH]; [congruence|].
  apply andb_prop in Hw as [Hc Hw]. simpl. rewrite isWhiteSpace_isWhite, Hc.
  destruct w as [|d w].
  - simpl. now rewrite (whiteSpacePlus_black k t Ht).
  - now rewrite (IH ltac:(discriminate) Hw).
Qed.

Lemma whiteSpacePlus_rest (s rest : string) :
  Separator.whiteSpacePlus (fun s3 => Some s3) s = Some rest -> startsBlack rest.
Proof.
  induction s as [|c s IH]; simpl; [discriminate|].
  destruct (Js.isWhiteSpace c); [|discriminate].
  destruct (Separator.whiteSpacePlus (fun s3 => Some s3) s) as [r|] eqn:E.
  - intros [= <-]. now apply IH.
  - intros [= <-]. destruct s as [|d s]; [exact I|].
    simpl in E |- *. rewrite isWhiteSpace_isWhite in E.
    destruct (isWhite d); [|reflexivity].
    destruct (Separator.whiteSpacePlus (fun s3 => Some s3) s); discriminate.
Qed.

(** A match of the expression is an occurrence of the separator at the
    front of the input, with all the white space behind the token. *)
Lemma matchAt_sound (s rest : string) :
  Separator.matchAt s = Some rest ->
  exists sep, IsSeparator sep /\ s = sep ++ rest /\ startsBlack rest.
Proof.
  unfold Separator.matchAt. intros H.
  apply whiteSpacePlus_sound in H as (w1 & t & -> & Hne1 & Hb1 & Hk).
  destruct t as [|o [|r t]]; try discriminate.
  destruct (Separator.isO o && Separator.isR r) eqn:Hor; [|discriminate].
  apply andb_prop in Hor as [Ho%isO_spec Hr%isR_spec].
  pose proof (whiteSpacePlus_rest _ _ Hk) as Hrest.
  apply whiteSpacePlus_sound in Hk as (w2 & t' & -> & Hne2 & Hb2 & [= ->]).
  exists (w1 ++ String o (String r w2)). split; [|split].
  - now exists w1, o, r, w2.
  - rewrite append_assoc. reflexivity.
  - exact Hrest.
Qed.

(** Wherever the separator occurs at the front, the expression matches. *)
Lemma matchAt_complete (sep post : string) :
  IsSeparator sep -> Separator.matchAt (sep ++ post) <> None.
Proof.
  intros (w1 & o & r & w2 & -> & Hne1 & Hb1 & Hne2 & Hb2 & Ho & Hr).
  unfold Separator.matchAt. rewrite append_assoc.
  apply whiteSpacePlus_complete; trivial.
  apply isO_spec in Ho. apply isR_spec in Hr.
  simpl. rewrite Ho, Hr. simpl.
  apply whiteSpacePlus_complete; trivial. discriminate.
Qed.

(** A separator followed by no further white space is the match, whole. *)
Lemma matchAt_exact (sep rest : string) :
  IsSeparator sep -> startsBlack rest ->
  Separator.matchAt (sep ++ rest) = Some rest.
Proof.
  intros (w1 & o & r & w2 & -> & Hne1 & Hb1 & Hne2 & Hb2 & Ho & Hr) Hrest.
  unfold Separator.matchAt. rewrite append_assoc.
  apply whiteSpacePlus_exact; trivial.
  - simpl. now apply letter_o_not_white.
  - apply isO_spec in Ho. apply isR_spec in Hr.
    simpl. rewrite Ho, Hr. simpl.
    now apply whiteSpacePlus_exact.
Qed.

Lemma IsSeparator_nonempty (sep : string) : IsSeparator sep -> sep <> "".
Proof.
  intros (w1 & o & r & w2 & -> & Hne1 & _). destruct w1; [congruence|discriminate].
Qed.

Lemma matchAt_shorter (s rest : string) :
  Separator.matchAt s = Some rest -> String.length rest < String.length s.
Proof.
  intros (sep & Hsep & -> & _)%matchAt_sound. rewrite length_append.
  apply IsSeparator_nonempty in Hsep. destruct sep; [congruence|simpl; lia].
Qed.

Lemma noMatchInside_nil (s : string) : noMatchInside "" s.
Proof. intros pre post E. symmetry in E. now apply append_eq_nil in E as [_ ->]. Qed.

Lemma noMatchInside_snoc (cur : string) (c : ascii) (s : string) :
  noMatchInside cur (String c s) ->
  Separator.matchAt (String c s) = None ->
  noMatchInside (cur ++ String c "") s.
Proof.
  intros Hin Hno pre post E Hne.
  destruct (snoc_split _ _ _ _ E Hne) as (post0 & -> & ->).
  rewrite append_snoc_cons. destruct post0 as [|x post0].
  - exact Hno.
  - apply (Hin pre (String x post0)); [reflexivity | discriminate].
Qed.

Lemma noMatchInside_tail (c : ascii) (cur s : string) :
  noMatchInside (String c cur) s -> noMatchInside cur s.
Proof. intros H pre post -> Hne. now apply (H (String c pre) post). Qed.

Lemma noMatchInside_free (cur s : string) :
  noMatchInside cur s -> SeparatorFree cur.
Proof.
  intros Hin sep Hsep (pre & post & E).
  apply (matchAt_complete sep (post ++ s) Hsep).
  rewrite <- append_assoc. apply (Hin pre (sep ++ post) E).
  apply IsSeparator_nonempty in Hsep. destruct sep; [congruence|discriminate].
Qed.

(** The invariant of the loop in the words of the vocabulary. *)
Lemma noMatchInside_starts (cur s : string) :
  noMatchInside cur s <-> ~ SeparatorStartsIn cur s.
Proof.
  split.
  - intros Hin (front & back & sep & tail & E & Hne & Hsep & Es).
    apply (matchAt_complete sep tail Hsep). rewrite <- Es.
    now apply (Hin front back).
  - intros Hno pre post E Hne.
    destruct (Separator.matchAt (post ++ s)) as [rest|] eqn:Em; [|reflexivity].
    exfalso. apply Hno.
    destruct (matchAt_sound _ _ Em) as (sep & Hsep & Es & _).
    now exists pre, post, sep, rest.
Qed.

(** The segments the loop returns, with the separators it skipped, make up
    the input; every skipped piece is a separator and no segment holds one. *)
Lemma splitLoop_spec (fuel : nat) :
  forall cur s,
    String.length s < fuel -> noMatchInside cur s ->
    exists first more,
      Separator.splitLoop fuel cur s = first :: map snd more
      /\ cur ++ s = weave first more
      /\ Forall IsSeparator (map fst more)
      /\ Forall SeparatorFree (first :: map snd more).
Proof.
  induction fuel as [|fuel IH]; intros cur s Hlen Hin; [lia|].
  destruct s as [|c s]; simpl Separator.splitLoop.
  - exists cur, []. simpl. rewrite append_nil_r.
    repeat split; auto. constructor; [|constructor].
    now apply noMatchInside_free with "".
  - destruct (Separator.matchAt (String c s)) as [rest|] eqn:E.
    + pose proof (matchAt_shorter _ _ E) as Hshort.
      destruct (matchAt_sound _ _ E) as (sep & Hsep & Es & _).
      destruct (IH "" rest) as (first & more & E1 & E2 & F1 & F2).
      { simpl in *. lia. }
      { apply noMatchInside_nil. }
      exists cur, ((sep, first) :: more). simpl. rewrite E1. simpl in E2.
      rewrite <- E2, Es. repeat split; auto.
      constructor; [|exact F2]. now apply noMatchInside_free with (String c s).
    + destruct (IH (cur ++ String c "") s) as (first & more & E1 & E2 & F1 & F2).
      { simpl in Hlen. lia. }
      { now apply noMatchInside_snoc. }
      exists first, more. rewrite append_snoc_cons in E2. auto.
Qed.

Lemma split_spec (s : string) :
  exists first more,
    Separator.split s = first :: map snd more
    /\ s = weave first more
    /\ Forall IsSeparator (map fst more)
    /\ Forall SeparatorFree (first :: map snd more).
Proof.
  unfold Separator.split.
  destruct (splitLoop_spec (S (String.length s)) "" s) as (f & m & H);
    [lia | apply noMatchInside_nil | now exists f, m].
Qed.

(** A string without separator is one segment. *)
Lemma split_SeparatorFree (s : string) :
  SeparatorFree s -> Separator.split s = [s].
Proof.
  intros Hfree. destruct (split_spec s) as (first & more & E & Es & F & _).
  destruct more as [|[sep seg] more].
  - simpl in *. now subst.
  - exfalso. simpl in F, Es. apply Forall_inv in F.
    apply (Hfree sep F). exists first, (weave seg more). exact Es.
Qed.

Lemma blank_SeparatorFree (s : string) : blank s = true -> SeparatorFree s.
Proof.
  intros Hb sep (w1 & o & r & w2 & -> & _ & _ & _ & _ & Ho & _) (pre & post & ->).
  rewrite !blank_append in Hb. simpl in Hb.
  rewrite (letter_o_not_white o Ho) in Hb. simpl in Hb.
  rewrite !andb_false_r in Hb. discriminate.
Qed.

Lemma splitLoop_match (fuel : nat) (cur s rest : string) :
  s <> "" -> Separator.matchAt s = Some rest ->
  Separator.splitLoop (S fuel) cur s = cur :: Separator.splitLoop fuel "" rest.
Proof.
  intros Hne Hm. destruct s as [|c s]; [congruence|].
  cbn [Separator.splitLoop]. now rewrite Hm.
Qed.

(** The loop walks over a run in which no match starts one code unit at a
    time. *)
Lemma splitLoop_skip (seg : string) :
  forall fuel cur behind,
    noMatchInside seg behind ->
    Separator.splitLoop (String.length seg + fuel) cur (seg ++ behind)
    = Separator.splitLoop fuel (cur ++ seg) behind.
Proof.
  induction seg as [|c seg IH]; intros fuel cur behind Hin.
  - simpl. now rewrite append_nil_r.
  - change (String.length (String c seg) + fuel)
      with (S (String.length seg + fuel)).
    change (String c seg ++ behind) with (String c (seg ++ behind)).
    pose proof (Hin "" (String c seg) eq_refl ltac:(discriminate)) as Hm.
    change (String c seg ++ behind) with (String c (seg ++ behind)) in Hm.
    cbn [Separator.splitLoop]. rewrite Hm.
    rewrite (IH fuel _ behind (noMatchInside_tail _ _ _ Hin)).
    now rewrite append_snoc_cons.
Qed.

(** The loop returns the segments of the vocabulary, whatever fuel it has
    beyond the length of the input. *)
Lemma SplitsInto_splitLoop (s : string) (segments : list string) :
  SplitsInto s segments ->
  forall fuel, String.length s < fuel ->
               Separator.splitLoop fuel "" s = segments.
Proof.
  induction 1 as [s Hno|seg sep rest segs Hno Hsep Hrest _ IH]; intros fuel Hlen.
  - apply noMatchInside_starts in Hno.
    pose proof (splitLoop_skip s (fuel - String.length s) "" "" Hno) as E.
    rewrite append_nil_r in E.
    replace (String.length s + (fuel - String.length s)) with fuel in E by lia.
    rewrite E.
    destruct (fuel - String.length s) as [|k] eqn:Ek; [lia|]. reflexivity.
  - apply noMatchInside_starts in Hno.
    rewrite !length_append in Hlen.
    pose proof (IsSeparator_nonempty _ Hsep) as Hne.
    assert (Hpos : 0 < String.length sep)
      by (destruct sep; [congruence | simpl; lia]).
    pose proof (splitLoop_skip seg (S (fuel - String.length seg - 1)) ""
                               (sep ++ rest) Hno) as E.
    replace (String.length seg + S (fuel - String.length seg - 1))
      with fuel in E by lia.
    rewrite E. simpl append at 1.
    rewrite (splitLoop_match _ seg (sep ++ rest) rest).
    + f_equal. apply IH. lia.
    + destruct sep; [congruence | discriminate].
    + now apply matchAt_exact.
Qed.

Lemma splitLoop_SplitsInto (fuel : nat) :
  forall cur s,
    String.length s < fuel -> noMatchInside cur s ->
    SplitsInto (cur ++ s) (Separator.splitLoop fuel cur s).
Proof.
  induction fuel as [|fuel IH]; intros cur s Hlen Hin; [lia|].
  destruct s as [|c s]; simpl Separator.splitLoop.
  - rewrite append_nil_r. apply splits_whole. now apply noMatchInside_starts.
  - destruct (Separator.matchAt (String c s)) as [rest|] eqn:E.
    + pose proof (matchAt_shorter _ _ E) as Hshort.
      destruct (matchAt_sound _ _ E) as (sep & Hsep & Es & Hrest).
      rewrite Es in Hin |- *. apply splits_first; trivial.
      * now apply noMatchInside_starts.
      * apply (IH "" rest); [simpl in *; lia | apply noMatchInside_nil].
    + rewrite <- append_snoc_cons. apply IH; [simpl in Hlen; lia|].
      now apply noMatchInside_snoc.
Qed.

(** The segments of a string are what [split] returns, and nothing else
    is. *)
Lemma split_SplitsInto (s : string) (segments : list string) :
  SplitsInto s segments <-> Separator.split s = segments.
Proof.
  unfold Separator.split. split.
  - intros H. apply (SplitsInto_splitLoop s segments H). lia.
  - intros <-. apply (splitLoop_SplitsInto _ "" s); [lia|].
    apply noMatchInside_nil.
Qed.

End Splitting.

(* ================================================================== *)
(** * The license expression parser *)

Section Parser.

Lemma containsSeparator_cons (c : ascii) (s : string) :
  containsSeparator (String c s)
  = match Separator.matchAt (String c s) with
    | Some _ => true
    | None => containsSeparator s
    end.
Proof. reflexivity. Qed.

Lemma containsSeparator_append (pre s : string) :
  containsSeparator (pre ++ s) = false -> containsSeparator s = false.
Proof.
  induction pre as [|c pre IH]; [auto|].
  change (String c pre ++ s) with (String c (pre ++ s)).
  rewrite containsSeparator_cons.
  destruct (Separator.matchAt (String c (pre ++ s))); [discriminate | exact IH].
Qed.

Lemma containsSeparator_here (s : string) :
  containsSeparator s = false -> Separator.matchAt s = None.
Proof.
  destruct s as [|c s]; [reflexivity|].
  rewrite containsSeparator_cons.
  destruct (Separator.matchAt (String c s)); [discriminate | reflexivity].
Qed.

Lemma containsSeparator_free (s : string) :
  containsSeparator s = false <-> SeparatorFree s.
Proof.
  split.
  - intros H sep Hsep (pre & post & ->).
    apply containsSeparator_append in H.
    apply (matchAt_complete sep post Hsep).
    now apply containsSeparator_here.
  - induction s as [|c s IH]; intros Hfree.
    + reflexivity.
    + rewrite containsSeparator_cons.
      destruct (Separator.matchAt (String c s)) as [rest|] eqn:E.
      * exfalso. destruct (matchAt_sound _ _ E) as (sep & Hsep & Es & _).
        apply (Hfree sep Hsep). exists "", rest. exact Es.
      * apply IH. intros sep Hsep (pre & post & ->).
        apply (Hfree sep Hsep). now exists (String c pre), post.
Qed.

Lemma parseLicenseExpression_split (raw : string) :
  parseLicenseExpression raw
  = filter nonEmpty (map Js.trim (Separator.split raw)).
Proof. reflexivity. Qed.

Lemma parse_candidate (raw c : string) :
  In c (parseLicenseExpression raw) ->
  c <> "" /\ Js.trim c = c /\ Substring c raw.
Proof.
  rewrite parseLicenseExpression_split.
  intros [Hin Hne]%filter_In. apply in_map_iff in Hin as (seg & <- & Hseg).
  split; [now apply nonEmpty_true|]. split; [apply trim_idempotent|].
  apply Substring_trans with seg; [apply trim_Substring|].
  destruct (split_spec raw) as (first & more & E & -> & _).
  rewrite E in Hseg. now apply Substring_weave.
Qed.

Lemma parse_SeparatorFree (raw : string) :
  SeparatorFree raw ->
  parseLicenseExpression raw
  = if Js.isEmpty (Js.trim raw) then [] else [Js.trim raw].
Proof.
  intros H. rewrite parseLicenseExpression_split, (split_SeparatorFree raw H).
  simpl. destruct (Js.trim raw); reflexivity.
Qed.

Lemma parse_blank_nil (raw : string) :
  blank raw = true -> parseLicenseExpression raw = [].
Proof.
  intros H. rewrite (parse_SeparatorFree raw (blank_SeparatorFree raw H)).
  now rewrite (trim_blank raw H).
Qed.

(** The parser returns the candidates of the segments of its input, and
    nothing else is that. *)
Lemma parse_segments (raw : string) (candidates : list string) :
  parseLicenseExpression raw = candidates
  <-> exists segments, SplitsInto raw segments /\ Kept segments candidates.
Proof.
  rewrite parseLicenseExpression_split. split.
  - intros <-. exists (Separator.split raw). split.
    + now apply split_SplitsInto.
    + apply Kept_filter.
  - intros (segments & Hs%split_SplitsInto & Hk%Kept_unique). now rewrite Hs.
Qed.

(** C4, as it is worded, fails on an expression with two tokens OR that
    only white space separates.  Read token by token, each of the two has
    white space on both sides and the expression has the segments a and b.
    The code matches the first token with all the white space around it,
    so the second one has none before it where the search goes on: it is
    no separator and stays in the second identifier. *)
Lemma token_behind_a_separator_is_kept :
  specParse "a OR  OR b" = ["a"; "b"]
  /\ parseLicenseExpression "a OR  OR b" = ["a"; "OR b"]
  /\ specParse "MIT OR Apache-2.0" = ["MIT"; "Apache-2.0"]
  /\ specParse "  " = []
  /\ specParse "ISC" = ["ISC"].
Proof. repeat split; reflexivity. Qed.

(** C4, amended -- the parser's contract.  The input is read from the left.
    A separator is a run of white space, the letters O or o and R or r, and
    a run of white space; the first separator that starts in the input ends
    the first segment and takes all the white space behind its token, and
    what follows is read in the same way (so a token OR that only white
    space separates from the token before it is no separator).  The result
    is the segments in order, each without the white space at its two ends,
    those of white space only left out; this determines the result.  Every
    identifier returned is non-empty, has no white space at its ends, and is
    a run of code units of the input as they stand (casing and punctuation
    untouched).  An input that holds no separator yields its trimmed self
    alone, or nothing when that is empty; an empty or white-space-only
    input yields nothing; and the examples hold. *)
Theorem parseLicenseExpression_contract (raw : string) :
  (forall candidates,
      parseLicenseExpression raw = candidates
      <-> exists segments,
            SplitsInto raw segments /\ Kept segments candidates)
  /\ (forall c, In c (parseLicenseExpression raw) ->
                c <> "" /\ startsBlack c /\ endsBlack c /\ Substring c raw)
  /\ ((forall sep, IsSeparator sep -> ~ Substring sep raw) ->
      forall t, TrimOf raw t ->
                parseLicenseExpression raw
                = match t with "" => [] | _ => [t] end)
  /\ (blank raw = true -> parseLicenseExpression raw = [])
  /\ parseLicenseExpression "MIT OR Apache-2.0" = ["MIT"; "Apache-2.0"]
  /\ parseLicenseExpression "  " = []
  /\ parseLicenseExpression "ISC" = ["ISC"]
  /\ parseLicenseExpression "a OR  OR b" = ["a"; "OR b"].
Proof.
  split; [|split; [|split; [|split]]].
  - intros candidates. apply parse_segments.
  - intros c Hc. destruct (parse_candidate raw c Hc) as (Hne & Ht & Hsub).
    destruct (trim_TrimOf c) as (w1 & w2 & _ & _ & _ & Hs & He).
    rewrite Ht in Hs, He. auto.
  - intros Hfree t Ht. rewrite (parse_SeparatorFree raw Hfree).
    rewrite (TrimOf_trim raw t Ht). destruct t; reflexivity.
  - apply parse_blank_nil.
  - repeat split; reflexivity.
Qed.

Lemma parseLicenseExpression_contract_witness :
  (exists segments,
      SplitsInto "mit  or Apache-2.0 Or OR x" segments
      /\ Kept segments ["mit"; "Apache-2.0"; "OR x"])
  /\ (SplitsInto "a OR  OR b" ["a"; "OR b"]
      /\ Kept ["a"; "OR b"] ["a"; "OR b"]
      /\ parseLicenseExpression "a OR  OR b" = ["a"; "OR b"])
  /\ (In "Apache-2.0" (parseLicenseExpression "mit or Apache-2.0")
      /\ Substring "Apache-2.0" "mit or Apache-2.0")
  /\ (SeparatorFree "GPL-3.0-only WITH Classpath-exception-2.0 "
      /\ TrimOf "GPL-3.0-only WITH Classpath-exception-2.0 "
                "GPL-3.0-only WITH Classpath-exception-2.0"
      /\ parseLicenseExpression "GPL-3.0-only WITH Classpath-exception-2.0 "
         = ["GPL-3.0-only WITH Classpath-exception-2.0"])
  /\ (blank (String "009" " ") = true
      /\ parseLicenseExpression (String "009" " ") = []).
Proof.
  split; [|split; [|split; [|split]]].
  - exact (proj1 (proj1 (parseLicenseExpression_contract
                           "mit  or Apache-2.0 Or OR x") _) eq_refl).
  - assert (Hs : SplitsInto "a OR  OR b" ["a"; "OR b"])
      by (now apply split_SplitsInto).
    assert (Hk : Kept ["a"; "OR b"] ["a"; "OR b"])
      by exact (Kept_filter ["a"; "OR b"]).
    split; [exact Hs|]. split; [exact Hk|].
    apply (proj1 (parseLicenseExpression_contract "a OR  OR b")).
    now exists ["a"; "OR b"].
  - assert (H : In "Apache-2.0" (parseLicenseExpression "mit or Apache-2.0"))
      by (vm_compute; auto).
    split; [exact H|].
    exact (proj2 (proj2 (proj2 (proj1 (proj2
             (parseLicenseExpression_contract "mit or Apache-2.0")) _ H)))).
  - assert (Hf : SeparatorFree "GPL-3.0-only WITH Classpath-exception-2.0 ")
      by (now apply containsSeparator_free).
    assert (Ht : TrimOf "GPL-3.0-only WITH Classpath-exception-2.0 "
                        "GPL-3.0-only WITH Classpath-exception-2.0")
      by exact (trim_TrimOf "GPL-3.0-only WITH Classpath-exception-2.0 ").
    split; [exact Hf|]. split; [exact Ht|].
    exact (proj1 (proj2 (proj2
             (parseLicenseExpression_contract
                "GPL-3.0-only WITH Classpath-exception-2.0 "))) Hf _ Ht).
  - split; [reflexivity|].
    exact (proj1 (proj2 (proj2 (proj2
             (parseLicenseExpression_contract (String "009" " ")))))
             eq_refl).
Defined.

End Parser.

(* ================================================================== *)
(** * The policy evaluator *)

Section Evaluator.

Lemma firstDisallowed_Some (licenses disallowed : list string) (c : string) :
  firstDisallowed licenses disallowed = Some c ->
  exists before after,
    licenses = (before ++ c :: after)%list
    /\ existsb (fun d => lowerIncludes c d) disallowed = true
    /\ denied before disallowed = false.
Proof.
  induction licenses as [|l licenses IH]; simpl; [discriminate|].
  destruct (existsb (fun d => lowerIncludes l d) disallowed) eqn:E.
  - intros [= ->]. now exists [], licenses.
  - intros H. destruct (IH H) as (before & after & -> & Hc & Hb).
    exists (l :: before), after. simpl. now rewrite E.
Qed.

Lemma firstDisallowed_denied (licenses disallowed : list string) :
  denied licenses disallowed = true <->
  exists c, firstDisallowed licenses disallowed = Some c.
Proof.
  induction licenses as [|l licenses IH]; simpl.
  - split; [discriminate | now intros [c H]].
  - destruct (existsb (fun d => lowerIncludes l d) disallowed); simpl.
    + split; [now exists l | reflexivity].
    + exact IH.
Qed.

Lemma firstDisallowed_None (licenses disallowed : list string) :
  denied licenses disallowed = false <->
  firstDisallowed licenses disallowed = None.
Proof.
  split.
  - intros Hd. destruct (firstDisallowed licenses disallowed) as [c|] eqn:E;
      [|reflexivity].
    assert (denied licenses disallowed = true)
      by (apply firstDisallowed_denied; eauto).
    congruence.
  - intros E. destruct (denied licenses disallowed) eqn:Hd; [|reflexivity].
    apply firstDisallowed_denied in Hd as [c Hc]. congruence.
Qed.

(** The verdict on a denied candidate list does not look at the allow
    list. *)
Lemma evaluateLicenses_denied (licenses allowed disallowed : list string) (c : string) :
  firstDisallowed licenses disallowed = Some c ->
  evaluateLicenses licenses allowed disallowed
  = {| checkAllowed := false;
       checkReason := Some ("License '" ++ c ++ "' is not allowed") |}.
Proof. unfold evaluateLicenses. now intros ->. Qed.

(** The verdict on a candidate list that is not denied. *)
Lemma evaluateLicenses_not_denied (licenses allowed disallowed : list string) :
  denied licenses disallowed = false ->
  evaluateLicenses licenses allowed disallowed
  = match allowed with
    | [] => {| checkAllowed := true; checkReason := None |}
    | _ :: _ =>
        if permitted licenses allowed
        then {| checkAllowed := true; checkReason := None |}
        else {| checkAllowed := false;
                checkReason :=
                  Some ("None of the licenses '" ++ Js.join ", " licenses
                        ++ "' are in the allowed list") |}
    end.
Proof.
  intros H%firstDisallowed_None. unfold evaluateLicenses. rewrite H.
  destruct allowed as [|a allowed]; [reflexivity|].
  change (Nat.ltb 0 (List.length (a :: allowed))) with true. cbv iota.
  fold (permitted licenses (a :: allowed)).
  now destruct (permitted licenses (a :: allowed)).
Qed.

(** A verdict of non-compliance always carries a reason that counts as
    true in the guard of lib.ts:168. *)
Lemma evaluateLicenses_reason (licenses allowed disallowed : list string) :
  checkAllowed (evaluateLicenses licenses allowed disallowed) = false ->
  truthy (checkReason (evaluateLicenses licenses allowed disallowed)) = true.
Proof.
  unfold evaluateLicenses.
  destruct (firstDisallowed licenses disallowed); [reflexivity|].
  destruct (Nat.ltb 0 (List.length allowed)); [|discriminate].
  destruct (negb _); [reflexivity | discriminate].
Qed.

End Evaluator.

(* ================================================================== *)
(** * The aggregator *)

Section Aggregator.

Variable e : Engine.

Variables allowed' disallowed' ignores' : list string.

Lemma extendRun_nil (run : Run) :
  extendRun e allowed' disallowed' ignores' [] run = run.
Proof.
  destruct run. unfold extendRun. simpl. now rewrite !app_nil_r.
Qed.

Lemma extendRun_cons (pkg : PackageInfo) (rest : list PackageInfo) (run : Run) :
  extendRun e allowed' disallowed' ignores' (pkg :: rest) run
  = extendRun e allowed' disallowed' ignores' rest
      (extendRun e allowed' disallowed' ignores' [pkg] run).
Proof.
  unfold extendRun. simpl.
  destruct (violatingB e allowed' disallowed' ignores' pkg),
    (unknownB e ignores' pkg), (evaluatedB e ignores' pkg);
    simpl; rewrite ?app_nil_r, <- ?app_assoc; reflexivity.
Qed.

(** One iteration, when [isIgnored] answers. *)
Lemma checkPackage_answered (pkg : PackageInfo) (run : Run) (b : bool) :
  isIgnored e (name pkg) ignores' = Normal b ->
  checkPackage e allowed' disallowed' ignores' pkg run
  = Normal (extendRun e allowed' disallowed' ignores' [pkg] run).
Proof.
  intros Hb. unfold checkPackage, extendRun. simpl filter.
  unfold violatingB, unknownB, evaluatedB, ignoredB. rewrite Hb. simpl.
  destruct b; simpl.
  - destruct run. simpl. now rewrite !app_nil_r.
  - destruct (license pkg =? "UNKNOWN"); simpl.
    + now rewrite !app_nil_r.
    + unfold isLicenseAllowed.
      destruct (checkAllowed (evaluateLicenses _ allowed' disallowed')) eqn:E;
        simpl.
      * now rewrite !app_nil_r.
      * unfold isLicenseAllowed in *. rewrite (evaluateLicenses_reason _ _ _ E).
        now rewrite !app_nil_r.
Qed.

(** The loop returns exactly when [isIgnored] answers on every package,
    and then with the run extended by all of them. *)
Lemma forPackages_answered (packages : list PackageInfo) :
  forall run,
    answered e ignores' packages ->
    forPackages e allowed' disallowed' ignores' packages run
    = Normal (extendRun e allowed' disallowed' ignores' packages run).
Proof.
  induction packages as [|pkg rest IH]; intros run H; simpl.
  - now rewrite extendRun_nil.
  - inversion H as [|? ? [b Hb] Hrest]; subst.
    rewrite (checkPackage_answered pkg run b Hb). simpl.
    rewrite (IH _ Hrest). now rewrite <- extendRun_cons.
Qed.

Lemma forPackages_Normal (packages : list PackageInfo) :
  forall run run',
    forPackages e allowed' disallowed' ignores' packages run = Normal run' ->
    answered e ignores' packages.
Proof.
  induction packages as [|pkg rest IH]; intros run run' H; [constructor|].
  simpl in H.
  destruct (isIgnored e (name pkg) ignores') as [b|] eqn:Hb.
  - rewrite (checkPackage_answered pkg run b Hb) in H. simpl in H.
    constructor; [now exists b | now apply IH in H].
  - unfold checkPackage in H. rewrite Hb in H. discriminate.
Qed.

End Aggregator.

(* ================================================================== *)
(** * The ignore gate and the shape of a run *)

Section Runs.

Variable e : Engine.

Lemma matchesPattern_compiles (packageName pattern : string) :
  compiles e pattern <-> exists b, matchesPattern e packageName pattern = Normal b.
Proof.
  unfold compiles, matchesPattern. split.
  - intros [regex ->]. simpl. eauto.
  - intros [b H]. destruct (RegExp.construct e _) as [regex|]; try discriminate.
    eauto.
Qed.

Lemma isIgnored_compiles (packageName : string) (ignores : list string) :
  Forall (compiles e) ignores -> exists b, isIgnored e packageName ignores = Normal b.
Proof.
  unfold isIgnored. induction 1 as [|pattern rest Hc _ IH]; simpl; [eauto|].
  apply (matchesPattern_compiles packageName) in Hc as [b ->]. simpl.
  destruct b; eauto.
Qed.

(** [isIgnored] says no only after every pattern has been compiled. *)
Lemma isIgnored_false_compiles (packageName : string) (ignores : list string) :
  isIgnored e packageName ignores = Normal false -> Forall (compiles e) ignores.
Proof.
  unfold isIgnored. induction ignores as [|pattern rest IH]; simpl; [constructor|].
  destruct (matchesPattern e packageName pattern) as [b|] eqn:E;
    simpl; try discriminate.
  destruct b; [discriminate|]. intros H. constructor; [|now apply IH].
  apply (matchesPattern_compiles packageName). eauto.
Qed.

(** When [isIgnored] answers, it says yes exactly when some pattern
    matches. *)
Lemma isIgnored_true (packageName : string) (ignores : list string) (b : bool) :
  isIgnored e packageName ignores = Normal b ->
  (b = true <->
   exists pattern, In pattern ignores
                   /\ matchesPattern e packageName pattern = Normal true).
Proof.
  unfold isIgnored. revert b.
  induction ignores as [|pattern rest IH]; simpl; intros b.
  - intros [= <-]. split; [discriminate | now intros (? & [] & _)].
  - destruct (matchesPattern e packageName pattern) as [m|] eqn:E;
      simpl; try discriminate.
    destruct m.
    + intros [= <-]. split; [eauto | reflexivity].
    + intros H. rewrite (IH b H). split.
      * intros (q & Hq & Hm). eauto.
      * intros (q & [<-|Hq] & Hm); [congruence | eauto].
Qed.

Lemma answered_compiles (ignores : list string) (packages : list PackageInfo) :
  Forall (compiles e) ignores -> answered e ignores packages.
Proof.
  intros H. apply Forall_forall. intros pkg _. now apply isIgnored_compiles.
Qed.

Lemma forPackages_append (a d i : list string) (xs ys : list PackageInfo) :
  forall run,
    forPackages e a d i (xs ++ ys) run
    = (run' <- forPackages e a d i xs run ;; forPackages e a d i ys run').
Proof.
  induction xs as [|x xs IH]; intros run; simpl; [reflexivity|].
  destruct (checkPackage e a d i x run); simpl; auto.
Qed.

(** A run that returns is the empty run extended by all the packages. *)
Lemma run_shape (packages : list PackageInfo) (options : LicenseComplianceOptions)
      (run : Run) :
  checkLicenseComplianceRun e packages options = Normal run ->
  answered e (orEmpty (ignores options)) packages
  /\ run = extendRun e (orEmpty (allowed options)) (orEmpty (disallowed options))
                     (orEmpty (ignores options)) packages emptyRun.
Proof.
  unfold checkLicenseComplianceRun. intros H.
  pose proof (forPackages_Normal _ _ _ _ _ _ _ H) as Ha. split; [exact Ha|].
  rewrite (forPackages_answered _ _ _ _ _ _ Ha) in H. congruence.
Qed.

Lemma run_returns (packages : list PackageInfo) (options : LicenseComplianceOptions) :
  answered e (orEmpty (ignores options)) packages ->
  checkLicenseComplianceRun e packages options
  = Normal (extendRun e (orEmpty (allowed options)) (orEmpty (disallowed options))
                      (orEmpty (ignores options)) packages emptyRun).
Proof. intros H. unfold checkLicenseComplianceRun. now apply forPackages_answered. Qed.

Lemma check_of_run (packages : list PackageInfo) (options : LicenseComplianceOptions)
      (vs : list LicenseViolation) :
  checkLicenseCompliance e packages options = Normal vs <->
  exists run, checkLicenseComplianceRun e packages options = Normal run
              /\ vs = violations run.
Proof.
  unfold checkLicenseCompliance.
  destruct (checkLicenseComplianceRun e packages options) as [run|]; simpl.
  - split; [intros [= <-]; eauto | intros (r & [= <-] & ->); reflexivity].
  - split; [discriminate | intros (r & H & _); discriminate].
Qed.

Lemma reachesEvaluator_evaluatedB (ignores : list string) (pkg : PackageInfo) :
  reachesEvaluator e ignores pkg -> evaluatedB e ignores pkg = true.
Proof.
  intros [Hi Hl]. unfold evaluatedB, ignoredB. rewrite Hi. simpl.
  now apply String.eqb_neq in Hl as ->.
Qed.


Lemma filter_Subsequence {A} (f : A -> bool) (xs : list A) :
  Subsequence (filter f xs) xs.
Proof.
  induction xs as [|x xs IH]; simpl; [constructor|].
  destruct (f x); now constructor.
Qed.

Lemma Subsequence_length {A} (xs ys : list A) :
  Subsequence xs ys -> List.length xs <= List.length ys.
Proof. induction 1; simpl; lia. Qed.

(** A package that reaches the evaluator with a denied license has its
    violation in the result, whatever the allow list and the other packages
    are. *)
Lemma denied_package_violation (packages : list PackageInfo)
      (options : LicenseComplianceOptions) (pkg : PackageInfo) :
  In pkg packages ->
  reachesEvaluator e (orEmpty (ignores options)) pkg ->
  denied (parseLicenseExpression (license pkg)) (orEmpty (disallowed options))
  = true ->
  exists run,
    checkLicenseComplianceRun e packages options = Normal run
    /\ In (violationOf (orEmpty (allowed options)) (orEmpty (disallowed options))
                       pkg)
          (violations run).
Proof.
  intros Hin Hreach Hden.
  assert (Ha : answered e (orEmpty (ignores options)) packages).
  { apply answered_compiles. destruct Hreach as [Hi _].
    now apply isIgnored_false_compiles in Hi. }
  eexists. split; [now apply run_returns|].
  simpl. apply in_map, filter_In. split; [exact Hin|].
  unfold violatingB. rewrite (reachesEvaluator_evaluatedB _ _ Hreach). simpl.
  apply firstDisallowed_denied in Hden as [c Hc].
  unfold isLicenseAllowed. now rewrite (evaluateLicenses_denied _ _ _ _ Hc).
Qed.

Lemma denied_nil (licenses : list string) : denied licenses [] = false.
Proof. induction licenses; simpl; auto. Qed.

End Runs.

(* ================================================================== *)
(** * Deny before allow *)

Section DenyAndAllow.

Variable e : Engine.

(** C1, as it is worded, fails on the package part: a package whose
    license is denied yields no violation when its name is ignored, and
    none when its license is the sentinel UNKNOWN, even with UNKNOWN on the
    deny list.  The evaluator is not run on either. *)
Lemma denied_license_without_violation :
  (denied (parseLicenseExpression "GPL-3.0-only") ["GPL-3.0-only"] = true
   /\ checkAllowed (isLicenseAllowed "GPL-3.0-only" ["MIT"] ["GPL-3.0-only"])
      = false
   /\ forall e,
        checkLicenseCompliance e [pkgOf "eslint-plugin-x" "GPL-3.0-only"]
          (policy ["MIT"] ["GPL-3.0-only"] ["eslint-*"])
        = Normal [])
  /\ (denied (parseLicenseExpression "UNKNOWN") ["UNKNOWN"] = true
      /\ checkAllowed (isLicenseAllowed "UNKNOWN" [] ["UNKNOWN"]) = false
      /\ forall e,
           checkLicenseCompliance e [pkgOf "a" "UNKNOWN"]
             (policy [] ["UNKNOWN"] [])
           = Normal []).
Proof. repeat split; intros; reflexivity. Qed.

(** C1, amended -- deny dominates allow.  When some identifier parsed from
    the license includes, in lower case, some entry of the deny list, the
    evaluator answers non-compliant whatever the allow list holds; its
    reason names the first such identifier of the expression, in its
    original spelling.  A package with this license on which the evaluator
    is run (its name is not ignored and its license is not the sentinel)
    has its violation, with that reason, in the result of the check,
    whatever the allow list, the other ignore patterns and the other
    packages are. *)
Theorem deny_dominates_allow (license0 : string) (deny : list string) :
  denied (parseLicenseExpression license0) deny = true ->
  exists candidate before after,
    parseLicenseExpression license0 = (before ++ candidate :: after)%list
    /\ denied before deny = false
    /\ existsb (fun d => lowerIncludes candidate d) deny = true
    /\ (forall allow,
           isLicenseAllowed license0 allow deny
           = {| checkAllowed := false;
                checkReason :=
                  Some ("License '" ++ candidate ++ "' is not allowed") |})
    /\ (forall allow ignore packages pkg,
           license pkg = license0 ->
           In pkg packages ->
           isIgnored e (name pkg) (given ignore) = Normal false ->
           license0 <> "UNKNOWN" ->
           exists vs,
             checkLicenseCompliance e packages
               {| allowed := allow; disallowed := Some deny; ignores := ignore |}
             = Normal vs
             /\ In {| package := name pkg;
                      violationLicense := license0;
                      reason := "License '" ++ candidate ++ "' is not allowed" |}
                   vs).
Proof.
  intros Hden. destruct (proj1 (firstDisallowed_denied _ _) Hden) as [c Hc].
  destruct (firstDisallowed_Some _ _ _ Hc) as (before & after & E & Hin & Hb).
  exists c, before, after. repeat split; trivial.
  - intros allow. apply evaluateLicenses_denied, Hc.
  - intros allow ignore packages pkg <- Hp Hi Hl.
    destruct (denied_package_violation e packages
                {| allowed := allow; disallowed := Some deny; ignores := ignore |}
                pkg Hp (conj Hi Hl) Hden)
      as (run & Hrun & Hv).
    exists (violations run). split; [apply check_of_run; eauto|].
    unfold violationOf, isLicenseAllowed in Hv. simpl in Hv.
    now rewrite (evaluateLicenses_denied _ _ _ _ Hc) in Hv.
Qed.

(** C3, as stated, fails: the identifier GPL is a substring of the deny
    entry GPL-3.0-only, and the package passes. *)
Lemma substring_of_deny_entry_passes :
  In "GPL" (parseLicenseExpression "GPL")
  /\ Js.includes (Js.toLowerCase "GPL-3.0-only") (Js.toLowerCase "GPL") = true
  /\ forall e,
       checkLicenseCompliance e [pkgOf "a" "GPL"] (policy [] ["GPL-3.0-only"] [])
       = Normal [].
Proof. repeat split; intros; vm_compute; auto. Qed.

(** C3, amended -- a package on which the evaluator is run (its name is not
    ignored, its license is not the sentinel) and whose license has an
    identifier that includes, in lower case, some entry of the deny list,
    has a violation in the result, whatever the allow list holds. *)
Theorem denied_package_is_violation (packages : list PackageInfo)
        (allow ignore : option (list string)) (deny : list string)
        (pkg : PackageInfo) :
  In pkg packages ->
  isIgnored e (name pkg) (given ignore) = Normal false ->
  license pkg <> "UNKNOWN" ->
  denied (parseLicenseExpression (license pkg)) deny = true ->
  exists vs v,
    checkLicenseCompliance e packages
      {| allowed := allow; disallowed := Some deny; ignores := ignore |}
    = Normal vs
    /\ In v vs
    /\ package v = name pkg
    /\ violationLicense v = license pkg.
Proof.
  intros Hin Hi Hl Hden.
  destruct (denied_package_violation e packages
              {| allowed := allow; disallowed := Some deny; ignores := ignore |}
              pkg Hin (conj Hi Hl) Hden)
    as (run & Hrun & Hv).
  exists (violations run), (violationOf (given allow) deny pkg).
  split; [apply check_of_run; eauto|]. auto.
Qed.

(** C2, as stated, fails: on a license of two spaces the parser yields no
    identifier, and the evaluator's answer is not the one for the raw string
    as single candidate. *)
Lemma blank_license_is_no_candidate :
  parseLicenseExpression "  " = []
  /\ isLicenseAllowed "  " ["MIT"] [] <> specEvaluate "  " ["MIT"] []
  /\ isLicenseAllowed "  " ["MIT"] []
     = {| checkAllowed := false;
          checkReason := Some "None of the licenses '' are in the allowed list" |}
  /\ specEvaluate "  " ["MIT"] []
     = {| checkAllowed := false;
          checkReason := Some "None of the licenses '  ' are in the allowed list" |}.
Proof. repeat split; try reflexivity. vm_compute. discriminate. Qed.

(** C2, amended -- when the parser yields no identifier, as it does on
    every empty or white-space-only license, the evaluator works on the
    empty candidate list: the deny list is not consulted, and the answer is
    compliant under an empty allow list, non-compliant with the reason for
    an empty list of licenses otherwise. *)
Theorem no_candidate_verdict (license0 : string) (allow deny : list string) :
  (blank license0 = true -> parseLicenseExpression license0 = [])
  /\ (parseLicenseExpression license0 = [] ->
      isLicenseAllowed license0 allow deny
      = match allow with
        | [] => {| checkAllowed := true; checkReason := None |}
        | _ :: _ =>
            {| checkAllowed := false;
               checkReason :=
                 Some "None of the licenses '' are in the allowed list" |}
        end).
Proof.
  split; [apply parse_blank_nil|].
  intros E. unfold isLicenseAllowed. rewrite E.
  rewrite evaluateLicenses_not_denied by reflexivity.
  now destruct allow.
Qed.

(** C8, as stated, fails: with MIT on both lists the allow list is not
    empty and the identifier MIT includes an allowed entry, yet the answer
    is non-compliant. *)
Lemma allowed_and_denied_is_refused :
  permitted (parseLicenseExpression "MIT") ["MIT"] = true
  /\ checkAllowed (isLicenseAllowed "MIT" ["MIT"] ["MIT"]) = false.
Proof. split; reflexivity. Qed.

Lemma violatingB_no_policy (options : LicenseComplianceOptions) (pkg : PackageInfo) :
  orEmpty (allowed options) = [] -> orEmpty (disallowed options) = [] ->
  violatingB e (orEmpty (allowed options)) (orEmpty (disallowed options))
             (orEmpty (ignores options)) pkg = false.
Proof.
  intros -> ->. unfold violatingB, isLicenseAllowed.
  rewrite evaluateLicenses_not_denied by apply denied_nil.
  apply andb_false_r.
Qed.

(** C8, amended -- for a license the deny check lets through: under an
    empty allow list the answer is compliant; under a non-empty one it is
    non-compliant exactly when no identifier includes, in lower case, an
    entry of the allow list, and the reason then lists all identifiers.
    With both lists empty or missing the check returns no violation. *)
Theorem allow_list_gating (license0 : string) (allow deny : list string) :
  (denied (parseLicenseExpression license0) deny = false ->
   (allow = [] ->
    isLicenseAllowed license0 allow deny
    = {| checkAllowed := true; checkReason := None |})
   /\ (allow <> [] ->
       (checkAllowed (isLicenseAllowed license0 allow deny) = false
        <-> permitted (parseLicenseExpression license0) allow = false)
       /\ (permitted (parseLicenseExpression license0) allow = false ->
           checkReason (isLicenseAllowed license0 allow deny)
           = Some ("None of the licenses '"
                   ++ Js.join ", " (parseLicenseExpression license0)
                   ++ "' are in the allowed list"))))
  /\ (forall packages options,
         orEmpty (allowed options) = [] ->
         orEmpty (disallowed options) = [] ->
         (forall vs, checkLicenseCompliance e packages options = Normal vs ->
                     vs = [])
         /\ (Forall (compiles e) (orEmpty (ignores options)) ->
             checkLicenseCompliance e packages options = Normal [])).
Proof.
  split.
  - intros Hd. unfold isLicenseAllowed.
    rewrite (evaluateLicenses_not_denied _ allow deny Hd). split.
    + now intros ->.
    + intros Hne. destruct allow as [|a allow]; [congruence|].
      destruct (permitted _ (a :: allow)); simpl; split;
        try split; congruence.
  - intros packages options Ha Hd.
    assert (Hnone : forall run,
               checkLicenseComplianceRun e packages options = Normal run ->
               violations run = []).
    { intros run [_ ->]%run_shape. simpl.
      replace (filter _ packages) with (@nil PackageInfo); [reflexivity|].
      symmetry. induction packages as [|p ps IH]; simpl; [reflexivity|].
      now rewrite (violatingB_no_policy options p Ha Hd). }
    split.
    + intros vs (run & Hrun & ->)%check_of_run. now apply Hnone.
    + intros Hc. apply check_of_run.
      eexists. split; [apply run_returns, answered_compiles, Hc|].
      symmetry. apply Hnone. apply run_returns, answered_compiles, Hc.
Qed.

End DenyAndAllow.

Lemma deny_dominates_allow_witness :
  denied (parseLicenseExpression "MIT OR gpl-3.0-only WITH Classpath-exception-2.0")
         ["GPL-3.0-only"] = true
  /\ (exists candidate,
         In candidate
            (parseLicenseExpression
               "MIT OR gpl-3.0-only WITH Classpath-exception-2.0")
         /\ (forall allow,
                isLicenseAllowed
                  "MIT OR gpl-3.0-only WITH Classpath-exception-2.0"
                  allow ["GPL-3.0-only"]
                = {| checkAllowed := false;
                     checkReason :=
                       Some ("License '" ++ candidate ++ "' is not allowed") |})
         /\ exists vs,
              checkLicenseCompliance sampleEngine
                [ pkgOf "@scope/lib" "GPL-3.0-only";
                  pkgOf "b" "MIT OR gpl-3.0-only WITH Classpath-exception-2.0" ]
                {| allowed := Some ["MIT"];
                   disallowed := Some ["GPL-3.0-only"];
                   ignores := Some ["@scope/[a-z]*"] |}
              = Normal vs
              /\ In {| package := "b";
                       violationLicense :=
                         "MIT OR gpl-3.0-only WITH Classpath-exception-2.0";
                       reason :=
                         "License '" ++ candidate ++ "' is not allowed" |}
                    vs)
  /\ checkLicenseCompliance sampleEngine
       [ pkgOf "@scope/lib" "GPL-3.0-only";
         pkgOf "b" "MIT OR gpl-3.0-only WITH Classpath-exception-2.0" ]
       {| allowed := Some ["MIT"];
          disallowed := Some ["GPL-3.0-only"];
          ignores := Some ["@scope/[a-z]*"] |}
     = Normal
         [ {| package := "b";
              violationLicense :=
                "MIT OR gpl-3.0-only WITH Classpath-exception-2.0";
              reason :=
                "License 'gpl-3.0-only WITH Classpath-exception-2.0' is not allowed" |} ].
Proof.
  split; [reflexivity|]. split; [|reflexivity].
  destruct (deny_dominates_allow sampleEngine
              "MIT OR gpl-3.0-only WITH Classpath-exception-2.0"
              ["GPL-3.0-only"] eq_refl)
    as (candidate & before & after & E & _ & _ & H & Hp).
  exists candidate. split; [|split; [exact H|]].
  - rewrite E. apply in_or_app. right. left. reflexivity.
  - apply (Hp (Some ["MIT"]) (Some ["@scope/[a-z]*"])
              [ pkgOf "@scope/lib" "GPL-3.0-only";
                pkgOf "b" "MIT OR gpl-3.0-only WITH Classpath-exception-2.0" ]
              (pkgOf "b" "MIT OR gpl-3.0-only WITH Classpath-exception-2.0")).
    + reflexivity.
    + simpl. auto.
    + reflexivity.
    + discriminate.
Defined.

Lemma denied_package_is_violation_witness :
  (isIgnored sampleEngine "b" ["eslint-*"; "@scope/[a-z]*"] = Normal false
   /\ denied (parseLicenseExpression "GPL-3.0-only") ["GPL-3.0-only"] = true)
  /\ (exists vs v,
         checkLicenseCompliance sampleEngine
           [ pkgOf "a" "MIT"; pkgOf "@scope/x" "GPL-3.0-only";
             pkgOf "b" "GPL-3.0-only"; pkgOf "c" "UNKNOWN" ]
           {| allowed := Some ["GPL-3.0-only"; "MIT"];
              disallowed := Some ["GPL-3.0-only"];
              ignores := Some ["eslint-*"; "@scope/[a-z]*"] |}
         = Normal vs
         /\ In v vs
         /\ package v = "b"
         /\ violationLicense v = "GPL-3.0-only")
  /\ checkLicenseCompliance sampleEngine
       [ pkgOf "a" "MIT"; pkgOf "@scope/x" "GPL-3.0-only";
         pkgOf "b" "GPL-3.0-only"; pkgOf "c" "UNKNOWN" ]
       {| allowed := Some ["GPL-3.0-only"; "MIT"];
          disallowed := Some ["GPL-3.0-only"];
          ignores := Some ["eslint-*"; "@scope/[a-z]*"] |}
     = Normal [ {| package := "b";
                   violationLicense := "GPL-3.0-only";
                   reason := "License 'GPL-3.0-only' is not allowed" |} ].
Proof.
  split; [split; reflexivity|]. split; [|reflexivity].
  apply (denied_package_is_violation sampleEngine
           [ pkgOf "a" "MIT"; pkgOf "@scope/x" "GPL-3.0-only";
             pkgOf "b" "GPL-3.0-only"; pkgOf "c" "UNKNOWN" ]
           (Some ["GPL-3.0-only"; "MIT"])
           (Some ["eslint-*"; "@scope/[a-z]*"])
           ["GPL-3.0-only"]
           (pkgOf "b" "GPL-3.0-only")).
  - simpl. auto.
  - reflexivity.
  - discriminate.
  - reflexivity.
Defined.

Lemma no_candidate_verdict_witness :
  blank "  " = true
  /\ isLicenseAllowed "  " [] ["GPL-3.0-only"]
     = {| checkAllowed := true; checkReason := None |}.
Proof.
  split; [reflexivity|].
  destruct (no_candidate_verdict "  " [] ["GPL-3.0-only"]) as [H1 H2].
  exact (H2 (H1 eq_refl)).
Defined.

Lemma allow_list_gating_witness :
  (denied (parseLicenseExpression "MIT OR Apache-2.0") ["GPL-3.0-only"] = false
   /\ permitted (parseLicenseExpression "MIT OR Apache-2.0") ["ISC"] = false
   /\ checkReason (isLicenseAllowed "MIT OR Apache-2.0" ["ISC"] ["GPL-3.0-only"])
      = Some "None of the licenses 'MIT, Apache-2.0' are in the allowed list")
  /\ (Forall (compiles sampleEngine) ["eslint-*"]
      /\ checkLicenseCompliance sampleEngine
           [pkgOf "a" "GPL-3.0-only"; pkgOf "b" "  "; pkgOf "c" "UNKNOWN"]
           {| allowed := None; disallowed := Some [];
              ignores := Some ["eslint-*"] |}
         = Normal []).
Proof.
  split.
  - split; [reflexivity|]. split; [reflexivity|].
    destruct (allow_list_gating sampleEngine
                "MIT OR Apache-2.0" ["ISC"] ["GPL-3.0-only"])
      as [H _].
    destruct (H eq_refl) as [_ H2].
    destruct (H2 ltac:(discriminate)) as [_ H3].
    rewrite (H3 eq_refl). reflexivity.
  - assert (H : Forall (compiles sampleEngine) ["eslint-*"])
      by (repeat constructor; eexists; reflexivity).
    split; [exact H|].
    exact (proj2 (proj2 (allow_list_gating sampleEngine "" [] [])
                        [pkgOf "a" "GPL-3.0-only"; pkgOf "b" "  ";
                         pkgOf "c" "UNKNOWN"]
                        {| allowed := None; disallowed := Some [];
                           ignores := Some ["eslint-*"] |}
                        eq_refl eq_refl)
                 H).
Defined.

(* ================================================================== *)
(** * Returning, throwing and skipping *)

Section Skipping.

Variable e : Engine.











(** When the loop over the records of the scanner completes, it has done
    what the loop over the records with a string for their license does, and
    every other record was ignored. *)
Lemma forScanned_Normal (a d i : list string) (packages : list ScannedPackage) :
  forall run run',
    forScanned e a d i packages run = Normal run' ->
    forPackages e a d i (typedRecords packages) run = Normal run'
    /\ Forall (fun pkg => (exists l, license pkg = JString l)
                          \/ isIgnored e (name pkg) i = Normal true) packages.
Proof.
  induction packages as [|pkg rest IH]; intros run run' H;
    [split; [exact H | constructor]|].
  cbn [forScanned] in H.
  destruct (checkScannedPackage e a d i pkg run) as [run1|] eqn:E;
    [|discriminate].
  cbn [bind] in H. destruct (IH _ _ H) as [Hrest Hall].
  unfold checkScannedPackage in E. cbn [typedRecords].
  destruct (license pkg) as [| | | |l| |] eqn:El;
    try (destruct (isIgnored e (name pkg) i) as [[|]|] eqn:Ei; simpl in E;
         [injection E as <-; split; [exact Hrest | constructor; auto]
         |discriminate
         |discriminate]).
  split.
  - cbn [forPackages]. rewrite E. exact Hrest.
  - constructor; eauto.
Qed.




(** C6 -- ignore dominance.  When the name of a package matches an ignore
    pattern, an iteration of the loop on it that completes leaves the run as
    it was (no violation, no warning, no call of the evaluator), whatever
    its license and the two lists are, and no result of the check holds a
    violation under that name.  When [isIgnored] says yes, the check on a
    list with the package is the check on the list without it; and a record
    of the scanner is skipped in the same way, be its license a string or
    any other value. *)
Theorem ignored_package_is_skipped (options : LicenseComplianceOptions)
        (pkg : PackageInfo) :
  ((exists pattern,
       In pattern (given (ignores options))
       /\ matchesPattern e (name pkg) pattern = Normal true) ->
   (forall allow deny run run',
       checkPackage e allow deny (given (ignores options)) pkg run = Normal run' ->
       run' = run)
   /\ (forall packages vs,
          checkLicenseCompliance e packages options = Normal vs ->
          forall v, In v vs -> package v <> name pkg))
  /\ (isIgnored e (name pkg) (given (ignores options)) = Normal true ->
      (forall allow deny run,
          checkPackage e allow deny (given (ignores options)) pkg run = Normal run)
      /\ (forall before after,
             checkLicenseComplianceRun e (before ++ pkg :: after) options
             = checkLicenseComplianceRun e (before ++ after) options))
  /\ (forall scanned : ScannedPackage,
         isIgnored e (name scanned) (given (ignores options)) = Normal true ->
         forall allow deny run,
           checkScannedPackage e allow deny (given (ignores options)) scanned run
           = Normal run).
Proof.
  split; [|split].
  - intros Hm. split.
    + intros allow deny run run' H. unfold checkPackage in H.
      destruct (isIgnored e (name pkg) (given (ignores options))) as [b|] eqn:E;
        simpl in H; try discriminate.
      apply (isIgnored_true _ _ _ _ E) in Hm. subst b. congruence.
    + intros packages vs (run & Hrun & ->)%check_of_run v Hv Hname.
      apply run_shape in Hrun as [Ha ->]. simpl in Hv.
      apply in_map_iff in Hv as (p & <- & Hp).
      apply filter_In in Hp as [Hp Hviol]. simpl in Hname.
      unfold answered in Ha. rewrite Forall_forall in Ha.
      destruct (Ha p Hp) as [b Hb].
      unfold violatingB, evaluatedB, ignoredB in Hviol. rewrite Hb in Hviol.
      rewrite Hname in Hb. apply (isIgnored_true _ _ _ _ Hb) in Hm. subst b.
      discriminate.
  - intros Hi. split.
    + intros allow deny run. unfold checkPackage. now rewrite Hi.
    + intros before after. unfold checkLicenseComplianceRun.
      rewrite !forPackages_append.
      destruct (forPackages e _ _ _ before emptyRun) as [run|]; simpl; trivial.
      unfold checkPackage.
      change (orEmpty (ignores options)) with (given (ignores options)).
      now rewrite Hi.
  - intros scanned Hi allow deny run. unfold checkScannedPackage, checkPackage.
    destruct (license scanned); cbn [withLicense name]; now rewrite Hi.
Qed.

Lemma Forall2_map_self {A B} (R : B -> A -> Prop) (f : A -> B) (xs : list A) :
  (forall x, R (f x) x) -> Forall2 R (map f xs) xs.
Proof. intros H. induction xs; simpl; constructor; auto. Qed.

(** C9 -- the shape of the result.  The violations returned correspond, one
    to one and in order, to packages picked from the input list without
    reordering; each carries the name of its package and the license string
    as the package records it.  So there is at most one violation per input
    package.  The check does return whenever the constructor accepts the
    ignore patterns. *)
Theorem violations_follow_packages (packages : list PackageInfo)
        (options : LicenseComplianceOptions) :
  (Forall (compiles e) (given (ignores options)) ->
   exists vs, checkLicenseCompliance e packages options = Normal vs)
  /\ (forall vs,
         checkLicenseCompliance e packages options = Normal vs ->
         exists kept,
           Subsequence kept packages
           /\ Forall2 (fun v p => package v = name p
                                  /\ violationLicense v = license p)
                      vs kept
           /\ List.length vs <= List.length packages).
Proof.
  split.
  - intros Hc. eexists. apply check_of_run. eexists.
    split; [apply run_returns, answered_compiles, Hc | reflexivity].
  - intros vs (run & Hrun & ->)%check_of_run.
    apply run_shape in Hrun as [_ ->]. simpl.
    eexists. split; [apply filter_Subsequence|]. split.
    + apply Forall2_map_self. intros p. split; reflexivity.
    + rewrite length_map.
      apply Subsequence_length, filter_Subsequence.
Qed.


End Skipping.


Lemma ignored_package_is_skipped_witness :
  (isIgnored sampleEngine "@scope/lib" ["eslint-*"; "@scope/[a-z]*"]
   = Normal true
   /\ forall before after,
       checkLicenseComplianceRun sampleEngine
         (before ++ pkgOf "@scope/lib" "GPL-3.0-only" :: after)
         (policy [] ["GPL-3.0-only"] ["eslint-*"; "@scope/[a-z]*"])
       = checkLicenseComplianceRun sampleEngine
           (before ++ after)
           (policy [] ["GPL-3.0-only"] ["eslint-*"; "@scope/[a-z]*"]))
  /\ ((In "eslint-*" ["lodash"; "eslint-*"]
       /\ matchesPattern sampleEngine "eslint-plugin-foo" "eslint-*"
          = Normal true)
      /\ forall packages vs,
          checkLicenseCompliance sampleEngine
            packages (policy ["MIT"] ["GPL-3.0-only"] ["lodash"; "eslint-*"])
          = Normal vs ->
          forall v, In v vs -> package v <> "eslint-plugin-foo")
  /\ checkLicenseComplianceRun sampleEngine
       [ pkgOf "@scope/lib" "GPL-3.0-only"; pkgOf "eslint-plugin-foo" "UNKNOWN";
         pkgOf "@scope/Lib" "GPL-3.0-only" ]
       (policy [] ["GPL-3.0-only"] ["eslint-*"; "@scope/[a-z]*"])
     = Normal
         {| violations :=
              [ {| package := "@scope/Lib"; violationLicense := "GPL-3.0-only";
                   reason := "License 'GPL-3.0-only' is not allowed" |} ];
            warnings := [];
            evaluated := ["GPL-3.0-only"] |}
  /\ (forall allow deny run,
         checkScannedPackage sampleEngine allow deny ["eslint-*"; "@scope/[a-z]*"]
           {| name := "@scope/lib"; version := "unknown";
              license := JObject [("type", JString "GPL-3.0-only")];
              path := "" |}
           run
         = Normal run).
Proof.
  split; [|split; [|split; [reflexivity|]]].
  - split; [reflexivity|].
    exact (proj2 (proj1 (proj2 (ignored_package_is_skipped sampleEngine
                                  (policy [] ["GPL-3.0-only"]
                                          ["eslint-*"; "@scope/[a-z]*"])
                                  (pkgOf "@scope/lib" "GPL-3.0-only")))
                        eq_refl)).
  - assert (H : In "eslint-*" ["lodash"; "eslint-*"]
                /\ matchesPattern sampleEngine "eslint-plugin-foo" "eslint-*"
                   = Normal true).
    { split; [simpl; auto | reflexivity]. }
    split; [exact H|].
    exact (proj2 (proj1 (ignored_package_is_skipped sampleEngine
                           (policy ["MIT"] ["GPL-3.0-only"] ["lodash"; "eslint-*"])
                           (pkgOf "eslint-plugin-foo" "GPL-3.0-only"))
                        (ex_intro _ "eslint-*" H))).
  - exact (proj2 (proj2 (ignored_package_is_skipped sampleEngine
                           (policy [] [] ["eslint-*"; "@scope/[a-z]*"])
                           (pkgOf "@scope/lib" "GPL-3.0-only")))
                 {| name := "@scope/lib"; version := "unknown";
                    license := JObject [("type", JString "GPL-3.0-only")];
                    path := "" |}
                 eq_refl).
Defined.

Lemma violations_follow_packages_witness :
  checkLicenseCompliance sampleEngine
    [pkgOf "a" "MIT"; pkgOf "b" "GPL-3.0-only"; pkgOf "c" "UNKNOWN";
     pkgOf "ab" "GPL-3.0-only"; pkgOf "d" "ISC OR GPL-3.0-only"]
    (policy [] ["GPL-3.0-only"] ["a[bc]"])
  = Normal
      [ {| package := "b"; violationLicense := "GPL-3.0-only";
           reason := "License 'GPL-3.0-only' is not allowed" |};
        {| package := "d"; violationLicense := "ISC OR GPL-3.0-only";
           reason := "License 'GPL-3.0-only' is not allowed" |} ]
  /\ exists kept,
      Subsequence kept
        [pkgOf "a" "MIT"; pkgOf "b" "GPL-3.0-only"; pkgOf "c" "UNKNOWN";
         pkgOf "ab" "GPL-3.0-only"; pkgOf "d" "ISC OR GPL-3.0-only"]
      /\ Forall2 (fun v p => package v = name p
                             /\ violationLicense v = license p)
           [ {| package := "b"; violationLicense := "GPL-3.0-only";
                reason := "License 'GPL-3.0-only' is not allowed" |};
             {| package := "d"; violationLicense := "ISC OR GPL-3.0-only";
                reason := "License 'GPL-3.0-only' is not allowed" |} ]
           kept
      /\ 2 <= 5.
Proof.
  split; [reflexivity|].
  exact (proj2 (violations_follow_packages sampleEngine
                  [pkgOf "a" "MIT"; pkgOf "b" "GPL-3.0-only";
                   pkgOf "c" "UNKNOWN"; pkgOf "ab" "GPL-3.0-only";
                   pkgOf "d" "ISC OR GPL-3.0-only"]
                  (policy [] ["GPL-3.0-only"] ["a[bc]"]))
               _ eq_refl).
Defined.


(* ================================================================== *)
(** * The ignore-pattern matcher *)

Section GlobMatcher.

Variable e : Engine.

Lemma bracketGroup_sound (s group rest : string) :
  bracketGroup s = Some (group, rest) -> s = group ++ String "]" rest.
Proof.
  revert group. induction s as [|c s IH]; intros group; simpl; [discriminate|].
  destruct (c =? "]")%char; [discriminate|].
  destruct (bracketGroup s) as [[g r]|].
  - intros [= <- <-]. simpl. now rewrite (IH g eq_refl).
  - destruct s as [|d s']; [discriminate|].
    destruct (d =? "]")%char eqn:E; [|discriminate].
    apply Ascii.eqb_eq in E. subst d. now intros [= <- <-].
Qed.

(** The third replacement puts back what it matched. *)
Lemma replaceBracketGroups_id (fuel : nat) :
  forall s, replaceBracketGroups fuel s = s.
Proof.
  induction fuel as [|fuel IH]; intros s; simpl; [reflexivity|].
  destruct s as [|c s]; [reflexivity|].
  destruct (c =? "[")%char eqn:E.
  - destruct (bracketGroup s) as [[group rest]|] eqn:G.
    + apply bracketGroup_sound in G. apply Ascii.eqb_eq in E. subst c s.
      rewrite IH. reflexivity.
    + now rewrite IH.
  - now rewrite IH.
Qed.

Lemma regexPattern_wildcards (pattern : string) :
  regexPattern pattern = wildcardsToRegExp pattern.
Proof. unfold regexPattern. apply replaceBracketGroups_id. Qed.

Lemma wildcardsToRegExp_cons (c : ascii) (pattern : string) :
  wildcardsToRegExp (String c pattern)
  = if (c =? "*")%char then String "." (String "*" (wildcardsToRegExp pattern))
    else if (c =? "?")%char then String "." (wildcardsToRegExp pattern)
    else String c (wildcardsToRegExp pattern).
Proof.
  unfold wildcardsToRegExp. simpl.
  destruct (c =? "*")%char; [reflexivity|]. simpl.
  destruct (c =? "?")%char; reflexivity.
Qed.

(** What being no syntax character means, test by test. *)
Lemma plain_char (c : ascii) :
  isRegExpSyntax c = false ->
  (c =? "^")%char = false /\ (c =? "$")%char = false
  /\ (c =? ".")%char = false /\ (c =? "+")%char = false
  /\ ((c =? "?")%char = false -> RegExp.isOutsideSyntax c = false).
Proof.
  unfold isRegExpSyntax, RegExp.isOutsideSyntax.
  rewrite !orb_false_iff. intros H. decompose [and] H. clear H.
  repeat split; trivial.
Qed.

(** Behind a glob pattern and the closing [$], the source never starts
    with a quantifier. *)
Lemma wildcards_head (pattern : string) :
  plainGlob pattern = true ->
  exists q rest,
    wildcardsToRegExp pattern ++ "$" = String q rest
    /\ (q =? "*")%char = false /\ (q =? "+")%char = false.
Proof.
  destruct pattern as [|c pattern]; [now exists "$"%char, ""|].
  simpl. intros [Hc _]%andb_prop. apply negb_true_iff in Hc.
  rewrite wildcardsToRegExp_cons.
  destruct (c =? "*")%char eqn:Es; [simpl; eauto|].
  destruct (c =? "?")%char eqn:Eq; [simpl; eauto|].
  destruct (plain_char c Hc) as (_ & _ & _ & Hp & _).
  simpl. eauto.
Qed.

Lemma parse_cons (c : ascii) (rest : string) :
  RegExp.parse (String c rest)
  = if (c =? "^")%char then RegExp.withTerm RegExp.TBegin (RegExp.parse rest)
    else if (c =? "$")%char then RegExp.withTerm RegExp.TEnd (RegExp.parse rest)
    else if RegExp.isQuantifier c then RegExp.NothingToRepeat
    else if RegExp.isOutsideSyntax c then RegExp.Outside
    else
      match rest with
      | String q rest' =>
          if (q =? "*")%char then
            RegExp.withTerm (RegExp.TAtom (RegExp.atomOf c) RegExp.QStar)
                            (RegExp.parse rest')
          else if (q =? "+")%char then
            RegExp.withTerm (RegExp.TAtom (RegExp.atomOf c) RegExp.QPlus)
                            (RegExp.parse rest')
          else RegExp.withTerm (RegExp.TAtom (RegExp.atomOf c) RegExp.QOne)
                               (RegExp.parse rest)
      | "" => RegExp.Accepted [RegExp.TAtom (RegExp.atomOf c) RegExp.QOne]
      end.
Proof. reflexivity. Qed.

(** An atom followed by something that is no quantifier stands alone. *)
Lemma parse_single (c q : ascii) (rest : string) :
  (c =? "^")%char = false -> (c =? "$")%char = false ->
  RegExp.isQuantifier c = false -> RegExp.isOutsideSyntax c = false ->
  (q =? "*")%char = false -> (q =? "+")%char = false ->
  RegExp.parse (String c (String q rest))
  = RegExp.withTerm (RegExp.TAtom (RegExp.atomOf c) RegExp.QOne)
                    (RegExp.parse (String q rest)).
Proof.
  intros H1 H2 H3 H4 H5 H6. rewrite parse_cons.
  now rewrite H1, H2, H3, H4, H5, H6.
Qed.

(** The constructor reads the converted pattern term by term. *)
Lemma parse_wildcards (pattern : string) :
  plainGlob pattern = true ->
  RegExp.parse (wildcardsToRegExp pattern ++ "$")
  = RegExp.Accepted (globTerms pattern ++ [RegExp.TEnd])%list.
Proof.
  induction pattern as [|c pattern IH]; [reflexivity|].
  intros Hp. pose proof Hp as Hp'. simpl in Hp'.
  apply andb_prop in Hp' as [Hc Hrest]. apply negb_true_iff in Hc.
  specialize (IH Hrest).
  destruct (wildcards_head pattern Hrest) as (q & rest & Eh & Hq1 & Hq2).
  rewrite wildcardsToRegExp_cons. simpl globTerms. unfold globTerm.
  destruct (c =? "*")%char eqn:Es.
  - change (RegExp.parse (String "." (String "*" (wildcardsToRegExp pattern)) ++ "$"))
      with (RegExp.withTerm (RegExp.TAtom RegExp.ADot RegExp.QStar)
                            (RegExp.parse (wildcardsToRegExp pattern ++ "$"))).
    now rewrite IH.
  - destruct (plain_char c Hc) as (H1 & H2 & H3 & H4 & H5).
    destruct (c =? "?")%char eqn:Eq.
    + simpl append. rewrite Eh, parse_single; trivial.
      rewrite <- Eh, IH. reflexivity.
    + simpl append. rewrite Eh, parse_single; trivial.
      * rewrite <- Eh, IH. unfold RegExp.atomOf. now rewrite H3.
      * unfold RegExp.isQuantifier. now rewrite Es, H4.
      * now apply H5.
Qed.

Lemma search_TBegin (p : RegExp.Pattern) (s : string) :
  RegExp.search (RegExp.TBegin :: p) false s = false.
Proof. induction s as [|c s IH]; simpl; [reflexivity | exact IH]. Qed.

Lemma test_TBegin (p : RegExp.Pattern) (s : string) :
  RegExp.test (RegExp.TBegin :: p) s = RegExp.matchHere p true s.
Proof.
  unfold RegExp.test. destruct s as [|c s]; simpl.
  - apply orb_false_r.
  - now rewrite search_TBegin, orb_false_r.
Qed.

Lemma star_globStar (k : bool -> string -> bool) (g : string -> bool) :
  (forall b s, singleLine s = true -> k b s = g s) ->
  forall s b, singleLine s = true ->
              RegExp.star RegExp.ADot k b s = globStar g s.
Proof.
  intros Hk. induction s as [|c s IH]; intros b Hs.
  - simpl. rewrite Hk by reflexivity. now rewrite orb_false_r.
  - pose proof Hs as Hs'. simpl in Hs'. apply andb_prop in Hs' as [Hc Hs'].
    simpl. rewrite Hc, (IH false Hs'), (Hk b _ Hs). simpl. apply orb_comm.
Qed.

(** On names of one line the terms of a glob pattern match as the glob
    pattern does. *)
Lemma matchHere_globTerms (pattern : string) :
  forall b s, singleLine s = true ->
              RegExp.matchHere (globTerms pattern ++ [RegExp.TEnd])%list b s
              = globMatch pattern s.
Proof.
  induction pattern as [|c pattern IH]; intros b s Hs.
  - simpl. apply andb_true_r.
  - simpl globTerms. simpl globMatch. unfold globTerm.
    destruct (c =? "*")%char.
    + simpl. now apply star_globStar.
    + destruct (c =? "?")%char; simpl; destruct s as [|d s]; trivial;
        simpl in Hs; apply andb_prop in Hs as [Hd Hs];
        rewrite (IH false s Hs); [now rewrite Hd | reflexivity].
Qed.

Lemma matchesPattern_glob (packageName pattern : string) :
  plainGlob pattern = true -> singleLine packageName = true ->
  matchesPattern e packageName pattern = Normal (globMatch pattern packageName).
Proof.
  intros Hp Hs. unfold matchesPattern, RegExp.construct.
  rewrite regexPattern_wildcards.
  change (RegExp.parse ("^" ++ wildcardsToRegExp pattern ++ "$"))
    with (RegExp.withTerm RegExp.TBegin
                          (RegExp.parse (wildcardsToRegExp pattern ++ "$"))).
  rewrite (parse_wildcards pattern Hp). simpl.
  now rewrite test_TBegin, matchHere_globTerms.
Qed.

Lemma isIgnored_glob (packageName : string) (patterns : list string) :
  forallb plainGlob patterns = true -> singleLine packageName = true ->
  isIgnored e packageName patterns = Normal (specIsIgnored packageName patterns).
Proof.
  intros Hp Hs. unfold isIgnored, specIsIgnored.
  induction patterns as [|pattern rest IH]; [reflexivity|].
  simpl in Hp. apply andb_prop in Hp as [Hp Hrest]. simpl.
  rewrite (matchesPattern_glob _ _ Hp Hs). simpl.
  destruct (globMatch pattern packageName); [reflexivity | now apply IH].
Qed.

Lemma existsb_Permutation {A} (f : A -> bool) (xs ys : list A) :
  Permutation xs ys -> existsb f xs = existsb f ys.
Proof.
  induction 1; simpl; try congruence.
  now rewrite !orb_assoc, (orb_comm (f y)).
Qed.

Lemma forallb_Permutation {A} (f : A -> bool) (xs ys : list A) :
  Permutation xs ys -> forallb f xs = forallb f ys.
Proof.
  induction 1; simpl; try congruence.
  now rewrite !andb_assoc, (andb_comm (f y)).
Qed.

Lemma globMatch_star (s : string) : globMatch "*" s = true.
Proof.
  change (globStar Js.isEmpty s = true).
  induction s as [|c s IH]; simpl; [reflexivity | exact IH].
Qed.

(** Without wildcards a pattern matches its own spelling only. *)
Lemma globMatch_literal (pattern : string) :
  noWildcard pattern = true ->
  forall s, globMatch pattern s = (pattern =? s).
Proof.
  induction pattern as [|c pattern IH]; intros Hw s.
  - now destruct s.
  - simpl in Hw. apply andb_prop in Hw as [[H1 H2]%andb_prop Hw].
    apply negb_true_iff in H1, H2. simpl. rewrite H1, H2.
    destruct s as [|d s]; [reflexivity|]. rewrite (IH Hw).
    destruct (c =? d)%char; reflexivity.
Qed.

End GlobMatcher.

(* ================================================================== *)
(** * The contract of the ignore-pattern matcher *)

Section GlobContract.

Variable e : Engine.

(** C7, as stated, fails in three ways: a dot in a pattern stands for any
    code unit, so the pattern lodash.merge ignores the name lodashxmerge,
    which it does not match as a glob; the pattern [*] does not match a name
    that holds a line feed; and with a pattern the constructor refuses, the
    answer depends on the order of the patterns. *)
Lemma isIgnored_is_not_glob_matching :
  ((forall e, isIgnored e "lodashxmerge" ["lodash.merge"] = Normal true)
   /\ specIsIgnored "lodashxmerge" ["lodash.merge"] = false)
  /\ ((forall e, isIgnored e (String "010" "") ["*"] = Normal false)
      /\ specIsIgnored (String "010" "") ["*"] = true)
  /\ ((forall e, isIgnored e "a" ["a"; "c++"] = Normal true)
      /\ (forall e, isIgnored e "a" ["c++"; "a"] = Throw (SyntaxError "^c++$"))).
Proof. repeat split; reflexivity. Qed.

(** C7, amended -- for ignore patterns made of the wildcards [*] and [?]
    and of code units that are no syntax characters of regular expressions,
    and for a name without line terminators: [isIgnored] returns true
    exactly when the whole name matches at least one pattern as a glob, [*]
    standing for zero or more code units, [?] for exactly one, every other
    code unit for itself and nothing else (so a pattern without wildcards
    matches its own spelling only); the answer does not depend on the order
    of the patterns; no pattern ignores nothing; the pattern [*] matches
    the name; and the examples of the specification hold. *)
Theorem isIgnored_is_glob_matching (packageName : string) (patterns : list string) :
  forallb plainGlob patterns = true ->
  singleLine packageName = true ->
  isIgnored e packageName patterns = Normal (specIsIgnored packageName patterns)
  /\ (forall patterns',
         Permutation patterns patterns' ->
         isIgnored e packageName patterns' = isIgnored e packageName patterns)
  /\ (forall pattern,
         noWildcard pattern = true ->
         globMatch pattern packageName = (pattern =? packageName))
  /\ isIgnored e packageName [] = Normal false
  /\ isIgnored e packageName ["*"] = Normal true
  /\ isIgnored e "@types/node" ["@types/*"] = Normal true
  /\ isIgnored e "lodash" ["@types/*"] = Normal false
  /\ isIgnored e "foo" ["*"] = Normal true.
Proof.
  intros Hp Hs. split; [now apply isIgnored_glob|].
  split; [|split; [|split; [|split]]].
  - intros patterns' Hperm.
    rewrite (isIgnored_glob e packageName patterns Hp Hs).
    rewrite (isIgnored_glob e packageName patterns');
      [|now rewrite <- (forallb_Permutation _ _ _ Hperm) | exact Hs].
    unfold specIsIgnored. now rewrite (existsb_Permutation _ _ _ Hperm).
  - intros pattern Hw. now apply globMatch_literal.
  - reflexivity.
  - rewrite (isIgnored_glob e packageName ["*"] eq_refl Hs).
    unfold specIsIgnored. cbn [existsb]. now rewrite globMatch_star.
  - repeat split; reflexivity.
Qed.

End GlobContract.

Lemma isIgnored_is_glob_matching_witness :
  (forallb plainGlob ["lodash"; "@types/*"; "eslint-plugin-?"] = true
   /\ singleLine "@types/node" = true)
  /\ isIgnored sampleEngine "@types/node" ["lodash"; "@types/*"; "eslint-plugin-?"]
     = Normal (specIsIgnored "@types/node"
                             ["lodash"; "@types/*"; "eslint-plugin-?"])
  /\ isIgnored sampleEngine "@types/node" ["eslint-plugin-?"; "@types/*"; "lodash"]
     = isIgnored sampleEngine "@types/node" ["lodash"; "@types/*"; "eslint-plugin-?"].
Proof.
  split; [split; reflexivity|].
  destruct (isIgnored_is_glob_matching sampleEngine
              "@types/node" ["lodash"; "@types/*"; "eslint-plugin-?"]
              eq_refl eq_refl) as (H1 & H2 & _).
  split; [exact H1|].
  apply H2.
  apply Permutation_trans
    with ["@types/*"; "lodash"; "eslint-plugin-?"]; [apply perm_swap|].
  apply Permutation_trans
    with ["@types/*"; "eslint-plugin-?"; "lodash"];
    [apply perm_skip, perm_swap|].
  apply perm_swap.
Defined.

(* ================================================================== *)
(** * The scenarios of the specification *)

Section Scenarios.

Example scenario_deny_list :
  checkLicenseComplianceRun sampleEngine
    [pkgOf "a" "MIT"; pkgOf "b" "GPL-3.0-only"; pkgOf "c" "UNKNOWN"]
    {| allowed := None; disallowed := Some ["GPL-3.0-only"]; ignores := None |}
  = Normal
      {| violations :=
           [ {| package := "b"; violationLicense := "GPL-3.0-only";
                reason := "License 'GPL-3.0-only' is not allowed" |} ];
         warnings := ["c: No license information found"];
         evaluated := ["MIT"; "GPL-3.0-only"] |}.
Proof. reflexivity. Qed.

Example scenario_allow_list :
  checkLicenseCompliance sampleEngine
    [pkgOf "x" "MIT"]
    {| allowed := Some ["Apache-2.0"]; disallowed := None; ignores := None |}
  = Normal
      [ {| package := "x"; violationLicense := "MIT";
           reason := "None of the licenses 'MIT' are in the allowed list" |} ].
Proof. reflexivity. Qed.

Example scenario_ignored :
  checkLicenseCompliance sampleEngine
    [pkgOf "eslint-plugin-foo" "GPL-3.0-only"]
    {| allowed := None; disallowed := Some ["GPL-3.0-only"];
       ignores := Some ["eslint-*"] |}
  = Normal [].
Proof. reflexivity. Qed.

Example scenario_legacy_licenses :
  extractLicense
    {| manifestLicense := JUndefined;
       manifestLicenses :=
         JArray [ JObject [ ("type", JString "MIT");
                            ("url", JString "https://example.org/mit") ];
                  JObject [ ("type", JString "Apache-2.0");
                            ("url", JString "https://example.org/apache") ] ] |}
  = Normal (JString "MIT OR Apache-2.0").
Proof. reflexivity. Qed.

Example scenario_legacy_object :
  extractLicense
    {| manifestLicense := JObject [ ("type", JString "MIT");
                                    ("url", JString "https://example.org/mit") ];
       manifestLicenses := JUndefined |}
  = Normal (JObject [ ("type", JString "MIT");
                      ("url", JString "https://example.org/mit") ]).
Proof. reflexivity. Qed.

Example scenario_case_insensitive :
  isLicenseAllowed "mit or apache-2.0" ["Apache-2.0"] ["GPL-3.0-only"]
  = {| checkAllowed := true; checkReason := None |}.
Proof. reflexivity. Qed.

Example scenario_all_identifiers_are_strings :
  forallb isSPDXLicenseId ["MIT"; "Apache-2.0"; "GPL-3.0-only"; "ISC"] = true.
Proof. reflexivity. Qed.

End Scenarios.

(* ================================================================== *)
(** * More on the license expression parser *)

Section ParserStability.

Lemma SeparatorFree_Substring (x s : string) :
  Substring x s -> SeparatorFree s -> SeparatorFree x.
Proof.
  intros Hx Hs sep Hsep Hsub. apply (Hs sep Hsep).
  now apply Substring_trans with x.
Qed.

Lemma parse_segment_free (raw c : string) :
  In c (parseLicenseExpression raw) -> SeparatorFree c.
Proof.
  rewrite parseLicenseExpression_split.
  intros [Hin _]%filter_In. apply in_map_iff in Hin as (seg & <- & Hseg).
  apply SeparatorFree_Substring with seg; [apply trim_Substring|].
  destruct (split_spec raw) as (first & more & E & _ & _ & F).
  rewrite E in Hseg. rewrite Forall_forall in F. now apply F.
Qed.

(** Parsing is stable: an identifier the parser returned is a license
    expression of its own that parses to itself alone. *)
Theorem parsed_identifier_parses_to_itself (raw c : string) :
  In c (parseLicenseExpression raw) ->
  parseLicenseExpression c = [c].
Proof.
  intros Hin. destruct (parse_candidate raw c Hin) as (Hne & Ht & _).
  rewrite (parse_SeparatorFree c (parse_segment_free raw c Hin)), Ht.
  destruct c; [congruence | reflexivity].
Qed.

Lemma parsed_identifier_parses_to_itself_witness :
  In "Apache-2.0 WITH LLVM-exception"
     (parseLicenseExpression "MIT  or Apache-2.0 WITH LLVM-exception ")
  /\ parseLicenseExpression "Apache-2.0 WITH LLVM-exception"
     = ["Apache-2.0 WITH LLVM-exception"].
Proof.
  assert (H : In "Apache-2.0 WITH LLVM-exception"
                 (parseLicenseExpression
                    "MIT  or Apache-2.0 WITH LLVM-exception "))
    by (vm_compute; auto).
  split; [exact H|].
  exact (parsed_identifier_parses_to_itself _ _ H).
Defined.

Lemma matchAt_black (c : ascii) (s : string) :
  Js.isWhiteSpace c = false -> Separator.matchAt (String c s) = None.
Proof. intros H. unfold Separator.matchAt. simpl. now rewrite H. Qed.

Lemma matchAt_or (c : ascii) (s : string) :
  Js.isWhiteSpace c = false ->
  Separator.matchAt (" OR " ++ String c s) = Some (String c s).
Proof. intros H. unfold Separator.matchAt. simpl. now rewrite H. Qed.

(** The loop walks over a run without white space one code unit at a
    time. *)
Lemma splitLoop_black (t : string) :
  forall fuel cur rest,
    noWhiteSpace t = true ->
    Separator.splitLoop (String.length t + fuel) cur (t ++ rest)
    = Separator.splitLoop fuel (cur ++ t) rest.
Proof.
  induction t as [|c t IH]; intros fuel cur rest Ht.
  - simpl. now rewrite append_nil_r.
  - simpl in Ht. apply andb_prop in Ht as [Hc Ht]. apply negb_true_iff in Hc.
    change (String.length (String c t) + fuel)
      with (S (String.length t + fuel)).
    change (String c t ++ rest) with (String c (t ++ rest)).
    cbn [Separator.splitLoop]. rewrite (matchAt_black c _ Hc).
    rewrite (IH fuel _ rest Ht). now rewrite append_snoc_cons.
Qed.

Lemma isIdentifier_inv (t : string) :
  isIdentifier t = true ->
  noWhiteSpace t = true
  /\ exists c t', t = String c t' /\ Js.isWhiteSpace c = false.
Proof.
  unfold isIdentifier. intros [Hne Hw]%andb_prop. split; [exact Hw|].
  destruct t as [|c t']; [discriminate|]. simpl in Hw.
  apply andb_prop in Hw as [Hc _]. apply negb_true_iff in Hc. eauto.
Qed.

Lemma splitLoop_identifiers (ts : list string) :
  forall fuel t cur,
    isIdentifier t = true ->
    forallb isIdentifier ts = true ->
    String.length (t ++ orTail ts) < fuel ->
    Separator.splitLoop fuel cur (t ++ orTail ts) = (cur ++ t) :: ts.
Proof.
  induction ts as [|t2 ts IH]; intros fuel t cur Ht Hts Hfuel.
  - destruct (isIdentifier_inv t Ht) as [Hw _].
    simpl orTail in *. rewrite length_append in Hfuel. simpl in Hfuel.
    replace fuel with (String.length t + (fuel - String.length t)) by lia.
    rewrite (splitLoop_black t _ cur "" Hw).
    destruct (fuel - String.length t) eqn:E; [lia | reflexivity].
  - destruct (isIdentifier_inv t Ht) as [Hw _].
    simpl in Hts. apply andb_prop in Hts as [Ht2 Hts].
    destruct (isIdentifier_inv t2 Ht2) as [_ (c & t2' & E2 & Hc)].
    assert (Hl : String.length (orTail (t2 :: ts))
                 = 4 + String.length (t2 ++ orTail ts)) by reflexivity.
    rewrite length_append, Hl in Hfuel.
    replace fuel with (String.length t + (fuel - String.length t)) by lia.
    rewrite (splitLoop_black t _ cur _ Hw).
    destruct (fuel - String.length t) as [|fuel'] eqn:E; [lia|].
    assert (Em : Separator.matchAt (orTail (t2 :: ts))
                 = Some (t2 ++ orTail ts)).
    { rewrite E2. apply (matchAt_or c (t2' ++ orTail ts) Hc). }
    rewrite (splitLoop_match fuel' (cur ++ t) (orTail (t2 :: ts)) _
               ltac:(discriminate) Em).
    f_equal. rewrite (IH fuel' t2 "" Ht2 Hts); [reflexivity | lia].
Qed.

Lemma join_orTail (t : string) (ts : list string) :
  Js.join " OR " (t :: ts) = t ++ orTail ts.
Proof.
  revert t. induction ts as [|t2 ts IH]; intros t.
  - simpl. now rewrite append_nil_r.
  - change (Js.join " OR " (t :: t2 :: ts))
      with (t ++ " OR " ++ Js.join " OR " (t2 :: ts)).
    rewrite IH. reflexivity.
Qed.

Lemma trimEnd_noWhiteSpace (t : string) :
  noWhiteSpace t = true -> Js.trimEnd t = t.
Proof.
  induction t as [|c t IH]; [reflexivity|]. simpl.
  intros [Hc Ht]%andb_prop. apply negb_true_iff in Hc.
  now rewrite Hc, (IH Ht).
Qed.

Lemma trim_identifier (t : string) : isIdentifier t = true -> Js.trim t = t.
Proof.
  intros H. destruct (isIdentifier_inv t H) as [Hw (c & t' & -> & Hc)].
  unfold Js.trim.
  rewrite trimStart_fixed by (simpl; now rewrite <- isWhiteSpace_isWhite).
  now apply trimEnd_noWhiteSpace.
Qed.

Lemma keep_identifiers (ts : list string) :
  forallb isIdentifier ts = true ->
  filter (fun license => Nat.ltb 0 (String.length license))
         (map (fun license => Js.trim license) ts) = ts.
Proof.
  induction ts as [|t ts IH]; [reflexivity|]. simpl.
  intros [Ht Hts]%andb_prop. rewrite (trim_identifier t Ht), (IH Hts).
  unfold isIdentifier, nonEmpty in Ht. apply andb_prop in Ht as [-> _].
  reflexivity.
Qed.

Lemma parse_join_identifiers (ts : list string) :
  forallb isIdentifier ts = true ->
  parseLicenseExpression (Js.join " OR " ts) = ts.
Proof.
  intros Hts. destruct ts as [|t ts]; [reflexivity|].
  pose proof Hts as Hts'. simpl in Hts'. apply andb_prop in Hts' as [Ht Hrest].
  unfold parseLicenseExpression, Separator.split. rewrite join_orTail.
  rewrite (splitLoop_identifiers ts _ t "" Ht Hrest) by lia.
  now apply keep_identifiers.
Qed.

Lemma mapM_types (entries : list JsValue) (types : list string) :
  Forall2 (fun entry t => Json.get entry "type" = Normal (JString t))
          entries types ->
  mapM (fun l => Json.get l "type") entries = Normal (map JString types).
Proof.
  induction 1 as [|entry t entries types Ht _ IH]; simpl; [reflexivity|].
  now rewrite Ht, IH.
Qed.

Lemma joined_strings (types : list string) :
  mapM Json.joined (map JString types) = Normal types.
Proof. induction types as [|t types IH]; simpl; [reflexivity | now rewrite IH]. Qed.

(** The legacy form round-trips: when a manifest has no truthy [license]
    but a non-empty [licenses] array whose elements have identifiers (not
    empty, no white space) for their types, the string [extractLicense]
    builds parses back to exactly those types, in order. *)
Theorem legacy_licenses_round_trip (licenseField : JsValue)
        (entries : list JsValue) (types : list string) :
  Json.truthy licenseField = false ->
  entries <> [] ->
  Forall2 (fun entry t => Json.get entry "type" = Normal (JString t))
          entries types ->
  forallb isIdentifier types = true ->
  exists l,
    extractLicense {| manifestLicense := licenseField;
                      manifestLicenses := JArray entries |}
    = Normal (JString l)
    /\ parseLicenseExpression l = types.
Proof.
  intros Hf Hne Ht Hid. destruct entries as [|entry entries]; [congruence|].
  unfold extractLicense. cbn [manifestLicense manifestLicenses].
  rewrite Hf, (mapM_types _ _ Ht). cbn [bind]. rewrite joined_strings.
  cbn [bind]. eexists. split; [reflexivity|]. now apply parse_join_identifiers.
Qed.

Lemma legacy_licenses_round_trip_witness :
  exists l,
    extractLicense
      {| manifestLicense := JUndefined;
         manifestLicenses :=
           JArray [ JObject [("type", JString "MIT");
                             ("url", JString "https://a")];
                    JObject [("type", JString "ORACLE")];
                    JObject [("url", JNull); ("type", JString "or")] ] |}
    = Normal (JString l)
    /\ parseLicenseExpression l = ["MIT"; "ORACLE"; "or"].
Proof.
  apply (legacy_licenses_round_trip JUndefined
           [ JObject [("type", JString "MIT"); ("url", JString "https://a")];
             JObject [("type", JString "ORACLE")];
             JObject [("url", JNull); ("type", JString "or")] ]
           ["MIT"; "ORACLE"; "or"]).
  - reflexivity.
  - discriminate.
  - repeat constructor.
  - reflexivity.
Defined.

End ParserStability.

(* ================================================================== *)
(** * More on the policy evaluator *)

Section Verdicts.

(** Every verdict of non-compliance carries a non-empty reason and every
    verdict of compliance carries none; so the guard of lib.ts:168, which
    also asks for the reason, drops no verdict of non-compliance. *)
Theorem verdict_has_reason_iff_refused (license0 : string)
        (allow deny : list string) :
  (checkAllowed (isLicenseAllowed license0 allow deny) = true
   <-> checkReason (isLicenseAllowed license0 allow deny) = None)
  /\ (checkAllowed (isLicenseAllowed license0 allow deny) = false
      <-> truthy (checkReason (isLicenseAllowed license0 allow deny)) = true).
Proof.
  unfold isLicenseAllowed, evaluateLicenses.
  destruct (firstDisallowed _ deny); simpl.
  - repeat split; congruence.
  - destruct (Nat.ltb 0 (List.length allow)); simpl;
      [destruct (negb _); simpl|]; repeat split; congruence.
Qed.

Lemma checkAllowed_compliantB (licenses allow deny : list string) :
  checkAllowed (evaluateLicenses licenses allow deny)
  = compliantB licenses allow deny.
Proof.
  unfold compliantB. destruct (denied licenses deny) eqn:Hd.
  - apply firstDisallowed_denied in Hd as [c Hc].
    now rewrite (evaluateLicenses_denied _ _ _ _ Hc).
  - rewrite (evaluateLicenses_not_denied _ _ _ Hd).
    destruct allow; [reflexivity|].
    now destruct (permitted licenses (s :: allow)).
Qed.

Lemma startsWith_spec (s x : string) :
  Js.startsWith s x = true <-> exists post, s = x ++ post.
Proof.
  revert s. induction x as [|a x IH]; intros s.
  - simpl. split; [eauto | now destruct s].
  - destruct s as [|b s].
    + simpl. split; [discriminate | intros [post H]; discriminate].
    + cbn [Js.startsWith]. rewrite andb_true_iff, Ascii.eqb_eq, IH. split.
      * intros [-> [post ->]]. now exists post.
      * intros [post [= -> ->]]. split; [reflexivity | now exists post].
Qed.

(** [includes] is the search for a run of consecutive code units. *)
Lemma includes_spec (s x : string) :
  Js.includes s x = true <-> Substring x s.
Proof.
  induction s as [|c s IH].
  - cbn [Js.includes]. rewrite orb_false_r, startsWith_spec. split.
    + intros [post E]. exists "", post. exact E.
    + intros (pre & post & E). symmetry in E.
      apply append_eq_nil in E as [-> E]. simpl in E. eauto.
  - cbn [Js.includes]. rewrite orb_true_iff, startsWith_spec, IH. split.
    + intros [[post E]|(pre & post & ->)].
      * exists "", post. exact E.
      * exists (String c pre), post. reflexivity.
    + intros (pre & post & E). destruct pre as [|d pre].
      * left. eauto.
      * right. simpl in E. injection E as _ ->. now exists pre, post.
Qed.

Lemma includes_trans (a b c : string) :
  Js.includes a b = true -> Js.includes b c = true -> Js.includes a c = true.
Proof.
  rewrite !includes_spec. intros H1 H2. now apply Substring_trans with b.
Qed.

Lemma includes_refl (a : string) : Js.includes a a = true.
Proof. apply includes_spec, Substring_refl. Qed.

Lemma subsumes_existsb (shorter entries : list string) (c : string) :
  subsumes shorter entries = true ->
  existsb (fun d => lowerIncludes c d) entries = true ->
  existsb (fun d => lowerIncludes c d) shorter = true.
Proof.
  unfold subsumes. rewrite forallb_forall, !existsb_exists.
  intros Hs (x & Hx & Hcx). pose proof (Hs x Hx) as Hex.
  apply existsb_exists in Hex as (y & Hy & Hxy).
  exists y. split; [exact Hy|]. unfold lowerIncludes in *.
  now apply includes_trans with (Js.toLowerCase x).
Qed.

Lemma subsumes_denied (shorter entries licenses : list string) :
  subsumes shorter entries = true ->
  denied licenses entries = true -> denied licenses shorter = true.
Proof.
  intros Hs. unfold denied. rewrite !existsb_exists.
  intros (c & Hc & Hd). exists c. split; [exact Hc|].
  now apply subsumes_existsb with entries.
Qed.

Lemma subsumes_append (entries more : list string) :
  subsumes (entries ++ more) entries = true.
Proof.
  unfold subsumes. apply forallb_forall. intros x Hx.
  apply existsb_exists. exists x. split; [apply in_or_app; now left|].
  apply includes_refl.
Qed.

Lemma compliant_under_stricter (licenses allow deny deny' : list string) :
  subsumes deny' deny = true ->
  compliantB licenses allow deny' = true ->
  compliantB licenses allow deny = true.
Proof.
  intros Hs. unfold compliantB. intros [Hd Ha]%andb_prop.
  rewrite Ha, andb_true_r. apply negb_true_iff in Hd. apply negb_true_iff.
  destruct (denied licenses deny) eqn:E; [|reflexivity].
  rewrite (subsumes_denied deny' deny _ Hs E) in Hd. discriminate.
Qed.

(** Deny lists are ordered by strictness.  When every entry of the deny
    list [deny] includes, in lower case, some entry of [deny'] -- as when an
    entry is cut down to a part of it -- every license that is compliant
    under [deny'] is compliant under [deny], the allow list being the same.
    In particular entries added to a deny list never turn a refused license
    into a compliant one. *)
Theorem stricter_deny_list (license0 : string) (allow deny deny' : list string) :
  (subsumes deny' deny = true ->
   checkAllowed (isLicenseAllowed license0 allow deny') = true ->
   checkAllowed (isLicenseAllowed license0 allow deny) = true)
  /\ (forall more,
         checkAllowed (isLicenseAllowed license0 allow (deny ++ more)) = true ->
         checkAllowed (isLicenseAllowed license0 allow deny) = true).
Proof.
  unfold isLicenseAllowed. split.
  - intros Hs. rewrite !checkAllowed_compliantB.
    now apply compliant_under_stricter.
  - intros more. rewrite !checkAllowed_compliantB.
    apply compliant_under_stricter, subsumes_append.
Qed.

(** Allow lists are ordered the other way, as long as they are not empty:
    when every entry of the non-empty allow list [allow] includes, in lower
    case, some entry of [allow'], every license compliant under [allow] is
    compliant under [allow'].  The empty allow list is outside this order:
    it admits every license that is not denied, and adding a first entry to
    it can refuse a license that passed. *)
Theorem wider_allow_list (license0 : string) (allow allow' deny : list string) :
  (allow <> [] ->
   subsumes allow' allow = true ->
   checkAllowed (isLicenseAllowed license0 allow deny) = true ->
   checkAllowed (isLicenseAllowed license0 allow' deny) = true)
  /\ (checkAllowed (isLicenseAllowed license0 allow' deny) = true ->
      checkAllowed (isLicenseAllowed license0 [] deny) = true).
Proof.
  unfold isLicenseAllowed. rewrite !checkAllowed_compliantB. unfold compliantB.
  split.
  - intros Hne Hs [Hd Ha]%andb_prop. rewrite Hd. simpl.
    destruct allow as [|a allow]; [congruence|].
    destruct allow' as [|a' allow']; [reflexivity|].
    exact (subsumes_denied _ _ _ Hs Ha).
  - intros [-> _]%andb_prop. reflexivity.
Qed.

End Verdicts.

Lemma stricter_deny_list_witness :
  (subsumes ["GPL"] ["GPL-3.0-only"; "LGPL-2.1-only"] = true
   /\ checkAllowed (isLicenseAllowed "MIT OR ISC" ["MIT"] ["GPL"]) = true
   /\ checkAllowed
        (isLicenseAllowed "MIT OR ISC" ["MIT"] ["GPL-3.0-only"; "LGPL-2.1-only"])
      = true)
  /\ (checkAllowed
        (isLicenseAllowed "MIT" [] (["GPL-3.0-only"] ++ ["ISC"])) = true
      /\ checkAllowed (isLicenseAllowed "MIT" [] ["GPL-3.0-only"]) = true).
Proof.
  split.
  - split; [reflexivity|]. split; [reflexivity|].
    exact (proj1 (stricter_deny_list "MIT OR ISC" ["MIT"]
                                     ["GPL-3.0-only"; "LGPL-2.1-only"] ["GPL"])
                 eq_refl eq_refl).
  - split; [reflexivity|].
    exact (proj2 (stricter_deny_list "MIT" [] ["GPL-3.0-only"] [])
                 ["ISC"] eq_refl).
Defined.

Lemma wider_allow_list_witness :
  (["Apache-2.0"; "BSD-3-Clause"] <> []
   /\ subsumes ["BSD"; "Apache"] ["Apache-2.0"; "BSD-3-Clause"] = true
   /\ checkAllowed
        (isLicenseAllowed "BSD-3-Clause" ["Apache-2.0"; "BSD-3-Clause"] [])
      = true)
  /\ checkAllowed (isLicenseAllowed "BSD-3-Clause" ["BSD"; "Apache"] []) = true.
Proof.
  split; [repeat split; [discriminate | ..]; reflexivity|].
  exact (proj1 (wider_allow_list "BSD-3-Clause"
                                 ["Apache-2.0"; "BSD-3-Clause"]
                                 ["BSD"; "Apache"] [])
               ltac:(discriminate) eq_refl eq_refl).
Defined.

(* ================================================================== *)
(** * Letter case *)

Section LetterCase.

Lemma toLowerChar_idempotent (c : ascii) :
  Js.toLowerChar (Js.toLowerChar c) = Js.toLowerChar c.
Proof. each_code_unit c. Qed.

Lemma toLowerChar_white (c : ascii) :
  Js.isWhiteSpace (Js.toLowerChar c) = Js.isWhiteSpace c.
Proof. each_code_unit c. Qed.

Lemma toLowerChar_isO (c : ascii) :
  Separator.isO (Js.toLowerChar c) = Separator.isO c.
Proof. each_code_unit c. Qed.

Lemma toLowerChar_isR (c : ascii) :
  Separator.isR (Js.toLowerChar c) = Separator.isR c.
Proof. each_code_unit c. Qed.

Lemma toLowerCase_idempotent (s : string) :
  Js.toLowerCase (Js.toLowerCase s) = Js.toLowerCase s.
Proof.
  induction s as [|c s IH]; simpl; [reflexivity|].
  now rewrite toLowerChar_idempotent, IH.
Qed.

Lemma toLowerCase_append (a b : string) :
  Js.toLowerCase (a ++ b) = Js.toLowerCase a ++ Js.toLowerCase b.
Proof. induction a as [|c a IH]; simpl; [reflexivity | now rewrite IH]. Qed.

Lemma toLowerCase_length (s : string) :
  String.length (Js.toLowerCase s) = String.length s.
Proof. induction s as [|c s IH]; simpl; [reflexivity | now rewrite IH]. Qed.

Lemma toLowerCase_isEmpty (s : string) :
  Js.isEmpty (Js.toLowerCase s) = Js.isEmpty s.
Proof. now destruct s. Qed.

Lemma toLowerCase_trimStart (s : string) :
  Js.trimStart (Js.toLowerCase s) = Js.toLowerCase (Js.trimStart s).
Proof.
  induction s as [|c s IH]; simpl; [reflexivity|].
  rewrite toLowerChar_white. now destruct (Js.isWhiteSpace c).
Qed.

Lemma toLowerCase_trimEnd (s : string) :
  Js.trimEnd (Js.toLowerCase s) = Js.toLowerCase (Js.trimEnd s).
Proof.
  induction s as [|c s IH]; simpl; [reflexivity|].
  rewrite toLowerChar_white, IH, toLowerCase_isEmpty.
  now destruct (Js.isWhiteSpace c && Js.isEmpty (Js.trimEnd s)).
Qed.

Lemma toLowerCase_trim (s : string) :
  Js.trim (Js.toLowerCase s) = Js.toLowerCase (Js.trim s).
Proof. unfold Js.trim. now rewrite toLowerCase_trimStart, toLowerCase_trimEnd. Qed.

Lemma toLowerCase_whiteSpacePlus (k k' : string -> option string) (s : string) :
  (forall t, k' (Js.toLowerCase t) = option_map Js.toLowerCase (k t)) ->
  Separator.whiteSpacePlus k' (Js.toLowerCase s)
  = option_map Js.toLowerCase (Separator.whiteSpacePlus k s).
Proof.
  intros Hk. induction s as [|c s IH]; simpl; [reflexivity|].
  rewrite toLowerChar_white. destruct (Js.isWhiteSpace c); [|reflexivity].
  rewrite IH. destruct (Separator.whiteSpacePlus k s); simpl; [reflexivity|].
  apply Hk.
Qed.

Lemma toLowerCase_matchAt (s : string) :
  Separator.matchAt (Js.toLowerCase s)
  = option_map Js.toLowerCase (Separator.matchAt s).
Proof.
  unfold Separator.matchAt. apply toLowerCase_whiteSpacePlus.
  intros [|o [|r t]]; simpl; try reflexivity.
  rewrite toLowerChar_isO, toLowerChar_isR.
  destruct (Separator.isO o && Separator.isR r); [|reflexivity].
  now apply toLowerCase_whiteSpacePlus.
Qed.

Lemma toLowerCase_splitLoop (fuel : nat) :
  forall cur s,
    Separator.splitLoop fuel (Js.toLowerCase cur) (Js.toLowerCase s)
    = map Js.toLowerCase (Separator.splitLoop fuel cur s).
Proof.
  induction fuel as [|fuel IH]; intros cur s.
  - simpl. now rewrite toLowerCase_append.
  - destruct s as [|c s]; [reflexivity|].
    change (Js.toLowerCase (String c s))
      with (String (Js.toLowerChar c) (Js.toLowerCase s)).
    cbn [Separator.splitLoop].
    change (String (Js.toLowerChar c) (Js.toLowerCase s))
      with (Js.toLowerCase (String c s)).
    rewrite toLowerCase_matchAt.
    destruct (Separator.matchAt (String c s)) as [rest|]; simpl.
    + f_equal. apply (IH "" rest).
    + rewrite <- IH. now rewrite toLowerCase_append.
Qed.

(** Lowering the case of a license expression lowers the case of its
    identifiers and changes nothing else. *)
Lemma toLowerCase_parse (raw : string) :
  parseLicenseExpression (Js.toLowerCase raw)
  = map Js.toLowerCase (parseLicenseExpression raw).
Proof.
  unfold parseLicenseExpression, Separator.split.
  rewrite toLowerCase_length.
  change "" with (Js.toLowerCase "") at 1. rewrite toLowerCase_splitLoop.
  induction (Separator.splitLoop _ "" raw) as [|seg segs IH]; [reflexivity|].
  simpl. rewrite toLowerCase_trim, toLowerCase_length, IH.
  now destruct (Nat.ltb 0 (String.length (Js.trim seg))).
Qed.

Lemma existsb_pointwise {A} (f g : A -> bool) (xs : list A) :
  (forall x, f x = g x) -> existsb f xs = existsb g xs.
Proof. intros H. induction xs as [|x xs IH]; simpl; [reflexivity | now rewrite H, IH]. Qed.

Lemma lowerIncludes_lower_l (c x : string) :
  lowerIncludes (Js.toLowerCase c) x = lowerIncludes c x.
Proof. unfold lowerIncludes. now rewrite toLowerCase_idempotent. Qed.

Lemma denied_lower (licenses entries : list string) :
  denied (map Js.toLowerCase licenses) entries = denied licenses entries.
Proof.
  unfold denied. induction licenses as [|c licenses IH]; [reflexivity|].
  simpl. rewrite IH. f_equal. apply existsb_pointwise.
  intros x. apply lowerIncludes_lower_l.
Qed.

Lemma existsb_lower_entries (c : string) (entries : list string) :
  existsb (fun x => lowerIncludes c x) entries
  = existsb (fun x => Js.includes (Js.toLowerCase c) x)
            (map Js.toLowerCase entries).
Proof. induction entries as [|x entries IH]; simpl; [reflexivity | now rewrite IH]. Qed.

Lemma firstDisallowed_entries (licenses deny deny' : list string) :
  map Js.toLowerCase deny = map Js.toLowerCase deny' ->
  firstDisallowed licenses deny = firstDisallowed licenses deny'.
Proof.
  intros E. induction licenses as [|c licenses IH]; [reflexivity|]. simpl.
  now rewrite !existsb_lower_entries, E, IH.
Qed.

(** The casing of the policy does not matter: two allow lists and two deny
    lists that agree entry by entry up to letter case give the same answer
    on every license, reason included. *)
Theorem policy_case_is_irrelevant (license0 : string)
        (allow allow' deny deny' : list string) :
  map Js.toLowerCase allow = map Js.toLowerCase allow' ->
  map Js.toLowerCase deny = map Js.toLowerCase deny' ->
  isLicenseAllowed license0 allow deny = isLicenseAllowed license0 allow' deny'.
Proof.
  intros Ea Ed. unfold isLicenseAllowed, evaluateLicenses.
  rewrite (firstDisallowed_entries _ deny deny' Ed).
  destruct (firstDisallowed _ deny'); [reflexivity|].
  assert (El : List.length allow = List.length allow').
  { rewrite <- (length_map Js.toLowerCase allow), Ea. apply length_map. }
  rewrite El. destruct (Nat.ltb 0 (List.length allow')); [|reflexivity].
  assert (Ep : forall licenses,
             existsb (fun license =>
                        existsb (fun a => lowerIncludes license a) allow)
                     licenses
             = existsb (fun license =>
                          existsb (fun a => lowerIncludes license a) allow')
                       licenses).
  { intros licenses. apply existsb_pointwise. intros c.
    now rewrite !existsb_lower_entries, Ea. }
  now rewrite Ep.
Qed.

(** Nor does the casing of the license: two license strings that agree up
    to letter case (the token OR included) are compliant or not
    together. *)
Theorem license_case_is_irrelevant (license1 license2 : string)
        (allow deny : list string) :
  Js.toLowerCase license1 = Js.toLowerCase license2 ->
  checkAllowed (isLicenseAllowed license1 allow deny)
  = checkAllowed (isLicenseAllowed license2 allow deny).
Proof.
  intros E.
  assert (H : forall l,
             checkAllowed (isLicenseAllowed l allow deny)
             = compliantB (parseLicenseExpression (Js.toLowerCase l)) allow deny).
  { intros l. unfold isLicenseAllowed.
    rewrite checkAllowed_compliantB, toLowerCase_parse.
    unfold compliantB. rewrite denied_lower.
    destruct allow; [reflexivity|]. f_equal. symmetry. apply denied_lower. }
  now rewrite !H, E.
Qed.

End LetterCase.

Lemma policy_case_is_irrelevant_witness :
  isLicenseAllowed "MIT OR GPL-3.0-only" ["mit"; "APACHE-2.0"] ["gpl-3.0-ONLY"]
  = isLicenseAllowed "MIT OR GPL-3.0-only" ["MIT"; "Apache-2.0"] ["GPL-3.0-only"].
Proof.
  exact (policy_case_is_irrelevant
           "MIT OR GPL-3.0-only" ["mit"; "APACHE-2.0"] ["MIT"; "Apache-2.0"]
           ["gpl-3.0-ONLY"] ["GPL-3.0-only"] eq_refl eq_refl).
Defined.

Lemma license_case_is_irrelevant_witness :
  checkAllowed (isLicenseAllowed "mit or gpl-3.0-ONLY" ["MIT"] ["GPL-3.0-only"])
  = checkAllowed (isLicenseAllowed "MIT OR GPL-3.0-only" ["MIT"] ["GPL-3.0-only"]).
Proof.
  exact (license_case_is_irrelevant
           "mit or gpl-3.0-ONLY" "MIT OR GPL-3.0-only" ["MIT"] ["GPL-3.0-only"]
           eq_refl).
Defined.

(* ================================================================== *)
(** * More on the aggregator *)

Section Accounting.

Variable e : Engine.

(** The warnings of a run that returns: one line for each package of the
    list that is not ignored and has the license UNKNOWN, a package that
    occurs twice giving two lines, in the order of the packages, and no
    other line. *)
Theorem warnings_name_the_unknown (packages : list PackageInfo)
        (options : LicenseComplianceOptions) (run : Run) :
  checkLicenseComplianceRun e packages options = Normal run ->
  warnings run
  = map (fun pkg => name pkg ++ ": No license information found")
        (filter (fun pkg =>
                   match isIgnored e (name pkg) (given (ignores options)) with
                   | Normal false => license pkg =? "UNKNOWN"
                   | _ => false
                   end)
                packages).
Proof.
  intros [Ha ->]%run_shape. simpl. unfold warningOf. f_equal.
  apply filter_ext_in. intros pkg Hin.
  unfold answered in Ha. rewrite Forall_forall in Ha.
  destruct (Ha pkg Hin) as [b Hb]. unfold unknownB, ignoredB.
  change (orEmpty (ignores options)) with (given (ignores options)) in *.
  rewrite Hb. now destruct b.
Qed.

Lemma three_ways (ignore : list string) (packages : list PackageInfo) :
  List.length packages
  = List.length (filter (ignoredB e ignore) packages)
    + List.length (filter (unknownB e ignore) packages)
    + List.length (filter (evaluatedB e ignore) packages).
Proof.
  induction packages as [|pkg rest IH]; [reflexivity|]. simpl.
  assert (Eu : unknownB e ignore pkg
               = negb (ignoredB e ignore pkg) && (license pkg =? "UNKNOWN"))
    by reflexivity.
  assert (Ee : evaluatedB e ignore pkg
               = negb (ignoredB e ignore pkg) && negb (license pkg =? "UNKNOWN"))
    by reflexivity.
  rewrite Eu, Ee.
  destruct (ignoredB e ignore pkg), (license pkg =? "UNKNOWN"); simpl; lia.
Qed.

Lemma filter_and_length {A} (f g : A -> bool) (xs : list A) :
  List.length (filter (fun x => f x && g x) xs) <= List.length (filter f xs).
Proof.
  induction xs as [|x xs IH]; simpl; [lia|].
  destruct (f x), (g x); simpl; lia.
Qed.

(** Every package goes exactly one of three ways: it is ignored, or it is
    warned about, or its license is handed to the evaluator; and there are
    no more violations than evaluations. *)
Theorem every_package_is_accounted_for (packages : list PackageInfo)
        (options : LicenseComplianceOptions) (run : Run) :
  checkLicenseComplianceRun e packages options = Normal run ->
  exists skipped,
    Subsequence skipped packages
    /\ (forall pkg,
           In pkg skipped
           <-> In pkg packages
               /\ isIgnored e (name pkg) (orEmpty (ignores options)) = Normal true)
    /\ List.length packages
       = List.length skipped + List.length (warnings run)
         + List.length (evaluated run)
    /\ List.length (violations run) <= List.length (evaluated run).
Proof.
  intros [Ha ->]%run_shape.
  exists (filter (ignoredB e (orEmpty (ignores options))) packages).
  split; [apply filter_Subsequence|]. split; [|split].
  - intros pkg. rewrite filter_In. unfold ignoredB. split.
    + intros [Hin Hi]. split; [exact Hin|].
      destruct (isIgnored e (name pkg) _) as [[]|]; congruence.
    + intros [Hin Hi]. now rewrite Hi.
  - simpl. rewrite !length_map. apply three_ways.
  - simpl. rewrite !length_map. apply filter_and_length.
Qed.

Lemma answered_append (ignore : list string) (xs ys : list PackageInfo) :
  answered e ignore (xs ++ ys) <-> answered e ignore xs /\ answered e ignore ys.
Proof. unfold answered. apply Forall_app. Qed.

(** Packages are judged one by one: the check of a concatenated list
    returns exactly when the checks of the two parts return, and its
    violations are theirs, concatenated. *)
Theorem check_of_concatenation (xs ys : list PackageInfo)
        (options : LicenseComplianceOptions) (vs : list LicenseViolation) :
  checkLicenseCompliance e (xs ++ ys) options = Normal vs
  <-> exists vs1 vs2,
        checkLicenseCompliance e xs options = Normal vs1
        /\ checkLicenseCompliance e ys options = Normal vs2
        /\ vs = (vs1 ++ vs2)%list.
Proof.
  split.
  - intros (run & Hrun & ->)%check_of_run.
    apply run_shape in Hrun as [[Hx Hy]%answered_append ->].
    eexists. eexists. split; [|split].
    + apply check_of_run. eexists. split; [now apply run_returns | reflexivity].
    + apply check_of_run. eexists. split; [now apply run_returns | reflexivity].
    + simpl. now rewrite filter_app, map_app.
  - intros (vs1 & vs2 & (r1 & H1 & ->)%check_of_run
            & (r2 & H2 & ->)%check_of_run & ->).
    apply run_shape in H1 as [Hx ->]. apply run_shape in H2 as [Hy ->].
    apply check_of_run. eexists. split.
    + apply run_returns, answered_append. now split.
    + simpl. now rewrite filter_app, map_app.
Qed.

End Accounting.

Lemma warnings_name_the_unknown_witness :
  checkLicenseComplianceRun sampleEngine
    [pkgOf "a" "UNKNOWN"; pkgOf "eslint-x" "UNKNOWN"; pkgOf "b" "MIT";
     pkgOf "a" "UNKNOWN"; pkgOf "c" "unknown"]
    (policy [] [] ["eslint-*"])
  = Normal {| violations := [];
              warnings := ["a: No license information found";
                           "a: No license information found"];
              evaluated := ["MIT"; "unknown"] |}
  /\ ["a: No license information found"; "a: No license information found"]
     = map (fun pkg => name pkg ++ ": No license information found")
           (filter (fun pkg =>
                      match isIgnored sampleEngine (name pkg)
                                      (given (Some ["eslint-*"])) with
                      | Normal false => license pkg =? "UNKNOWN"
                      | _ => false
                      end)
                   [pkgOf "a" "UNKNOWN"; pkgOf "eslint-x" "UNKNOWN";
                    pkgOf "b" "MIT"; pkgOf "a" "UNKNOWN"; pkgOf "c" "unknown"]).
Proof.
  split; [reflexivity|].
  exact (warnings_name_the_unknown sampleEngine
           [pkgOf "a" "UNKNOWN"; pkgOf "eslint-x" "UNKNOWN"; pkgOf "b" "MIT";
            pkgOf "a" "UNKNOWN"; pkgOf "c" "unknown"]
           (policy [] [] ["eslint-*"])
           {| violations := [];
              warnings := ["a: No license information found";
                           "a: No license information found"];
              evaluated := ["MIT"; "unknown"] |}
           eq_refl).
Defined.

Lemma every_package_is_accounted_for_witness :
  exists skipped,
    Subsequence skipped
      [pkgOf "a" "UNKNOWN"; pkgOf "eslint-x" "GPL-3.0-only"; pkgOf "b" "MIT";
       pkgOf "c" "GPL-3.0-only"]
    /\ (forall pkg,
           In pkg skipped
           <-> In pkg [pkgOf "a" "UNKNOWN"; pkgOf "eslint-x" "GPL-3.0-only";
                       pkgOf "b" "MIT"; pkgOf "c" "GPL-3.0-only"]
               /\ isIgnored sampleEngine
                    (name pkg)
                    (orEmpty (ignores (policy [] ["GPL-3.0-only"] ["eslint-*"])))
                  = Normal true)
    /\ 4 = List.length skipped + 1 + 2
    /\ 1 <= 2.
Proof.
  exact (every_package_is_accounted_for sampleEngine
           [pkgOf "a" "UNKNOWN"; pkgOf "eslint-x" "GPL-3.0-only"; pkgOf "b" "MIT";
            pkgOf "c" "GPL-3.0-only"]
           (policy [] ["GPL-3.0-only"] ["eslint-*"])
           {| violations :=
                [ {| package := "c"; violationLicense := "GPL-3.0-only";
                     reason := "License 'GPL-3.0-only' is not allowed" |} ];
              warnings := ["a: No license information found"];
              evaluated := ["MIT"; "GPL-3.0-only"] |}
           eq_refl).
Defined.

Lemma check_of_concatenation_witness :
  exists vs1 vs2,
    checkLicenseCompliance sampleEngine [pkgOf "a" "GPL-3.0-only"]
                           (policy ["MIT"] ["GPL-3.0-only"] []) = Normal vs1
    /\ checkLicenseCompliance sampleEngine [pkgOf "b" "ISC"; pkgOf "a" "GPL-3.0-only"]
                              (policy ["MIT"] ["GPL-3.0-only"] []) = Normal vs2
    /\ [ {| package := "a"; violationLicense := "GPL-3.0-only";
            reason := "License 'GPL-3.0-only' is not allowed" |};
         {| package := "b"; violationLicense := "ISC";
            reason := "None of the licenses 'ISC' are in the allowed list" |};
         {| package := "a"; violationLicense := "GPL-3.0-only";
            reason := "License 'GPL-3.0-only' is not allowed" |} ]
       = (vs1 ++ vs2)%list.
Proof.
  exact (proj1 (check_of_concatenation sampleEngine
                  [pkgOf "a" "GPL-3.0-only"]
                  [pkgOf "b" "ISC"; pkgOf "a" "GPL-3.0-only"]
                  (policy ["MIT"] ["GPL-3.0-only"] []) _)
               eq_refl).
Defined.

(* ================================================================== *)
(** * More on ignore patterns *)

Section Patterns.

Variable e : Engine.

Lemma some_append {A} (f : A -> Completion bool) (xs ys : list A) :
  some f (xs ++ ys)
  = (b <- some f xs ;; if b then Normal true else some f ys).
Proof.
  induction xs as [|x xs IH]; simpl; [reflexivity|].
  destruct (f x) as [[]|]; simpl; auto.
Qed.

Lemma first_match_or_rest (packageName : string) (front behind : list string) :
  (isIgnored e packageName front = Normal true ->
   isIgnored e packageName (front ++ behind) = Normal true)
  /\ (isIgnored e packageName front = Normal false ->
      isIgnored e packageName (front ++ behind) = isIgnored e packageName behind).
Proof.
  unfold isIgnored. rewrite some_append.
  split; intros H; now rewrite H.
Qed.

(** The patterns are tried in order and the first match ends the search:
    behind a pattern that matches, the rest of the list is not looked at, so
    a pattern there that the constructor would refuse does no harm; a list
    that does not match is followed by whatever comes behind it. *)
Theorem first_match_ends_the_search (packageName : string)
        (front behind : list string) :
  (isIgnored e packageName front = Normal true ->
   isIgnored e packageName (front ++ behind) = Normal true)
  /\ (isIgnored e packageName front = Normal false ->
      isIgnored e packageName (front ++ behind) = isIgnored e packageName behind)
  /\ (forall err,
         isIgnored e packageName front = Throw err ->
         isIgnored e packageName (front ++ behind) = Throw err).
Proof.
  unfold isIgnored. rewrite some_append.
  repeat split; intros; now match goal with H : _ = _ |- _ => rewrite H end.
Qed.

(** The conversion of a pattern rewrites the two wildcards and nothing
    else: the third replacement, of bracket groups, puts back exactly what
    it matched, whatever the pattern is. *)
Theorem conversion_rewrites_wildcards_only (pattern : string) :
  regexPattern pattern
  = Js.replaceChar "?" "." (Js.replaceChar "*" ".*" pattern)
  /\ forall fuel s, replaceBracketGroups fuel s = s.
Proof.
  split; [apply regexPattern_wildcards|].
  intros fuel s. apply replaceBracketGroups_id.
Qed.

Lemma wildcardsToRegExp_dot (pattern : string) :
  wildcardsToRegExp (Js.replaceChar "." "?" pattern) = wildcardsToRegExp pattern.
Proof.
  induction pattern as [|c pattern IH]; [reflexivity|].
  cbn [Js.replaceChar]. destruct (c =? ".")%char eqn:E.
  - apply Ascii.eqb_eq in E. subst c.
    change ("?" ++ Js.replaceChar "." "?" pattern)
      with (String "?" (Js.replaceChar "." "?" pattern)).
    rewrite !wildcardsToRegExp_cons. simpl. now rewrite IH.
  - rewrite !wildcardsToRegExp_cons. now rewrite IH.
Qed.

(** A dot in an ignore pattern is a wildcard: the pattern behaves on every
    name as the pattern with [?] in the place of each dot, and so does a
    list of patterns. *)
Theorem dot_in_pattern_is_question_mark (packageName : string)
        (patterns : list string) :
  (forall pattern,
      matchesPattern e packageName (Js.replaceChar "." "?" pattern)
      = matchesPattern e packageName pattern)
  /\ isIgnored e packageName (map (Js.replaceChar "." "?") patterns)
     = isIgnored e packageName patterns.
Proof.
  assert (H : forall pattern,
             matchesPattern e packageName (Js.replaceChar "." "?" pattern)
             = matchesPattern e packageName pattern).
  { intros pattern. unfold matchesPattern.
    now rewrite !regexPattern_wildcards, wildcardsToRegExp_dot. }
  split; [exact H|]. unfold isIgnored.
  induction patterns as [|pattern rest IH]; [reflexivity|].
  simpl. now rewrite H, IH.
Qed.

Lemma isIgnored_more (packageName : string) (ignore more : list string) (b : bool) :
  Forall (compiles e) more ->
  isIgnored e packageName ignore = Normal b ->
  exists b', isIgnored e packageName (ignore ++ more) = Normal b'
             /\ (b = true -> b' = true).
Proof.
  intros Hm Hb. destruct (first_match_or_rest packageName ignore more)
    as (H1 & H2). destruct b.
  - exists true. auto.
  - rewrite (H2 Hb). destruct (isIgnored_compiles e packageName more Hm) as [b' ->].
    exists b'. split; [reflexivity | discriminate].
Qed.

End Patterns.

Lemma first_match_ends_the_search_witness :
  (isIgnored sampleEngine "lodash" ["@types/*"; "lodash"] = Normal true
   /\ isIgnored sampleEngine "lodash" (["@types/*"; "lodash"] ++ ["c++"; "("]) = Normal true)
  /\ (isIgnored sampleEngine "react" ["@types/*"; "lodash"] = Normal false
      /\ isIgnored sampleEngine "react" (["@types/*"; "lodash"] ++ ["c++"; "("])
         = isIgnored sampleEngine "react" ["c++"; "("]).
Proof.
  split.
  - split; [reflexivity|].
    exact (proj1 (first_match_ends_the_search sampleEngine
                    "lodash" ["@types/*"; "lodash"] ["c++"; "("]) eq_refl).
  - split; [reflexivity|].
    exact (proj1 (proj2 (first_match_ends_the_search sampleEngine
                           "react" ["@types/*"; "lodash"] ["c++"; "("]))
                 eq_refl).
Defined.

(* ================================================================== *)
(** * Ignoring more *)

Section IgnoringMore.

Variable e : Engine.

Lemma filter_Subsequence_impl {A} (f g : A -> bool) (xs : list A) :
  (forall x, In x xs -> f x = true -> g x = true) ->
  Subsequence (filter f xs) (filter g xs).
Proof.
  induction xs as [|x xs IH]; intros H; simpl; [constructor|].
  assert (IH' : Subsequence (filter f xs) (filter g xs))
    by (apply IH; intros y Hy; apply H; now right).
  destruct (f x) eqn:Ef.
  - rewrite (H x (or_introl eq_refl) Ef). now constructor.
  - destruct (g x); [now constructor | exact IH'].
Qed.

Lemma Subsequence_map {A B} (h : A -> B) (xs ys : list A) :
  Subsequence xs ys -> Subsequence (map h xs) (map h ys).
Proof. induction 1; simpl; now constructor. Qed.

Lemma violatingB_more (allow deny ignore more : list string) (pkg : PackageInfo)
      (b : bool) :
  Forall (compiles e) more ->
  isIgnored e (name pkg) ignore = Normal b ->
  violatingB e allow deny (ignore ++ more) pkg = true ->
  violatingB e allow deny ignore pkg = true.
Proof.
  intros Hm Hb. destruct (isIgnored_more e _ _ _ _ Hm Hb) as (b' & Hb' & Himp).
  unfold violatingB, evaluatedB, ignoredB. rewrite Hb, Hb'.
  destruct b.
  - rewrite (Himp eq_refl). simpl. discriminate.
  - destruct b'; simpl; [discriminate | trivial].
Qed.

(** Ignoring more never adds a violation: with further ignore patterns
    (that the constructor accepts) behind the ones in place, the check
    still returns, and its violations are those of before with some left
    out, the order kept. *)
Theorem more_ignores_fewer_violations (packages : list PackageInfo)
        (allow deny ignore more : list string) (vs : list LicenseViolation) :
  Forall (compiles e) more ->
  checkLicenseCompliance e packages (policy allow deny ignore) = Normal vs ->
  exists vs',
    checkLicenseCompliance e packages (policy allow deny (ignore ++ more))
    = Normal vs'
    /\ Subsequence vs' vs.
Proof.
  intros Hm (run & Hrun & ->)%check_of_run.
  apply run_shape in Hrun as [Ha ->]. cbn [policy orEmpty allowed disallowed ignores] in *.
  assert (Ha' : answered e (ignore ++ more) packages).
  { unfold answered in *. rewrite Forall_forall in Ha.
    apply Forall_forall. intros pkg Hin.
    destruct (Ha pkg Hin) as [b Hb].
    destruct (isIgnored_more e _ _ _ _ Hm Hb) as (b' & Hb' & _). eauto. }
  eexists. split.
  - apply check_of_run. eexists. split; [|reflexivity].
    apply (run_returns e packages (policy allow deny (ignore ++ more))).
    exact Ha'.
  - simpl. apply Subsequence_map, filter_Subsequence_impl.
    intros pkg Hin. unfold answered in Ha. rewrite Forall_forall in Ha.
    destruct (Ha pkg Hin) as [b Hb]. now apply violatingB_more with b.
Qed.

End IgnoringMore.

Lemma more_ignores_fewer_violations_witness :
  Forall (compiles sampleEngine) ["b*"]
  /\ exists vs',
      checkLicenseCompliance sampleEngine
        [pkgOf "a" "GPL-3.0-only"; pkgOf "b" "GPL-3.0-only"; pkgOf "c" "ISC"]
        (policy ["MIT"] ["GPL-3.0-only"] (["x"] ++ ["b*"]))
      = Normal vs'
      /\ Subsequence vs'
           [ {| package := "a"; violationLicense := "GPL-3.0-only";
                reason := "License 'GPL-3.0-only' is not allowed" |};
             {| package := "b"; violationLicense := "GPL-3.0-only";
                reason := "License 'GPL-3.0-only' is not allowed" |};
             {| package := "c"; violationLicense := "ISC";
                reason := "None of the licenses 'ISC' are in the allowed list" |} ].
Proof.
  assert (H : Forall (compiles sampleEngine) ["b*"])
    by (repeat constructor; eexists; reflexivity).
  split; [exact H|].
  exact (more_ignores_fewer_violations sampleEngine
           [pkgOf "a" "GPL-3.0-only"; pkgOf "b" "GPL-3.0-only"; pkgOf "c" "ISC"]
           ["MIT"] ["GPL-3.0-only"] ["x"] ["b*"] _ H eq_refl).
Defined.

(* ================================================================== *)
(** * The search for the project manifest *)

Section ManifestSearch.

Variable h : Host.

Lemma isRoot_eqb (dir : string) :
  (dir =? pathDirname h dir) = true <-> isRoot h dir.
Proof. unfold isRoot. rewrite String.eqb_eq. split; congruence. Qed.

Lemma findFrom_Found (fuel : nat) :
  forall start candidate,
    findPackageJsonFrom h fuel start = Found candidate ->
    exists k,
      k < fuel
      /\ candidate = manifestAt h k start
      /\ fsExistsSync h candidate = true
      /\ (forall j, j < k -> fsExistsSync h (manifestAt h j start) = false)
      /\ (forall j, j <= k -> ~ isRoot h (ancestor h j start)).
Proof.
  induction fuel as [|fuel IH]; intros start candidate; simpl; [discriminate|].
  destruct (start =? pathDirname h start) eqn:Er; [discriminate|].
  assert (Hr : ~ isRoot h start)
    by (intros Hroot; apply isRoot_eqb in Hroot; congruence).
  destruct (fsExistsSync h (pathJoin h [start; "package.json"])) eqn:Ex.
  - intros [= <-]. exists 0. repeat split; trivial; try lia.
    intros j Hj. replace j with 0 by lia. exact Hr.
  - intros H. destruct (IH _ _ H) as (k & Hk & -> & Hc & Hbelow & Hroots).
    exists (S k). repeat split; trivial; try lia.
    + intros [|j] Hj; [exact Ex | apply Hbelow; lia].
    + intros [|j] Hj; [exact Hr | apply Hroots; lia].
Qed.

Lemma findFrom_root (n : nat) :
  forall fuel start,
    isRoot h (ancestor h n start) ->
    (forall j, j < n -> ~ isRoot h (ancestor h j start)) ->
    n < fuel ->
    findPackageJsonFrom h fuel start <> Exhausted
    /\ (findPackageJsonFrom h fuel start = NotFound
        <-> forall j, j < n -> fsExistsSync h (manifestAt h j start) = false).
Proof.
  induction n as [|n IH]; intros fuel start Hroot Hbelow Hfuel;
    (destruct fuel as [|fuel]; [lia|]); simpl.
  - apply isRoot_eqb in Hroot. simpl in Hroot. rewrite Hroot.
    split; [discriminate|]. split; [intros _ j Hj; lia | reflexivity].
  - destruct (start =? pathDirname h start) eqn:Er.
    + exfalso. apply (Hbelow 0); [lia|]. now apply isRoot_eqb.
    + destruct (fsExistsSync h (pathJoin h [start; "package.json"])) eqn:Ex.
      * split; [discriminate|]. split; [discriminate|].
        intros H. specialize (H 0 ltac:(lia)).
        unfold manifestAt in H. simpl in H. congruence.
      * destruct (IH fuel (pathDirname h start)) as [He Hiff].
        { exact Hroot. }
        { intros j Hj. apply (Hbelow (S j)). lia. }
        { lia. }
        split; [exact He|]. rewrite Hiff. split.
        -- intros H [|j] Hj; [exact Ex | apply H; lia].
        -- intros H j Hj. apply (H (S j)). lia.
Qed.

(** What [findPackageJson] finds is the nearest manifest: the file
    package.json of the working directory or of the first directory above
    it that has one, no directory on the way being its own parent. *)
Theorem findPackageJson_finds_the_nearest (fuel : nat) (candidate : string) :
  findPackageJson h fuel = Found candidate ->
  exists k,
    candidate = pathJoin h [ancestor h k (processCwd h); "package.json"]
    /\ fsExistsSync h candidate = true
    /\ (forall j, j < k ->
                  fsExistsSync h (pathJoin h [ancestor h j (processCwd h);
                                              "package.json"]) = false)
    /\ (forall j, j <= k -> pathDirname h (ancestor h j (processCwd h))
                            <> ancestor h j (processCwd h)).
Proof.
  intros H. destruct (findFrom_Found _ _ _ H) as (k & _ & E & Hc & Hb & Hr).
  exists k. auto.
Qed.

(** The search ends at the root and never looks into it.  When the
    directory [n] levels above the working directory is the first that is
    its own parent, the loop is done after [n] rounds, and it returns
    [null] exactly when none of the [n] directories below the root holds a
    package.json, whether or not the root holds one. *)
Theorem findPackageJson_stops_below_the_root (n fuel : nat) :
  pathDirname h (ancestor h n (processCwd h)) = ancestor h n (processCwd h) ->
  (forall j, j < n -> pathDirname h (ancestor h j (processCwd h))
                      <> ancestor h j (processCwd h)) ->
  n < fuel ->
  findPackageJson h fuel <> Exhausted
  /\ (findPackageJson h fuel = NotFound
      <-> forall j, j < n ->
                    fsExistsSync h (pathJoin h [ancestor h j (processCwd h);
                                                "package.json"]) = false).
Proof. intros Hroot Hbelow Hfuel. now apply findFrom_root. Qed.

End ManifestSearch.

Lemma findPackageJson_finds_the_nearest_witness :
  findPackageJson sampleProject 5 = Found "/home/app/package.json"
  /\ exists k,
      "/home/app/package.json"
      = pathJoin sampleProject
                 [ancestor sampleProject k (processCwd sampleProject);
                  "package.json"]
      /\ fsExistsSync sampleProject "/home/app/package.json" = true
      /\ (forall j, j < k ->
                    fsExistsSync sampleProject
                      (pathJoin sampleProject
                         [ancestor sampleProject j (processCwd sampleProject);
                          "package.json"]) = false)
      /\ (forall j, j <= k ->
                    pathDirname sampleProject
                      (ancestor sampleProject j (processCwd sampleProject))
                    <> ancestor sampleProject j (processCwd sampleProject)).
Proof.
  split; [reflexivity|].
  exact (findPackageJson_finds_the_nearest sampleProject 5 _ eq_refl).
Defined.

Lemma findPackageJson_stops_below_the_root_witness :
  fsExistsSync (sampleHost "/srv/app" [("/package.json",
                                        manifestOf None JUndefined None None)])
               "/package.json" = true
  /\ findPackageJson (sampleHost "/srv/app"
                                 [("/package.json",
                                   manifestOf None JUndefined None None)]) 3
     = NotFound.
Proof.
  split; [reflexivity|].
  apply (findPackageJson_stops_below_the_root
           (sampleHost "/srv/app"
                       [("/package.json", manifestOf None JUndefined None None)])
           2 3).
  - reflexivity.
  - intros [|[|j]] Hj; [discriminate | discriminate | lia].
  - lia.
  - intros [|[|j]] Hj; [reflexivity | reflexivity | lia].
Defined.

(* ================================================================== *)
(** * Own keys *)

Section OwnKeys.

Lemma addKey_In (created : list string) (key x : string) :
  In x (addKey created key) <-> In x created \/ x = key.
Proof.
  unfold addKey. destruct (existsb (String.eqb key) created) eqn:E.
  - split; [auto|]. intros [H| ->]; [exact H|].
    apply existsb_exists in E as (y & Hy & Ey).
    apply String.eqb_eq in Ey. now subst.
  - rewrite in_app_iff. simpl. intuition congruence.
Qed.

Lemma addKey_NoDup (created : list string) (key : string) :
  NoDup created -> NoDup (addKey created key).
Proof.
  intros Hn. unfold addKey.
  destruct (existsb (String.eqb key) created) eqn:E; [exact Hn|].
  apply NoDup_app; [exact Hn | repeat constructor; auto |].
  intros x Hx [Ek|[]]. subst x.
  assert (existsb (String.eqb key) created = true); [|congruence].
  apply existsb_exists. exists key. split; [exact Hx | apply String.eqb_refl].
Qed.

Lemma spread_In (source : option (list string)) :
  forall created x,
    In x (spread created source) <-> In x created \/ In x (orEmpty source).
Proof.
  unfold spread. induction (orEmpty source) as [|k ks IH]; intros created x.
  - simpl. intuition.
  - simpl. rewrite IH, addKey_In. intuition congruence.
Qed.

Lemma spread_NoDup (source : option (list string)) :
  forall created, NoDup created -> NoDup (spread created source).
Proof.
  unfold spread. induction (orEmpty source) as [|k ks IH]; intros created Hn.
  - exact Hn.
  - simpl. apply IH, addKey_NoDup, Hn.
Qed.

Lemma insertIndex_Permutation (n : N) (key : string) (sorted : list (N * string)) :
  Permutation (insertIndex n key sorted) ((n, key) :: sorted).
Proof.
  induction sorted as [|[m k] rest IH]; simpl; [reflexivity|].
  destruct (n <=? m)%N; [reflexivity|].
  rewrite IH. apply perm_swap.
Qed.

Lemma indexKeys_Permutation (created : list string) :
  Permutation (map snd (indexKeys created))
              (filter (fun k => negb (isNamedKey k)) created).
Proof.
  induction created as [|k rest IH]; simpl; [reflexivity|].
  unfold isNamedKey at 1. destruct (arrayIndex k) as [n|]; simpl.
  - rewrite insertIndex_Permutation. simpl. now constructor.
  - exact IH.
Qed.

Lemma partition_Permutation {A} (f : A -> bool) (xs : list A) :
  Permutation (filter (fun x => negb (f x)) xs ++ filter f xs) xs.
Proof.
  induction xs as [|x xs IH]; simpl; [reflexivity|].
  destruct (f x); simpl.
  - rewrite <- Permutation_middle. now constructor.
  - now constructor.
Qed.

(** [Object.keys] lists every key once. *)
Lemma ownKeys_Permutation (created : list string) :
  Permutation (ownKeys created) created.
Proof.
  unfold ownKeys. rewrite indexKeys_Permutation. apply partition_Permutation.
Qed.

Lemma allDependencies_NoDup (packageJson : PackageJson) :
  NoDup (allDependencies packageJson).
Proof.
  unfold allDependencies.
  apply (Permutation_NoDup (Permutation_sym (ownKeys_Permutation _))).
  repeat apply spread_NoDup. constructor.
Qed.

Lemma allDependencies_In (packageJson : PackageJson) (x : string) :
  In x (allDependencies packageJson)
  <-> In x (orEmpty (dependencies packageJson))
      \/ In x (orEmpty (devDependencies packageJson))
      \/ In x (orEmpty (optionalDependencies packageJson))
      \/ In x (orEmpty (peerDependencies packageJson)).
Proof.
  unfold allDependencies. split.
  - intros H. apply (Permutation_in _ (ownKeys_Permutation _)) in H.
    rewrite !spread_In in H. simpl in H. intuition.
  - intros H.
    apply (Permutation_in _ (Permutation_sym (ownKeys_Permutation _))).
    rewrite !spread_In. simpl. intuition.
Qed.

Lemma Subsequence_In {A} (xs ys : list A) (x : A) :
  Subsequence xs ys -> In x xs -> In x ys.
Proof. induction 1; simpl; intuition. Qed.

Lemma Subsequence_NoDup {A} (xs ys : list A) :
  Subsequence xs ys -> NoDup ys -> NoDup xs.
Proof.
  induction 1; intros Hn; [constructor | |].
  - inversion Hn; auto.
  - inversion Hn as [|? ? Hx Hys]; subst. constructor; [|auto].
    intros Hin. apply Hx. now apply Subsequence_In with xs.
Qed.

End OwnKeys.

(* ================================================================== *)
(** * The scanner *)

Section Scanner.

Variable h : Host.

Lemma tryScan_Some (packageName basePath : string) (pkg : ScannedPackage)
      (console : list string) :
  tryScan h packageName basePath = Returned (Some pkg, console) ->
  console = []
  /\ name pkg = packageName
  /\ version pkg <> ""
  /\ fsExistsSync h (path pkg) = true
  /\ (path pkg = pathJoin h [basePath; "node_modules"; packageName]
      \/ (fsExistsSync h (pathJoin h [basePath; "node_modules"; packageName])
          = false
          /\ path pkg = pathJoin h [processCwd h; "node_modules"; packageName]))
  /\ fsExistsSync h (pathJoin h [path pkg; "package.json"]) = true
  /\ exists packageJson,
      readManifest h (pathJoin h [path pkg; "package.json"])
      = Returned packageJson
      /\ extractLicense (manifestLicensing packageJson) = Normal (license pkg)
      /\ version pkg = versionOrUnknown (manifestVersion packageJson).
Proof.
  unfold tryScan, resolvePackagePath. simpl find.
  destruct (fsExistsSync h (pathJoin h [basePath; "node_modules"; packageName]))
    eqn:E1;
    [|destruct (fsExistsSync h (pathJoin h [processCwd h; "node_modules";
                                            packageName])) eqn:E2;
      [|discriminate]];
    (match goal with
     | |- context [fsExistsSync h (pathJoin h [?p; "package.json"])] =>
         destruct (fsExistsSync h (pathJoin h [p; "package.json"])) eqn:Em;
         simpl; [|discriminate];
         destruct (readManifest h (pathJoin h [p; "package.json"]))
           as [packageJson|e] eqn:Er; [|discriminate];
         destruct (extractLicense (manifestLicensing packageJson))
           as [l|err] eqn:El; [|discriminate]
     end);
    intros [= <- <-]; simpl; repeat split; auto;
    try (destruct (manifestVersion packageJson) as [[|c v]|]; discriminate);
    exists packageJson; auto.
Qed.

Lemma scanDirectPackage_Some (packageName basePath : string)
      (pkg : ScannedPackage) (console : list string) :
  scanDirectPackage h packageName basePath = (Some pkg, console) ->
  tryScan h packageName basePath = Returned (Some pkg, console).
Proof.
  unfold scanDirectPackage.
  destruct (tryScan h packageName basePath) as [result|e].
  - now intros ->.
  - destruct (Js.includes (messageOf e) "not found"); discriminate.
Qed.

Lemma tryScan_None (packageName basePath : string) (console : list string) :
  tryScan h packageName basePath = Returned (None, console) ->
  console = ["No package.json found for " ++ packageName].
Proof.
  unfold tryScan. destruct (resolvePackagePath h packageName basePath)
    as [packagePath|e]; [|discriminate].
  destruct (negb (fsExistsSync h (pathJoin h [packagePath; "package.json"]))).
  - now intros [= <-].
  - destruct (readManifest h _) as [packageJson|]; [|discriminate].
    destruct (extractLicense _); discriminate.
Qed.

Lemma scanDirectPackage_None (packageName basePath : string)
      (console : list string) :
  scanDirectPackage h packageName basePath = (None, console) ->
  exists line, console = [line].
Proof.
  unfold scanDirectPackage.
  destruct (tryScan h packageName basePath) as [[[pkg|] c]|e] eqn:E.
  - discriminate.
  - intros [= <-]. apply tryScan_None in E. eauto.
  - destruct (Js.includes (messageOf e) "not found"); intros [= <-]; eauto.
Qed.


Lemma not_found_message (packageName : string) :
  Js.includes ("Package " ++ packageName ++ " not found") "not found" = true.
Proof.
  apply includes_spec. exists ("Package " ++ packageName ++ " "), "".
  rewrite append_nil_r, !append_assoc. reflexivity.
Qed.

(** A dependency that is installed neither below the project nor below the
    working directory is always reported as skipped, never as a failed
    scan, whatever its name. *)
Theorem unresolved_package_is_skipped (packageName basePath : string) :
  fsExistsSync h (pathJoin h [basePath; "node_modules"; packageName]) = false ->
  fsExistsSync h (pathJoin h [processCwd h; "node_modules"; packageName])
  = false ->
  scanDirectPackage h packageName basePath
  = (None,
     ["Skipping " ++ packageName ++ ": not found (possibly a peer dependency)"]).
Proof.
  intros E1 E2. unfold scanDirectPackage, tryScan, resolvePackagePath.
  simpl find. rewrite E1, E2. cbn [messageOf newError isError errorMessage].
  now rewrite not_found_message.
Qed.

Lemma scanDirectPackage_shape (packageName basePath : string) :
  (exists pkg,
      scanDirectPackage h packageName basePath = (Some pkg, [])
      /\ name pkg = packageName)
  \/ (exists line, scanDirectPackage h packageName basePath = (None, [line])).
Proof.
  destruct (scanDirectPackage h packageName basePath) as [[pkg|] console] eqn:E.
  - left. exists pkg. apply scanDirectPackage_Some, tryScan_Some in E.
    destruct E as (-> & Hn & _). auto.
  - right.
    destruct (scanDirectPackage_None packageName basePath console E)
      as [line ->].
    eauto.
Qed.

Lemma scanned_keys (basePath : string) (keys : list string) :
  let results := map (fun pkg => scanDirectPackage h pkg basePath) keys in
  Subsequence (map name (present (map fst results))) keys
  /\ List.length (present (map fst results))
     + List.length (List.concat (map snd results))
     = List.length keys.
Proof.
  induction keys as [|k keys [IH1 IH2]]; simpl; [split; [constructor|reflexivity]|].
  destruct (scanDirectPackage_shape k basePath)
    as [(pkg & -> & <-)|(line & ->)]; simpl.
  - split; [now constructor | simpl in IH2; lia].
  - split; [now constructor | simpl in IH2; lia].
Qed.

(** A scan that returns has looked at every declared dependency once:
    the names of the records are distinct, they are keys of the dependency
    groups of the project manifest, in the order of [Object.keys], and each
    key gave either a record or one warning. *)
Theorem scanPackages_scans_each_dependency_once (fuel : nat)
        (console : list string) (packages : list ScannedPackage) :
  scanPackages h fuel = Scanned console (Returned packages) ->
  exists candidate packageJson,
    findPackageJson h fuel = Found candidate
    /\ readManifest h candidate = Returned packageJson
    /\ NoDup (map name packages)
    /\ Subsequence (map name packages) (allDependencies packageJson)
    /\ (forall pkg,
           In pkg packages ->
           In (name pkg) (orEmpty (dependencies packageJson))
           \/ In (name pkg) (orEmpty (devDependencies packageJson))
           \/ In (name pkg) (orEmpty (optionalDependencies packageJson))
           \/ In (name pkg) (orEmpty (peerDependencies packageJson)))
    /\ List.length packages + List.length console
       = List.length (allDependencies packageJson).
Proof.
  unfold scanPackages.
  destruct (findPackageJson h fuel) as [candidate| |]; try discriminate.
  destruct (Js.isEmpty candidate); [discriminate|].
  destruct (readManifest h candidate) as [packageJson|e] eqn:Er; [|discriminate].
  intros [= <- <-]. exists candidate, packageJson.
  destruct (scanned_keys (pathDirname h candidate) (allDependencies packageJson))
    as [Hsub Hlen].
  split; [reflexivity|]. split; [exact Er|].
  split; [|split; [exact Hsub|split; [|exact Hlen]]].
  - apply (Subsequence_NoDup _ _ Hsub), allDependencies_NoDup.
  - intros pkg Hin. apply allDependencies_In.
    apply (Subsequence_In _ _ _ Hsub). now apply in_map.
Qed.

End Scanner.


Lemma unresolved_package_is_skipped_witness :
  fsExistsSync sampleProject "/home/app/node_modules/left-pad" = false
  /\ scanDirectPackage sampleProject "left-pad" "/home/app"
     = (None,
        ["Skipping left-pad: not found (possibly a peer dependency)"]).
Proof.
  split; [reflexivity|].
  exact (unresolved_package_is_skipped sampleProject "left-pad" "/home/app"
                                       eq_refl eq_refl).
Defined.

Lemma scanPackages_scans_each_dependency_once_witness :
  exists candidate packageJson,
    findPackageJson sampleProject 5 = Found candidate
    /\ readManifest sampleProject candidate = Returned packageJson
    /\ NoDup ["2"; "10"; "lodash"; "typescript"]
    /\ Subsequence ["2"; "10"; "lodash"; "typescript"]
                   (allDependencies packageJson)
    /\ (forall pkg,
           In pkg [ {| name := "2"; version := "unknown";
                       license := JString "UNKNOWN";
                       path := "/home/app/node_modules/2" |};
                    {| name := "10"; version := "0.1.0";
                       license := JString "GPL-3.0-only";
                       path := "/home/app/node_modules/10" |};
                    {| name := "lodash"; version := "4.17.21";
                       license := JString "MIT";
                       path := "/home/app/node_modules/lodash" |};
                    {| name := "typescript"; version := "5.0.0";
                       license := JString "Apache-2.0";
                       path := "/home/app/node_modules/typescript" |} ] ->
           In (name pkg) (orEmpty (dependencies packageJson))
           \/ In (name pkg) (orEmpty (devDependencies packageJson))
           \/ In (name pkg) (orEmpty (optionalDependencies packageJson))
           \/ In (name pkg) (orEmpty (peerDependencies packageJson)))
    /\ 4 + 1 = List.length (allDependencies packageJson).
Proof.
  exact (scanPackages_scans_each_dependency_once
           sampleProject 5
           ["Skipping left-pad: not found (possibly a peer dependency)"]
           [ {| name := "2"; version := "unknown"; license := JString "UNKNOWN";
                path := "/home/app/node_modules/2" |};
             {| name := "10"; version := "0.1.0";
                license := JString "GPL-3.0-only";
                path := "/home/app/node_modules/10" |};
             {| name := "lodash"; version := "4.17.21"; license := JString "MIT";
                path := "/home/app/node_modules/lodash" |};
             {| name := "typescript"; version := "5.0.0";
                license := JString "Apache-2.0";
                path := "/home/app/node_modules/typescript" |} ]
           eq_refl).
Defined.

(* ================================================================== *)
(** * The plugin *)

Section Plugin.

Variable h : Host.




(** Without a project manifest the build is blocked: when no directory
    from the working directory up to, but not including, the root holds a
    package.json, the hook returns the one error "License check failed:
    Error: package.json not found", whatever the options are. *)
Theorem missing_manifest_blocks_the_build (n fuel : nat)
        (options : option LicenseComplianceOptions) :
  pathDirname h (ancestor h n (processCwd h)) = ancestor h n (processCwd h) ->
  (forall j, j < n -> pathDirname h (ancestor h j (processCwd h))
                      <> ancestor h j (processCwd h)) ->
  n < fuel ->
  (forall j, j < n ->
             fsExistsSync h (pathJoin h [ancestor h j (processCwd h);
                                         "package.json"]) = false) ->
  onStart h fuel options
  = HookReturns (Some ["License check failed: Error: package.json not found"]).
Proof.
  intros Hroot Hbelow Hfuel Hnone.
  destruct (findFrom_root h n fuel (processCwd h) Hroot Hbelow Hfuel)
    as [_ Hiff].
  unfold onStart, scanPackages, findPackageJson.
  now rewrite (proj2 Hiff Hnone).
Qed.

End Plugin.


Lemma missing_manifest_blocks_the_build_witness :
  onStart (sampleHost "/srv/app"
                      [("/package.json", manifestOf None JUndefined None None)])
          3 None
  = HookReturns (Some ["License check failed: Error: package.json not found"]).
Proof.
  apply (missing_manifest_blocks_the_build
           (sampleHost "/srv/app"
                       [("/package.json", manifestOf None JUndefined None None)])
           2 3 None).
  - reflexivity.
  - intros [|[|j]] Hj; [discriminate | discriminate | lia].
  - lia.
  - intros [|[|j]] Hj; [reflexivity | reflexivity | lia].
Defined.

(* ================================================================== *)
(** * More on [extractLicense] *)

Section Extraction.

Lemma join_two_nonempty (sep : string) (x y : string) (rest : list string) :
  sep <> "" -> Js.join sep (x :: y :: rest) <> "".
Proof.
  intros Hs H. change (x ++ sep ++ Js.join sep (y :: rest) = "") in H.
  apply append_eq_nil in H as [_ H]. apply append_eq_nil in H as [H _].
  contradiction.
Qed.

(** The license [extractLicense] returns is the empty string in one case
    only: no truthy [license], and a [licenses] array of a single element
    whose type is written as nothing by [join] (it is missing, [null], the
    empty string, or an array that joins to nothing). *)
Theorem extractLicense_empty_corner (pkg : Manifest) :
  extractLicense pkg = Normal (JString "")
  <-> Json.truthy (manifestLicense pkg) = false
      /\ exists entry t,
           manifestLicenses pkg = JArray [entry]
           /\ Json.get entry "type" = Normal t
           /\ Json.joined t = Normal "".
Proof.
  unfold extractLicense. destruct pkg as [l ls].
  cbn [manifestLicense manifestLicenses]. split.
  - destruct (Json.truthy l) eqn:Et.
    + intros [= ->]. discriminate.
    + intros H. split; [reflexivity|].
      destruct ls as [| | | | |items|]; try discriminate.
      destruct items as [|entry items]; [discriminate|].
      cbn [mapM bind] in H.
      destruct (Json.get entry "type") as [t|] eqn:Eg; [|discriminate].
      cbn [bind] in H. destruct items as [|entry2 items].
      * cbn [mapM bind] in H.
        destruct (Json.joined t) as [text|] eqn:Ej; [|discriminate].
        cbn [bind Js.join] in H. injection H as ->.
        exists entry, t. auto.
      * exfalso. cbn [mapM bind] in H.
        destruct (Json.get entry2 "type") as [t2|]; [|discriminate].
        cbn [bind] in H.
        destruct (mapM _ items) as [ts|]; [|discriminate].
        cbn [bind mapM] in H.
        destruct (Json.joined t) as [text|]; [|discriminate].
        cbn [bind] in H.
        destruct (Json.joined t2) as [text2|]; [|discriminate].
        cbn [bind] in H.
        destruct (mapM Json.joined ts) as [texts|]; [|discriminate].
        cbn [bind] in H. injection H as H.
        exact (join_two_nonempty " OR " _ _ _ ltac:(discriminate) H).
  - intros (-> & entry & t & -> & Eg & Et).
    cbn [mapM bind]. rewrite Eg. cbn [mapM bind]. now rewrite Et.
Qed.

End Extraction.

Lemma extractLicense_empty_corner_witness :
  extractLicense {| manifestLicense := JString "";
                    manifestLicenses := JArray [JObject [("type", JString "")]] |}
  = Normal (JString "")
  /\ extractLicense {| manifestLicense := JUndefined;
                       manifestLicenses := JArray [JString "MIT"] |}
     = Normal (JString "")
  /\ extractLicense {| manifestLicense := JNull;
                       manifestLicenses := JArray [JObject []] |}
     = Normal (JString "")
  /\ extractLicense {| manifestLicense := JUndefined;
                       manifestLicenses := JArray [JString "MIT"; JObject []] |}
     = Normal (JString " OR ")
  /\ extractLicense {| manifestLicense := JUndefined;
                       manifestLicenses := JArray [JNull] |}
     = Throw (TypeError (ReadOf JNull "type")).
Proof.
  split; [|split; [|split; [|split; reflexivity]]].
  - apply (proj2 (extractLicense_empty_corner
                    {| manifestLicense := JString "";
                       manifestLicenses :=
                         JArray [JObject [("type", JString "")]] |})).
    split; [reflexivity|].
    exists (JObject [("type", JString "")]), (JString ""). auto.
  - apply (proj2 (extractLicense_empty_corner
                    {| manifestLicense := JUndefined;
                       manifestLicenses := JArray [JString "MIT"] |})).
    split; [reflexivity|]. exists (JString "MIT"), JUndefined. auto.
  - apply (proj2 (extractLicense_empty_corner
                    {| manifestLicense := JNull;
                       manifestLicenses := JArray [JObject []] |})).
    split; [reflexivity|]. exists (JObject []), JUndefined. auto.
Defined.

Lemma verdict_has_reason_iff_refused_witness :
  checkAllowed (isLicenseAllowed "ISC" ["MIT"] []) = false
  /\ truthy (checkReason (isLicenseAllowed "ISC" ["MIT"] [])) = true.
Proof.
  split; [reflexivity|].
  exact (proj1 (proj2 (verdict_has_reason_iff_refused "ISC" ["MIT"] []))
               eq_refl).
Defined.

(* ================================================================== *)
(** * The check on what the scanner returns *)

Section ScannedRecords.

Variable e : Engine.

Lemma forScanned_of_typed (a d i : list string) (packages : list ScannedPackage) :
  forall run run',
    forPackages e a d i (typedRecords packages) run = Normal run' ->
    Forall (fun pkg => (exists l, license pkg = JString l)
                       \/ isIgnored e (name pkg) i = Normal true) packages ->
    forScanned e a d i packages run = Normal run'.
Proof.
  induction packages as [|pkg rest IH]; intros run run' H Hall; [exact H|].
  inversion Hall as [|? ? Hpkg Hrest]; subst.
  cbn [typedRecords] in H. cbn [forScanned]. unfold checkScannedPackage.
  destruct (license pkg) as [| | | |l| |] eqn:El;
    try (destruct Hpkg as [[l' Hl']|Hi]; [discriminate|];
         rewrite Hi; cbn [bind]; now apply IH).
  cbn [forPackages] in H.
  destruct (checkPackage e a d i (withLicense pkg l) run) as [run1|];
    [|discriminate].
  cbn [bind] in *. now apply IH.
Qed.

(** The check on the records of the scanner returns exactly when every
    record has a string for its license or is ignored and the check on the
    records with a string for their license returns; it then returns the
    same violations. *)
Theorem checkScanned_is_check_of_strings (scanned : list ScannedPackage)
        (options : LicenseComplianceOptions) (vs : list LicenseViolation) :
  checkScanned e scanned options = Normal vs
  <-> checkLicenseCompliance e (typedRecords scanned) options = Normal vs
      /\ Forall (fun pkg =>
                   (exists l, license pkg = JString l)
                   \/ isIgnored e (name pkg) (given (ignores options))
                      = Normal true) scanned.
Proof.
  unfold checkScanned, checkLicenseCompliance, checkLicenseComplianceRun.
  change (given (ignores options)) with (orEmpty (ignores options)).
  split.
  - destruct (forScanned e _ _ _ scanned emptyRun) as [run|] eqn:E;
      [|discriminate].
    cbn [bind]. intros [= <-].
    destruct (forScanned_Normal e _ _ _ _ _ _ E) as [Ht Hall].
    split; [now rewrite Ht | exact Hall].
  - intros [H Hall].
    destruct (forPackages e _ _ _ (typedRecords scanned) emptyRun) as [run|] eqn:E;
      [|discriminate].
    now rewrite (forScanned_of_typed _ _ _ _ _ _ E Hall).
Qed.

End ScannedRecords.

Lemma checkScanned_is_check_of_strings_witness :
  checkScanned sampleEngine
    [ {| name := "@scope/left"; version := "0.0.1";
         license := JObject [("type", JString "GPL-3.0-only")];
         path := "" |};
      scannedOf (pkgOf "right" "GPL-3.0-only") ]
    (policy [] ["GPL-3.0-only"] ["@scope/[a-z]*"])
  = Normal [ {| package := "right"; violationLicense := "GPL-3.0-only";
                reason := "License 'GPL-3.0-only' is not allowed" |} ].
Proof.
  apply (proj2 (checkScanned_is_check_of_strings sampleEngine
                  [ {| name := "@scope/left"; version := "0.0.1";
                       license := JObject [("type", JString "GPL-3.0-only")];
                       path := "" |};
                    scannedOf (pkgOf "right" "GPL-3.0-only") ]
                  (policy [] ["GPL-3.0-only"] ["@scope/[a-z]*"])
                  [ {| package := "right"; violationLicense := "GPL-3.0-only";
                       reason := "License 'GPL-3.0-only' is not allowed" |} ])).
  split; [reflexivity|].
  apply Forall_cons; [right; reflexivity|].
  apply Forall_cons; [left; eexists; reflexivity | apply Forall_nil].
Defined.

(* ================================================================== *)
(** * Corner cases of the host functions *)

Section Corners.

(** [toLowerCase] below U+0100: the letters A to Z and the capitals from
    U+00C0 to U+00DE, without the multiplication sign U+00D7; the sharp s
    U+00DF and the y with diaeresis U+00FF stay. *)
Example toLowerCase_latin1 :
  map (fun c => N_of_ascii (Js.toLowerChar (ascii_of_N c)))
      [64; 65; 90; 91; 191; 192; 214; 215; 216; 222; 223; 255]%N
  = [64; 97; 122; 91; 191; 224; 246; 215; 248; 254; 223; 255]%N.
Proof. reflexivity. Qed.

(** The wildcard [?] takes any one code unit but the line terminators LF
    and CR; a vertical tab is none. *)
Example wildcard_refuses_line_terminators (e : Engine) :
  isIgnored e (String "010" "") ["?"] = Normal false
  /\ isIgnored e (String "013" "") ["?"] = Normal false
  /\ isIgnored e (String "011" "") ["?"] = Normal true.
Proof. repeat split; reflexivity. Qed.

(** An optional atom is left to the engine. *)
Example optional_atom_is_outside (e : Engine) :
  RegExp.parse "^a?$" = RegExp.Outside
  /\ RegExp.construct e "^a?$" = outside e "^a?$".
Proof. split; reflexivity. Qed.

(** A reason that is the empty string counts as no reason. *)
Example empty_reason_is_falsy :
  truthy None = false /\ truthy (Some "") = false /\ truthy (Some "no") = true.
Proof. repeat split; reflexivity. Qed.

(** What is truthy in the field [license]: the number zero is not, an empty
    array is. *)
Example license_field_truthiness :
  extractLicense {| manifestLicense := JNumber "0";
                    manifestLicenses := JUndefined |}
  = Normal (JString "UNKNOWN")
  /\ extractLicense {| manifestLicense := JNumber "1";
                       manifestLicenses := JUndefined |}
     = Normal (JNumber "1")
  /\ extractLicense {| manifestLicense := JArray [];
                       manifestLicenses := JArray [JObject [("type", JString "MIT")]] |}
     = Normal (JArray [])
  /\ extractLicense {| manifestLicense := JBool false;
                       manifestLicenses := JArray [] |}
     = Normal (JString "UNKNOWN")
  /\ extractLicense {| manifestLicense := JNull;
                       manifestLicenses := JObject [("type", JString "MIT")] |}
     = Normal (JString "UNKNOWN").
Proof. repeat split; reflexivity. Qed.

(** The types of a [licenses] array that are no strings: an array is joined
    with commas, an object is written [[object Object]], of two members of
    the same name the last one counts, an entry that is a string has no
    type; an object with a member [toString] cannot be written. *)
Example licenses_entries_of_other_types :
  extractLicense
    {| manifestLicense := JUndefined;
       manifestLicenses :=
         JArray [ JObject [("type", JArray [JString "MIT"; JNull; JNumber "2"])];
                  JObject [("type", JObject [])];
                  JObject [("type", JBool true); ("type", JString "ISC")];
                  JObject [("type", JBool true)];
                  JString "BSD" ] |}
  = Normal (JString "MIT,,2 OR [object Object] OR ISC OR true OR ")
  /\ extractLicense
       {| manifestLicense := JUndefined;
          manifestLicenses :=
            JArray [JObject [("type", JObject [("toString", JString "MIT")])]] |}
     = Throw (TypeError ToPrimitive)
  /\ extractLicense
       {| manifestLicense := JUndefined;
          manifestLicenses :=
            JArray [ JObject [("type", JObject [("toString", JNull)])];
                     JNull ] |}
     = Throw (TypeError (ReadOf JNull "type")).
Proof. repeat split; reflexivity. Qed.

(** A caller of the exported check may hand over a record whose license is
    [null]: the comparison with the sentinel fails and the parser throws on
    the read of [split], unless the record is ignored. *)
Example license_null_ends_the_check (e : Engine) :
  checkScanned e
    [ {| name := "a"; version := "1.0.0"; license := JNull; path := "" |} ]
    {| allowed := None; disallowed := None; ignores := None |}
  = Throw (TypeError (ReadOf JNull "split"))
  /\ checkScanned e
       [ {| name := "a"; version := "1.0.0"; license := JBool false; path := "" |} ]
       {| allowed := None; disallowed := None; ignores := None |}
     = Throw (TypeError (CallOf "split"))
  /\ checkScanned e
       [ {| name := "a"; version := "1.0.0"; license := JNull; path := "" |} ]
       {| allowed := None; disallowed := None; ignores := Some ["?"] |}
     = Normal [].
Proof. repeat split; reflexivity. Qed.

(** The keys of an object: the array indices first, in ascending order,
    then the other keys as they were created; a number with a leading zero
    and a number from 2^32 - 1 on are no array indices. *)
Example ownKeys_of_numbers :
  ownKeys ["b"; "01"; "1"; "4294967296"; "4294967295"; "0"; "4294967294"; "a"]
  = ["0"; "1"; "4294967294"; "b"; "01"; "4294967296"; "4294967295"; "a"].
Proof. reflexivity. Qed.

(** The dependency groups are spread in the order of lib.ts:244-249, and a
    name keeps the place of its first group. *)
Example dependency_groups_in_order :
  allDependencies
    {| manifestVersion := None;
       manifestLicensing :=
         {| manifestLicense := JUndefined; manifestLicenses := JUndefined |};
       dependencies := Some ["d"; "shared"];
       devDependencies := Some ["c"; "shared"];
       optionalDependencies := Some ["b"; "d"];
       peerDependencies := Some ["a"; "c"] |}
  = ["d"; "shared"; "c"; "b"; "a"].
Proof. reflexivity. Qed.

(** A scan of manifests the scanner stumbles on: an exception of
    [extractLicense] is caught and the package left out with a warning; a
    license that is no string is recorded as it is, and an empty version as
    unknown. *)
Example scenario_odd_manifests :
  scanPackages oddProject 5
  = Scanned
      [ "Failed to scan nulls: Cannot read properties of null (reading 'type')";
        "Failed to scan objects: Cannot convert object to primitive value" ]
      (Returned
         [ {| name := "7"; version := "unknown"; license := JNumber "1";
              path := "/srv/odd/node_modules/7" |};
           {| name := "arrays"; version := "unknown";
              license := JString "MIT,,2 OR [object Object] OR ISC OR ";
              path := "/srv/odd/node_modules/arrays" |} ])
  /\ onStart oddProject 5 None
     = HookReturns
         (Some [ "License check failed: "
                 ++ "TypeError: licenseExpression.split is not a function" ])
  /\ onStart oddProject 5
       (Some {| allowed := None; disallowed := None; ignores := Some ["?"] |})
     = HookReturns None
  /\ onStart oddProject 5
       (Some {| allowed := None; disallowed := None; ignores := Some ["*+"] |})
     = HookReturns
         (Some [ "License check failed: "
                 ++ "SyntaxError: Invalid regular expression: /^.*+$/: "
                 ++ "Nothing to repeat" ]).
Proof. repeat split; reflexivity. Qed.

End Corners.
